(** * Storage strategies of boltdb-benchmarks: a shallow embedding

    The Go package [strategy] persists [UserInfo] records in a bbolt store
    under six physical layouts.  This development embeds the record, the
    byte-level codecs, an ordered-bucket model of the store with its
    transactions, the six strategies ([binary.go], [binary_with_names.go],
    [multi_kv.go], the nested bucket strategy, and [json.go] and [gob.go]
    over an abstract library codec) and the variants of
    [strategy_variant.go], and states their properties.

    Conventions.  A Go [[]byte] and a Go [string] are both [list byte].
    A w-bit integer is a [Z] with its wrap-around written out.  A [float64]
    (resp. [float32]) is the [Z] holding its IEEE-754 bit pattern, so that
    [math.Float64bits] is the identity; arithmetic and conversions go through
    [spec_float].  A Go function returns its results ([Return]) or panics
    ([Crash]); inside a transaction body, [Fail] is an early [return err].

    The first part holds the embedding and the vocabulary of the statements,
    the second part the proofs. *)

From Stdlib Require Import ZArith List Bool Lia String Ascii Sorted
  Permutation.
From Stdlib Require Import Strings.Byte Floats.SpecFloat DecimalString
  DecimalPos.
Import ListNotations.

Local Open Scope Z_scope.

(* ================================================================== *)
(** * Bytes, fixed-width integers, byte order *)

Definition bytes := list byte.

Definition str (s : string) : bytes := list_byte_of_string s.

Definition Z_of_byte (b : byte) : Z := Z.of_N (Byte.to_N b).

Definition byte_of_Z (z : Z) : byte :=
  match Byte.of_N (Z.to_N (z mod 256)) with
  | Some b => b
  | None => x00
  end.

Definition len (bs : bytes) : Z := Z.of_nat (List.length bs).

Definition bytes_eqb (a b : bytes) : bool :=
  if list_eq_dec Byte.byte_eq_dec a b then true else false.

(** Go conversions between integer types: truncation to the low bits,
    then the signed or unsigned reading. *)
Definition uint (w : Z) (z : Z) : Z := z mod 2 ^ w.
Definition sint (w : Z) (z : Z) : Z :=
  let u := z mod 2 ^ w in if u <? 2 ^ (w - 1) then u else u - 2 ^ w.

Definition uint64 := uint 64.
Definition uint32 := uint 32.
Definition int64 := sint 64.
Definition int32 := sint 32.

(** [binary.LittleEndian.PutUintN] on an n-byte slice, and [UintN]. *)
Fixpoint le_put (n : nat) (z : Z) : bytes :=
  match n with
  | O => []
  | S n' => byte_of_Z z :: le_put n' (z / 256)
  end.

Fixpoint le_get (bs : bytes) : Z :=
  match bs with
  | [] => 0
  | b :: r => Z_of_byte b + 256 * le_get r
  end.

(** [binary.BigEndian.PutUint64] and [Uint64]. *)
Definition be_put (n : nat) (z : Z) : bytes := rev (le_put n z).
Definition be_get (bs : bytes) : Z := le_get (rev bs).

(** [bytes.Compare]: lexicographic order on unsigned bytes; the order in
    which a bbolt cursor visits keys. *)
Fixpoint compare_bytes (a b : bytes) : comparison :=
  match a, b with
  | [], [] => Eq
  | [], _ :: _ => Lt
  | _ :: _, [] => Gt
  | x :: a', y :: b' =>
      match Z.compare (Z_of_byte x) (Z_of_byte y) with
      | Eq => compare_bytes a' b'
      | c => c
      end
  end.

Definition bytes_ltb (a b : bytes) : bool :=
  match compare_bytes a b with Lt => true | _ => false end.

(** [bytes.HasPrefix]. *)
Fixpoint HasPrefix (s p : bytes) : bool :=
  match p, s with
  | [], _ => true
  | _ :: _, [] => false
  | y :: p', x :: s' => Byte.eqb x y && HasPrefix s' p'
  end.

(* ================================================================== *)
(** * Floating point

    A float is kept as its bit pattern.  [mw] is the width of the stored
    mantissa and [ew] the width of the exponent field. *)

Module Float.
Section Format.
Variables mw ew : Z.

Definition prec : Z := mw + 1.
Definition emax : Z := 2 ^ (ew - 1).
Definition emin_ : Z := 3 - emax - prec.

(** Reading a bit pattern. *)
Definition to_SF (b : Z) : spec_float :=
  let s := Z.testbit b (mw + ew) in
  let ex := (b / 2 ^ mw) mod 2 ^ ew in
  let mx := b mod 2 ^ mw in
  if ex =? 0 then
    match mx with
    | Zpos m => S754_finite s m emin_
    | _ => S754_zero s
    end
  else if ex =? 2 ^ ew - 1 then
    (if mx =? 0 then S754_infinity s else S754_nan)
  else
    match mx + 2 ^ mw with
    | Zpos m => S754_finite s m (ex + emin_ - 1)
    | _ => S754_nan
    end.

Definition sign_bit (s : bool) : Z := if s then 2 ^ (mw + ew) else 0.

(** Writing a value back; a NaN produced by arithmetic is the quiet NaN
    with an empty payload. *)
Definition of_SF (x : spec_float) : Z :=
  match x with
  | S754_zero s => sign_bit s
  | S754_infinity s => sign_bit s + (2 ^ ew - 1) * 2 ^ mw
  | S754_nan => (2 ^ ew - 1) * 2 ^ mw + 2 ^ (mw - 1)
  | S754_finite s m e =>
      if Zpos m <? 2 ^ mw then sign_bit s + Zpos m
      else sign_bit s + (e - emin_ + 1) * 2 ^ mw + (Zpos m - 2 ^ mw)
  end.

(** The float nearest to [m * 2^e] (round to nearest, ties to even). *)
Definition of_scaled (m e : Z) : Z :=
  of_SF (binary_normalize prec emax m e false).

(** Conversion of an integer to the float type, as in [float64(n)]. *)
Definition of_int (n : Z) : Z := of_scaled n 0.

Definition add (a b : Z) : Z :=
  of_SF (SFadd prec emax (to_SF a) (to_SF b)).

(** Truncation toward zero of a finite value; [None] for NaN and the
    infinities. *)
Definition trunc (b : Z) : option Z :=
  match to_SF b with
  | S754_zero _ => Some 0
  | S754_finite s m e =>
      let a := match e with
               | Z0 => Zpos m
               | Zpos p => Zpos m * 2 ^ Zpos p
               | Zneg p => Zpos m / 2 ^ Zpos p
               end in
      Some (if s then - a else a)
  | _ => None
  end.

(** Conversion to an unsigned integer, as in [uint64(f)] and
    [uint32(f)].  Go truncates toward zero; when the truncated value does
    not fit the type, the language leaves the result to the implementation.
    The model then gives what the amd64 compiler computes.  [uint64(f)] is
    the int64 conversion reinterpreted for [f < 2^63] and the int64
    conversion of [f - 2^63] with the top bit set otherwise; [uint32(f)] is
    the low half of the int64 conversion; the int64 conversion of a value
    outside int64, an infinity or a NaN is [-2^63]. *)
Definition to_int64 (b : Z) : Z :=
  match trunc b with
  | Some n => if (- 2 ^ 63 <=? n) && (n <? 2 ^ 63) then n else - 2 ^ 63
  | None => - 2 ^ 63
  end.

Definition to_uint64 (b : Z) : Z :=
  match trunc b with
  | Some n =>
      if n <? 2 ^ 63 then uint 64 (to_int64 b)
      else if n <? 2 ^ 64 then n
      else 2 ^ 63
  | None => 2 ^ 63
  end.

Definition to_uint32 (b : Z) : Z := uint 32 (to_int64 b).
End Format.
End Float.

Definition float64 := Z.
Definition float32 := Z.

Module F64.
Definition to_SF := Float.to_SF 52 11.
Definition of_SF := Float.of_SF 52 11.
Definition of_scaled := Float.of_scaled 52 11.
Definition of_int := Float.of_int 52 11.
Definition add := Float.add 52 11.
Definition to_uint64 := Float.to_uint64 52 11.
Definition zero : float64 := 0.
End F64.

Module F32.
Definition to_SF := Float.to_SF 23 8.
Definition of_SF := Float.of_SF 23 8.
Definition of_scaled := Float.of_scaled 23 8.
Definition of_int := Float.of_int 23 8.
Definition to_uint32 := Float.to_uint32 23 8.
Definition zero : float32 := 0.
End F32.

(* ================================================================== *)
(** * strconv *)

Module strconv.
Inductive NumError := ErrSyntax | ErrRange.

(** [strconv.FormatInt(v, 10)]. *)
Definition FormatInt (v : Z) : bytes :=
  str (DecimalString.NilZero.string_of_int (Z.to_int v)).

Definition maxUint64 : Z := 2 ^ 64 - 1.

(** The digit loop of [strconv.ParseUint(s, 10, bitSize)]. *)
Fixpoint parseUint_loop (bitSize : Z) (n : Z) (s : bytes)
  : Z * option NumError :=
  match s with
  | [] => (n, None)
  | c :: r =>
      let d := Z_of_byte c - 48 in
      if (Z_of_byte c <? 48) || (57 <? Z_of_byte c) then (0, Some ErrSyntax)
      else
        let cutoff := maxUint64 / 10 + 1 in
        let maxVal := 2 ^ bitSize - 1 in
        if cutoff <=? n then (maxVal, Some ErrRange)
        else
          let n1 := n * 10 + d in
          if (maxUint64 <? n1) || (maxVal <? n1) then (maxVal, Some ErrRange)
          else parseUint_loop bitSize n1 r
  end.

Definition ParseUint (s : bytes) (bitSize : Z) : Z * option NumError :=
  match s with
  | [] => (0, Some ErrSyntax)
  | _ => parseUint_loop bitSize 0 s
  end.

(** [strconv.ParseInt(s, 10, bitSize)]. *)
Definition ParseInt (s : bytes) (bitSize : Z) : Z * option NumError :=
  match s with
  | [] => (0, Some ErrSyntax)
  | c :: r =>
      let neg := Byte.eqb c "-"%byte in
      let s' := if Byte.eqb c "+"%byte || neg then r else s in
      match ParseUint s' bitSize with
      | (_, Some ErrSyntax) => (0, Some ErrSyntax)
      | (un, _) =>
          let cutoff := 2 ^ (bitSize - 1) in
          if negb neg && (cutoff <=? un) then (cutoff - 1, Some ErrRange)
          else if neg && (cutoff <? un) then (- cutoff, Some ErrRange)
          else (if neg then - un else un, None)
      end
  end.
End strconv.

(* ================================================================== *)
(** * The record ([data.go]) *)

Record UserInfo := mkUser {
  ID : Z;                (* int64 *)
  Username : bytes;
  Email : bytes;
  FirstName : bytes;
  LastName : bytes;
  Age : Z;               (* int32 *)
  Height : float32;
  Weight : float32;
  Balance : float64;
  IsActive : bool;
  CreatedAt : Z;         (* int64 *)
  UpdatedAt : Z;         (* int64 *)
  LoginCount : Z;        (* int32 *)
  Score : float64;
  Description : bytes
}.

(** The zero value [UserInfo{}]. *)
Definition zeroUser : UserInfo :=
  mkUser 0 [] [] [] [] 0 F32.zero F32.zero F64.zero false 0 0 0 F64.zero [].

Definition set_ID (u : UserInfo) (v : Z) : UserInfo :=
  mkUser v (Username u) (Email u) (FirstName u) (LastName u) (Age u) (Height u)
    (Weight u) (Balance u) (IsActive u) (CreatedAt u) (UpdatedAt u)
    (LoginCount u) (Score u) (Description u).
Definition set_Username (u : UserInfo) (v : bytes) : UserInfo :=
  mkUser (ID u) v (Email u) (FirstName u) (LastName u) (Age u) (Height u)
    (Weight u) (Balance u) (IsActive u) (CreatedAt u) (UpdatedAt u)
    (LoginCount u) (Score u) (Description u).
Definition set_Email (u : UserInfo) (v : bytes) : UserInfo :=
  mkUser (ID u) (Username u) v (FirstName u) (LastName u) (Age u) (Height u)
    (Weight u) (Balance u) (IsActive u) (CreatedAt u) (UpdatedAt u)
    (LoginCount u) (Score u) (Description u).
Definition set_FirstName (u : UserInfo) (v : bytes) : UserInfo :=
  mkUser (ID u) (Username u) (Email u) v (LastName u) (Age u) (Height u)
    (Weight u) (Balance u) (IsActive u) (CreatedAt u) (UpdatedAt u)
    (LoginCount u) (Score u) (Description u).
Definition set_LastName (u : UserInfo) (v : bytes) : UserInfo :=
  mkUser (ID u) (Username u) (Email u) (FirstName u) v (Age u) (Height u)
    (Weight u) (Balance u) (IsActive u) (CreatedAt u) (UpdatedAt u)
    (LoginCount u) (Score u) (Description u).
Definition set_Age (u : UserInfo) (v : Z) : UserInfo :=
  mkUser (ID u) (Username u) (Email u) (FirstName u) (LastName u) v (Height u)
    (Weight u) (Balance u) (IsActive u) (CreatedAt u) (UpdatedAt u)
    (LoginCount u) (Score u) (Description u).
Definition set_Height (u : UserInfo) (v : float32) : UserInfo :=
  mkUser (ID u) (Username u) (Email u) (FirstName u) (LastName u) (Age u) v
    (Weight u) (Balance u) (IsActive u) (CreatedAt u) (UpdatedAt u)
    (LoginCount u) (Score u) (Description u).
Definition set_Weight (u : UserInfo) (v : float32) : UserInfo :=
  mkUser (ID u) (Username u) (Email u) (FirstName u) (LastName u) (Age u)
    (Height u) v (Balance u) (IsActive u) (CreatedAt u) (UpdatedAt u)
    (LoginCount u) (Score u) (Description u).
Definition set_Balance (u : UserInfo) (v : float64) : UserInfo :=
  mkUser (ID u) (Username u) (Email u) (FirstName u) (LastName u) (Age u)
    (Height u) (Weight u) v (IsActive u) (CreatedAt u) (UpdatedAt u)
    (LoginCount u) (Score u) (Description u).
Definition set_IsActive (u : UserInfo) (v : bool) : UserInfo :=
  mkUser (ID u) (Username u) (Email u) (FirstName u) (LastName u) (Age u)
    (Height u) (Weight u) (Balance u) v (CreatedAt u) (UpdatedAt u)
    (LoginCount u) (Score u) (Description u).
Definition set_CreatedAt (u : UserInfo) (v : Z) : UserInfo :=
  mkUser (ID u) (Username u) (Email u) (FirstName u) (LastName u) (Age u)
    (Height u) (Weight u) (Balance u) (IsActive u) v (UpdatedAt u)
    (LoginCount u) (Score u) (Description u).
Definition set_UpdatedAt (u : UserInfo) (v : Z) : UserInfo :=
  mkUser (ID u) (Username u) (Email u) (FirstName u) (LastName u) (Age u)
    (Height u) (Weight u) (Balance u) (IsActive u) (CreatedAt u) v
    (LoginCount u) (Score u) (Description u).
Definition set_LoginCount (u : UserInfo) (v : Z) : UserInfo :=
  mkUser (ID u) (Username u) (Email u) (FirstName u) (LastName u) (Age u)
    (Height u) (Weight u) (Balance u) (IsActive u) (CreatedAt u) (UpdatedAt u)
    v (Score u) (Description u).
Definition set_Score (u : UserInfo) (v : float64) : UserInfo :=
  mkUser (ID u) (Username u) (Email u) (FirstName u) (LastName u) (Age u)
    (Height u) (Weight u) (Balance u) (IsActive u) (CreatedAt u) (UpdatedAt u)
    (LoginCount u) v (Description u).
Definition set_Description (u : UserInfo) (v : bytes) : UserInfo :=
  mkUser (ID u) (Username u) (Email u) (FirstName u) (LastName u) (Age u)
    (Height u) (Weight u) (Balance u) (IsActive u) (CreatedAt u) (UpdatedAt u)
    (LoginCount u) (Score u) v.

(** The values a record of the program can hold: integers within their
    width, float bit patterns within theirs. *)
Definition in_int (w : Z) (z : Z) : Prop := - 2 ^ (w - 1) <= z < 2 ^ (w - 1).
Definition in_uint (w : Z) (z : Z) : Prop := 0 <= z < 2 ^ w.

Record wf_user (u : UserInfo) : Prop := {
  wf_ID : in_int 64 (ID u);
  wf_Age : in_int 32 (Age u);
  wf_Height : in_uint 32 (Height u);
  wf_Weight : in_uint 32 (Weight u);
  wf_Balance : in_uint 64 (Balance u);
  wf_CreatedAt : in_int 64 (CreatedAt u);
  wf_UpdatedAt : in_int 64 (UpdatedAt u);
  wf_LoginCount : in_int 32 (LoginCount u);
  wf_Score : in_uint 64 (Score u)
}.

(** A value of type [interface{}], as [UpdateField] receives it. *)
Inductive any :=
| VNil
| VInt (v : Z)          (* int, the type of an untyped integer constant *)
| VInt32 (v : Z)
| VInt64 (v : Z)
| VFloat32 (v : float32)
| VFloat64 (v : float64)
| VBool (v : bool)
| VString (v : bytes).

(* ================================================================== *)
(** * Errors, panics and results *)

(** Errors of [bbolt.Bucket.Put] and [CreateBucketIfNotExists]. *)
Inductive bolt_error :=
| ErrKeyRequired | ErrKeyTooLarge | ErrValueTooLarge
| ErrIncompatibleValue | ErrBucketNameRequired.

(** A failed read of [binary.Read], [Reader.Read] or [Reader.ReadByte]. *)
Inductive io_error := EOF | ErrUnexpectedEOF.

(** What the decoder of the tagged format was reading when it failed. *)
Inductive decode_step :=
| ReadFieldCount | ReadNameLength | ReadName | ReadTag
| ReadInt64 | ReadStrLen | ReadStr | ReadInt32 | ReadFloat32 | ReadFloat64
| ReadBool.

(** The error values the strategies build with [fmt.Errorf], by message. *)
Inductive error :=
| UserNotFound                                  (* "user not found" *)
| BucketNotFound                                (* "bucket ... not found" *)
| ReadFailed (s : decode_step) (field : bytes) (e : io_error)
| UnexpectedType (tag : Z) (field : bytes)      (* "unexpected int64 for f" *)
| UnknownTag (tag : Z) (field : bytes)          (* "unknown tag t for field f" *)
| MustBe (field : bytes) (tag : Z) (got : any)  (* "f must be T, got %T" *)
| NotUpdatable (field : bytes)                  (* "field f is not updatable" *)
| CannotSum (field : bytes)                     (* "cannot sum field f" *)
| CodecError                                    (* an error of a library codec *)
| StoreError (e : bolt_error).

(** The error kinds of the specification. *)
Inductive error_kind :=
| NotFound | DecodeError | TypeMismatch | UnsupportedField | StoreFailure.

Definition kind (e : error) : error_kind :=
  match e with
  | UserNotFound => NotFound
  | BucketNotFound => StoreFailure
  | ReadFailed _ _ _ | UnexpectedType _ _ | UnknownTag _ _ | CodecError =>
      DecodeError
  | MustBe _ _ _ => TypeMismatch
  | NotUpdatable _ | CannotSum _ => UnsupportedField
  | StoreError _ => StoreFailure
  end.

(** Run-time panics. *)
Inductive panic :=
| NilDereference          (* invalid memory address or nil pointer dereference *)
| InterfaceConversion     (* failed single-value type assertion *)
| MakeSliceLen            (* makeslice: len out of range *)
| IndexOutOfRange.

(** A computation that continues with a value, returns early with an error,
    or panics. *)
Inductive res (A : Type) :=
| Ok (a : A)
| Fail (e : error)
| Panic (p : panic).
Arguments Ok {A} a.
Arguments Fail {A} e.
Arguments Panic {A} p.

Definition bind {A B} (m : res A) (k : A -> res B) : res B :=
  match m with
  | Ok a => k a
  | Fail e => Fail e
  | Panic p => Panic p
  end.

Notation "x <- m ;; k" := (bind m (fun x => k))
  (at level 61, m at next level, right associativity).
Notation "' p <- m ;; k" := (bind m (fun x => let 'p := x in k))
  (at level 61, p pattern, m at next level, right associativity).

(** A type assertion [value.(T)] in its single-value form panics when the
    dynamic type differs; the two-value form reports it. *)
Definition as_float64 (v : any) : option float64 :=
  match v with VFloat64 f => Some f | _ => None end.
Definition as_float32 (v : any) : option float32 :=
  match v with VFloat32 f => Some f | _ => None end.
Definition as_int32 (v : any) : option Z :=
  match v with VInt32 n => Some n | _ => None end.
Definition as_int64 (v : any) : option Z :=
  match v with VInt64 n => Some n | _ => None end.
Definition as_bool (v : any) : option bool :=
  match v with VBool b => Some b | _ => None end.
Definition as_string (v : any) : option bytes :=
  match v with VString s => Some s | _ => None end.

Definition assert_type {A} (o : option A) : res A :=
  match o with Some a => Ok a | None => Panic InterfaceConversion end.

(* ================================================================== *)
(** * The store: ordered buckets and transactions (bbolt) *)

Module bbolt.
#[local] Set Warnings "-register-all".

(** A bucket maps keys to values or to nested buckets; its entries are
    kept in ascending key order. *)
Inductive node :=
| Leaf (v : bytes)
| Sub (b : list (bytes * node)).

Definition Bucket := list (bytes * node).
Definition DB := Bucket.

Definition MaxKeySize : Z := 32768.
Definition MaxValueSize : Z := 2 ^ 31 - 2.

(** Position of a cursor after [Seek(k)]: the entries with key [>= k]. *)
Fixpoint Seek (b : Bucket) (k : bytes) : Bucket :=
  match b with
  | [] => []
  | (k', n) :: r => if bytes_ltb k' k then Seek r k else b
  end.

(** Position after [First()]. *)
Definition First (b : Bucket) : Bucket := b.

(** The value a cursor hands out: nil for a nested bucket. *)
Definition cursor_value (n : node) : bytes :=
  match n with Leaf v => v | Sub _ => [] end.

Fixpoint lookup (b : Bucket) (k : bytes) : option node :=
  match b with
  | [] => None
  | (k', n) :: r => if bytes_eqb k' k then Some n else lookup r k
  end.

(** Insertion at the cursor position, replacing an equal key. *)
Fixpoint insert (b : Bucket) (k : bytes) (n : node) : Bucket :=
  match b with
  | [] => [(k, n)]
  | (k', n') :: r =>
      match compare_bytes k' k with
      | Lt => (k', n') :: insert r k n
      | Eq => (k, n) :: r
      | Gt => (k, n) :: b
      end
  end.

(** [Bucket.Get]: nil when the key is absent or names a nested bucket. *)
Definition Get (b : Bucket) (k : bytes) : option bytes :=
  match lookup b k with
  | Some (Leaf v) => Some v
  | _ => None
  end.

(** [Bucket.Bucket] and [Tx.Bucket]: nil when absent or not a bucket. *)
Definition GetBucket (b : Bucket) (name : bytes) : option Bucket :=
  match lookup b name with
  | Some (Sub s) => Some s
  | _ => None
  end.

(** [Bucket.Put] inside a write transaction. *)
Definition Put (b : Bucket) (k v : bytes) : res Bucket :=
  if len k =? 0 then Fail (StoreError ErrKeyRequired)
  else if MaxKeySize <? len k then Fail (StoreError ErrKeyTooLarge)
  else if MaxValueSize <? len v then Fail (StoreError ErrValueTooLarge)
  else match lookup b k with
       | Some (Sub _) => Fail (StoreError ErrIncompatibleValue)
       | _ => Ok (insert b k (Leaf v))
       end.

(** [CreateBucketIfNotExists]: the bucket after the call and its
    contents. *)
Definition CreateBucketIfNotExists (b : Bucket) (name : bytes)
  : res (Bucket * Bucket) :=
  if len name =? 0 then Fail (StoreError ErrBucketNameRequired)
  else match lookup b name with
       | Some (Sub s) => Ok (b, s)
       | Some (Leaf _) => Fail (StoreError ErrIncompatibleValue)
       | None => Ok (insert b name (Sub []), [])
       end.

(** A nested bucket is changed in place: the entry that holds it gets the
    new contents. *)
Fixpoint SetBucket (b : Bucket) (name : bytes) (s : Bucket) : Bucket :=
  match b with
  | [] => []
  | (k, n) :: r =>
      if bytes_eqb k name then (k, Sub s) :: r
      else (k, n) :: SetBucket r name s
  end.

(** The result of a Go call that has finished or panicked. *)
Inductive go (A : Type) :=
| Return (a : A)
| Crash (p : panic).
Arguments Return {A} a.
Arguments Crash {A} p.

(** [db.Update(fn)]: [fn] runs on the transaction's view of the store; an
    error or a panic rolls the transaction back, otherwise it commits. *)
Definition Update (db : DB) (fn : DB -> res DB) : DB * go (option error) :=
  match fn db with
  | Ok db' => (db', Return None)
  | Fail e => (db, Return (Some e))
  | Panic p => (db, Crash p)
  end.

(** [db.View(fn)]: [fn] reads the store and leaves, next to its error, the
    variables it assigned in the enclosing function. *)
Definition View {A} (db : DB) (fn : DB -> go (A * option error))
  : go (A * option error) := fn db.

(** A bucket handle that may be nil: using it then panics. *)
Definition deref {A} (o : option A) : res A :=
  match o with Some a => Ok a | None => Panic NilDereference end.
End bbolt.
Import bbolt.

(* ================================================================== *)
(** * Reading from a [bytes.Reader] *)

Module Reader.
(** The unread part of the input is the state. *)
Definition Rd (A : Type) := bytes -> res (A * bytes).

Definition ret {A} (a : A) : Rd A := fun s => Ok (a, s).
Definition bindR {A B} (m : Rd A) (k : A -> Rd B) : Rd B :=
  fun s => match m s with
           | Ok (a, s') => k a s'
           | Fail e => Fail e
           | Panic p => Panic p
           end.
Definition lift {A} (m : res A) : Rd A :=
  fun s => match m with
           | Ok a => Ok (a, s)
           | Fail e => Fail e
           | Panic p => Panic p
           end.
Definition run {A} (m : Rd A) (data : bytes) : res A :=
  match m data with
  | Ok (a, _) => Ok a
  | Fail e => Fail e
  | Panic p => Panic p
  end.

(** [io.ReadFull] for [n] bytes, the core of [binary.Read] on a fixed-size
    value: a short input is consumed and reported, and the destination is
    left as it was. *)
Definition ReadFull (n : nat) : Rd (io_error + bytes) :=
  fun s =>
    if (n <=? List.length s)%nat then Ok (inr (firstn n s), skipn n s)
    else Ok (inl (match s with [] => EOF | _ => ErrUnexpectedEOF end), []).

(** [binary.Read(buf, binary.LittleEndian, &x)] for an [n]-byte integer:
    the unsigned value read, or the error. *)
Definition binary_Read (n : nat) : Rd (io_error + Z) :=
  bindR (ReadFull n) (fun r =>
    ret (match r with inl e => inl e | inr bs => inr (le_get bs) end)).

(** [make([]byte, n)]. *)
Definition make (n : Z) : res bytes :=
  if n <? 0 then Panic MakeSliceLen else Ok (repeat x00 (Z.to_nat n)).

(** [buf.Read(p)] on a [bytes.Reader]: at the end of the input it fails
    with EOF, even for an empty [p]; otherwise it copies what is there
    and succeeds, leaving the rest of [p] untouched. *)
Definition Read (p : bytes) : Rd (bytes * option io_error) :=
  fun s =>
    match s with
    | [] => Ok ((p, Some EOF), [])
    | _ =>
        let n := Nat.min (List.length p) (List.length s) in
        Ok ((firstn n s ++ skipn n p, None), skipn n s)
    end.

(** [buf.ReadByte()]. *)
Definition ReadByte : Rd (io_error + byte) :=
  fun s =>
    match s with
    | [] => Ok (inl EOF, [])
    | b :: r => Ok (inr b, r)
    end.
End Reader.

Notation "x <~ m ;; k" := (Reader.bindR m (fun x => k))
  (at level 61, m at next level, right associativity).
Notation "' p <~ m ;; k" := (Reader.bindR m (fun x => let 'p := x in k))
  (at level 61, p pattern, m at next level, right associativity).

(** Assignment through a pointer by [binary.Read]: on a failed read the old
    value stays. *)
Definition assigned {A} (old : A) (r : io_error + Z) (conv : Z -> A) : A :=
  match r with inr v => conv v | inl _ => old end.

(** [binary.Write] of a bool and the reading of one. *)
Definition bool_byte (b : bool) : bytes := [if b then x01 else x00].
Definition byte_bool (v : Z) : bool := negb (v =? 0).

(** The key of a record: [binary.BigEndian.PutUint64(key, uint64(id))]. *)
Definition idKey (id : Z) : bytes := be_put 8 (uint64 id).

(* ================================================================== *)
(** * 3. Binary encoding strategy ([binary.go]) *)

Module BinaryStrategy.
Import Reader.

Definition bucketName : bytes := str "users_binary".

Definition Setup (db : DB) : DB * go (option error) :=
  Update db (fun tx =>
    '(tx', _) <- CreateBucketIfNotExists tx bucketName ;;
    Ok tx').

(** A string field: its length as an int32, then its bytes. *)
Definition writeString (s : bytes) : bytes :=
  le_put 4 (int32 (len s)) ++ s.

Definition encodeBinary (user : UserInfo) : bytes :=
  le_put 8 (ID user)
  ++ writeString (Username user)
  ++ writeString (Email user)
  ++ writeString (FirstName user)
  ++ writeString (LastName user)
  ++ writeString (Description user)
  ++ le_put 4 (Age user)
  ++ le_put 4 (Height user)
  ++ le_put 4 (Weight user)
  ++ le_put 8 (Balance user)
  ++ bool_byte (IsActive user)
  ++ le_put 8 (CreatedAt user)
  ++ le_put 8 (UpdatedAt user)
  ++ le_put 4 (LoginCount user)
  ++ le_put 8 (Score user).

(** One string field of [decodeBinary]: the length goes into the shared
    variable [strLen], a slice of that length is made and filled.  No
    error is looked at. *)
Definition readString (strLen : Z) : Rd (bytes * Z) :=
  r <~ binary_Read 4 ;;
  let strLen := assigned strLen r int32 in
  buf <~ lift (make strLen) ;;
  '(filled, _) <~ Read buf ;;
  ret (filled, strLen).

Definition decodeBinary_body : Rd UserInfo :=
  let user := zeroUser in
  r <~ binary_Read 8 ;;
  let user := set_ID user (assigned (ID user) r int64) in
  let strLen := 0 in
  '(s, strLen) <~ readString strLen ;;
  let user := set_Username user s in
  '(s, strLen) <~ readString strLen ;;
  let user := set_Email user s in
  '(s, strLen) <~ readString strLen ;;
  let user := set_FirstName user s in
  '(s, strLen) <~ readString strLen ;;
  let user := set_LastName user s in
  '(s, strLen) <~ readString strLen ;;
  let user := set_Description user s in
  r <~ binary_Read 4 ;;
  let user := set_Age user (assigned (Age user) r int32) in
  r <~ binary_Read 4 ;;
  let user := set_Height user (assigned (Height user) r id) in
  r <~ binary_Read 4 ;;
  let user := set_Weight user (assigned (Weight user) r id) in
  r <~ binary_Read 8 ;;
  let user := set_Balance user (assigned (Balance user) r id) in
  r <~ binary_Read 1 ;;
  let user := set_IsActive user (assigned (IsActive user) r byte_bool) in
  r <~ binary_Read 8 ;;
  let user := set_CreatedAt user (assigned (CreatedAt user) r int64) in
  r <~ binary_Read 8 ;;
  let user := set_UpdatedAt user (assigned (UpdatedAt user) r int64) in
  r <~ binary_Read 4 ;;
  let user := set_LoginCount user (assigned (LoginCount user) r int32) in
  r <~ binary_Read 8 ;;
  let user := set_Score user (assigned (Score user) r id) in
  ret user.

(** [decodeBinary] always returns a record and a nil error, unless making
    a slice panics. *)
Definition decodeBinary (data : bytes) : res UserInfo :=
  run decodeBinary_body data.

Definition Write (db : DB) (user : UserInfo) : DB * go (option error) :=
  Update db (fun tx =>
    let b := GetBucket tx bucketName in
    let data := encodeBinary user in
    let key := idKey (ID user) in
    b <- deref b ;;
    b <- Put b key data ;;
    Ok (SetBucket tx bucketName b)).

Fixpoint writeMany_loop (b : Bucket) (users : list UserInfo) : res Bucket :=
  match users with
  | [] => Ok b
  | user :: rest =>
      let data := encodeBinary user in
      let key := idKey (ID user) in
      b <- Put b key data ;;
      writeMany_loop b rest
  end.

Definition WriteMany (db : DB) (users : list UserInfo)
  : DB * go (option error) :=
  Update db (fun tx =>
    match GetBucket tx bucketName, users with
    | None, [] => Ok tx
    | b, _ =>
        b <- deref b ;;
        b <- writeMany_loop b users ;;
        Ok (SetBucket tx bucketName b)
    end).

Definition Read (db : DB) (id : Z) : go (option UserInfo * option error) :=
  View db (fun tx =>
    let b := GetBucket tx bucketName in
    let key := idKey id in
    match b with
    | None => Crash NilDereference
    | Some b =>
        match Get b key with
        | None => Return (None, Some UserNotFound)
        | Some data =>
            match decodeBinary data with
            | Ok user => Return (Some user, None)
            | Fail e => Return (None, Some e)
            | Panic p => Crash p
            end
        end
    end).

(** The cursor loop of [ReadMany]; [users] is the slice built so far. *)
Fixpoint readMany_loop (c : Bucket) (count retrieved : Z)
    (users : list UserInfo) : go (list UserInfo * option error) :=
  match c with
  | [] => Return (users, None)
  | (k, v) :: next =>
      if retrieved <? count then
        match decodeBinary (cursor_value v) with
        | Ok user => readMany_loop next count (retrieved + 1) (users ++ [user])
        | Fail e => Return (users, Some e)
        | Panic p => Crash p
        end
      else Return (users, None)
  end.

Definition ReadMany (db : DB) (startId : Z) (count : Z)
  : go (list UserInfo * option error) :=
  View db (fun tx =>
    match GetBucket tx bucketName with
    | None => Crash NilDereference
    | Some b => readMany_loop (Seek b (idKey startId)) count 0 []
    end).

Definition UpdateField (db : DB) (id : Z) (fieldName : bytes) (value : any)
  : DB * go (option error) :=
  Update db (fun tx =>
    b <- deref (GetBucket tx bucketName) ;;
    let key := idKey id in
    match Get b key with
    | None => Fail UserNotFound
    | Some data =>
        user <- decodeBinary data ;;
        user <-
          (if bytes_eqb fieldName (str "balance") then
             v <- assert_type (as_float64 value) ;; Ok (set_Balance user v)
           else if bytes_eqb fieldName (str "login_count") then
             v <- assert_type (as_int32 value) ;; Ok (set_LoginCount user v)
           else if bytes_eqb fieldName (str "score") then
             v <- assert_type (as_float64 value) ;; Ok (set_Score user v)
           else Ok user) ;;
        let newData := encodeBinary user in
        b <- Put b key newData ;;
        Ok (SetBucket tx bucketName b)
    end).

(** The cursor loop of [ReadFieldSum]. *)
Fixpoint readFieldSum_loop (c : Bucket) (fieldName : bytes)
    (count processed : Z) (sum : float64) : go (float64 * option error) :=
  match c with
  | [] => Return (sum, None)
  | (k, v) :: next =>
      if processed <? count then
        match decodeBinary (cursor_value v) with
        | Ok user =>
            let sum :=
              if bytes_eqb fieldName (str "balance") then
                F64.add sum (Balance user)
              else if bytes_eqb fieldName (str "score") then
                F64.add sum (Score user)
              else if bytes_eqb fieldName (str "login_count") then
                F64.add sum (F64.of_int (LoginCount user))
              else sum in
            readFieldSum_loop next fieldName count (processed + 1) sum
        | Fail e => Return (sum, Some e)
        | Panic p => Crash p
        end
      else Return (sum, None)
  end.

Definition ReadFieldSum (db : DB) (fieldName : bytes) (count : Z)
  : go (float64 * option error) :=
  View db (fun tx =>
    match GetBucket tx bucketName with
    | None => Crash NilDereference
    | Some b => readFieldSum_loop (First b) fieldName count 0 F64.zero
    end).
End BinaryStrategy.

(* ================================================================== *)
(** * 4. Binary with field names strategy ([binary_with_names.go]) *)

Module BinaryWithNamesStrategy.
Import Reader.

Definition bucketName : bytes := str "users_binary_names".

Definition Setup (db : DB) : DB * go (option error) :=
  Update db (fun tx =>
    '(tx', _) <- CreateBucketIfNotExists tx bucketName ;;
    Ok tx').

(** Type-marker constants. *)
Definition tagInt64 : Z := 1.
Definition tagString : Z := 2.
Definition tagInt32 : Z := 3.
Definition tagFloat32 : Z := 4.
Definition tagFloat64 : Z := 5.
Definition tagBool : Z := 6.

(** The table of fields collected by the encoder. *)
Definition fields (user : UserInfo) : list (bytes * Z * any) :=
  [ (str "id", tagInt64, VInt64 (ID user));
    (str "username", tagString, VString (Username user));
    (str "email", tagString, VString (Email user));
    (str "first_name", tagString, VString (FirstName user));
    (str "last_name", tagString, VString (LastName user));
    (str "age", tagInt32, VInt32 (Age user));
    (str "height", tagFloat32, VFloat32 (Height user));
    (str "weight", tagFloat32, VFloat32 (Weight user));
    (str "balance", tagFloat64, VFloat64 (Balance user));
    (str "is_active", tagBool, VBool (IsActive user));
    (str "created_at", tagInt64, VInt64 (CreatedAt user));
    (str "updated_at", tagInt64, VInt64 (UpdatedAt user));
    (str "login_count", tagInt32, VInt32 (LoginCount user));
    (str "score", tagFloat64, VFloat64 (Score user));
    (str "description", tagString, VString (Description user)) ].

(** The payload of one field, by tag.  Writes into a [bytes.Buffer] do
    not fail. *)
Definition encodePayload (name : bytes) (tag : Z) (data : any) : res bytes :=
  if tag =? tagInt64 then
    v <- assert_type (as_int64 data) ;; Ok (le_put 8 v)
  else if tag =? tagString then
    v <- assert_type (as_string data) ;; Ok (le_put 4 (int32 (len v)) ++ v)
  else if tag =? tagInt32 then
    v <- assert_type (as_int32 data) ;; Ok (le_put 4 v)
  else if tag =? tagFloat32 then
    v <- assert_type (as_float32 data) ;; Ok (le_put 4 v)
  else if tag =? tagFloat64 then
    v <- assert_type (as_float64 data) ;; Ok (le_put 8 v)
  else if tag =? tagBool then
    v <- assert_type (as_bool data) ;; Ok (bool_byte v)
  else Fail (UnknownTag tag name).

Fixpoint encodeFields (fs : list (bytes * Z * any)) (buf : bytes)
  : res bytes :=
  match fs with
  | [] => Ok buf
  | (name, tag, data) :: rest =>
      let buf := buf ++ le_put 4 (int32 (len name)) ++ name in
      let buf := buf ++ [byte_of_Z tag] in
      payload <- encodePayload name tag data ;;
      encodeFields rest (buf ++ payload)
  end.

Definition encodeBinaryWithNames (user : UserInfo) : res bytes :=
  let fs := fields user in
  encodeFields fs (le_put 4 (int32 (Z.of_nat (List.length fs)))).

Definition named (name : bytes) (s : string) : bool := bytes_eqb name (str s).

(** A read whose error ends the decoding. *)
Definition checked {A} (step : decode_step) (field : bytes)
    (m : Rd (io_error + A)) : Rd A :=
  r <~ m ;;
  match r with
  | inr v => ret v
  | inl e => lift (Fail (ReadFailed step field e))
  end.

(** A length-prefixed run of bytes: [make] then [buf.Read]. *)
Definition readBytes (step : decode_step) (field : bytes) (n : Z)
  : Rd bytes :=
  p <~ lift (make n) ;;
  '(filled, err) <~ Read p ;;
  match err with
  | Some e => lift (Fail (ReadFailed step field e))
  | None => ret filled
  end.

(** One turn of the decoding loop. *)
Definition decodeField (user : UserInfo) : Rd UserInfo :=
  nameLen <~ checked ReadNameLength [] (binary_Read 4) ;;
  fieldName <~ readBytes ReadName [] (int32 nameLen) ;;
  tag <~ checked ReadTag fieldName ReadByte ;;
  let tag := Z_of_byte tag in
  if tag =? tagInt64 then
    v <~ checked ReadInt64 fieldName (binary_Read 8) ;;
    let v := int64 v in
    if named fieldName "id" then ret (set_ID user v)
    else if named fieldName "created_at" then ret (set_CreatedAt user v)
    else if named fieldName "updated_at" then ret (set_UpdatedAt user v)
    else lift (Fail (UnexpectedType tagInt64 fieldName))
  else if tag =? tagString then
    strLen <~ checked ReadStrLen fieldName (binary_Read 4) ;;
    strBytes <~ readBytes ReadStr fieldName (int32 strLen) ;;
    if named fieldName "username" then ret (set_Username user strBytes)
    else if named fieldName "email" then ret (set_Email user strBytes)
    else if named fieldName "first_name" then ret (set_FirstName user strBytes)
    else if named fieldName "last_name" then ret (set_LastName user strBytes)
    else if named fieldName "description" then
      ret (set_Description user strBytes)
    else lift (Fail (UnexpectedType tagString fieldName))
  else if tag =? tagInt32 then
    v <~ checked ReadInt32 fieldName (binary_Read 4) ;;
    let v := int32 v in
    if named fieldName "age" then ret (set_Age user v)
    else if named fieldName "login_count" then ret (set_LoginCount user v)
    else lift (Fail (UnexpectedType tagInt32 fieldName))
  else if tag =? tagFloat32 then
    v <~ checked ReadFloat32 fieldName (binary_Read 4) ;;
    if named fieldName "height" then ret (set_Height user v)
    else if named fieldName "weight" then ret (set_Weight user v)
    else lift (Fail (UnexpectedType tagFloat32 fieldName))
  else if tag =? tagFloat64 then
    v <~ checked ReadFloat64 fieldName (binary_Read 8) ;;
    if named fieldName "balance" then ret (set_Balance user v)
    else if named fieldName "score" then ret (set_Score user v)
    else lift (Fail (UnexpectedType tagFloat64 fieldName))
  else if tag =? tagBool then
    v <~ checked ReadBool fieldName (binary_Read 1) ;;
    if negb (named fieldName "is_active") then
      lift (Fail (UnexpectedType tagBool fieldName))
    else ret (set_IsActive user (byte_bool v))
  else lift (Fail (UnknownTag tag fieldName)).

(** [for i := int32(0); i < fieldCount; i++]: [n] turns are left. *)
Fixpoint decodeLoop (n : nat) (user : UserInfo) : Rd UserInfo :=
  match n with
  | O => ret user
  | S n' => user <~ decodeField user ;; decodeLoop n' user
  end.

Definition decodeBinaryWithNames (data : bytes) : res UserInfo :=
  run (fieldCount <~ checked ReadFieldCount [] (binary_Read 4) ;;
       decodeLoop (Z.to_nat (int32 fieldCount)) zeroUser) data.

Definition Write (db : DB) (user : UserInfo) : DB * go (option error) :=
  Update db (fun tx =>
    match GetBucket tx bucketName with
    | None => Fail BucketNotFound
    | Some b =>
        data <- encodeBinaryWithNames user ;;
        let key := idKey (ID user) in
        b <- Put b key data ;;
        Ok (SetBucket tx bucketName b)
    end).

Fixpoint writeMany_loop (b : option Bucket) (users : list UserInfo)
  : res (option Bucket) :=
  match users with
  | [] => Ok b
  | user :: rest =>
      data <- encodeBinaryWithNames user ;;
      let key := idKey (ID user) in
      b <- deref b ;;
      b <- Put b key data ;;
      writeMany_loop (Some b) rest
  end.

Definition WriteMany (db : DB) (users : list UserInfo)
  : DB * go (option error) :=
  Update db (fun tx =>
    b <- writeMany_loop (GetBucket tx bucketName) users ;;
    match b with
    | Some b => Ok (SetBucket tx bucketName b)
    | None => Ok tx
    end).

Definition Read (db : DB) (id : Z) : go (option UserInfo * option error) :=
  View db (fun tx =>
    match GetBucket tx bucketName with
    | None => Return (None, Some BucketNotFound)
    | Some b =>
        let key := idKey id in
        match Get b key with
        | None => Return (None, Some UserNotFound)
        | Some data =>
            match decodeBinaryWithNames data with
            | Ok user => Return (Some user, None)
            | Fail e => Return (None, Some e)
            | Panic p => Crash p
            end
        end
    end).

Fixpoint readMany_loop (c : Bucket) (count retrieved : Z)
    (users : list UserInfo) : go (list UserInfo * option error) :=
  match c with
  | [] => Return (users, None)
  | (k, v) :: next =>
      if retrieved <? count then
        match decodeBinaryWithNames (cursor_value v) with
        | Ok user => readMany_loop next count (retrieved + 1) (users ++ [user])
        | Fail e => Return (users, Some e)
        | Panic p => Crash p
        end
      else Return (users, None)
  end.

Definition ReadMany (db : DB) (startId : Z) (count : Z)
  : go (list UserInfo * option error) :=
  View db (fun tx =>
    match GetBucket tx bucketName with
    | None => Crash NilDereference
    | Some b => readMany_loop (Seek b (idKey startId)) count 0 []
    end).

(** The two-value type assertion of [UpdateField]: a mismatch is the
    error "f must be T". *)
Definition typed {A} (field : string) (tag : Z) (value : any)
    (o : option A) : res A :=
  match o with
  | Some v => Ok v
  | None => Fail (MustBe (str field) tag value)
  end.

(** Assignment based on [fieldName], with full type-checking. *)
Definition assignField (user : UserInfo) (fieldName : bytes) (value : any)
  : res UserInfo :=
  if named fieldName "username" then
    v <- typed "username" tagString value (as_string value) ;;
    Ok (set_Username user v)
  else if named fieldName "email" then
    v <- typed "email" tagString value (as_string value) ;;
    Ok (set_Email user v)
  else if named fieldName "first_name" then
    v <- typed "first_name" tagString value (as_string value) ;;
    Ok (set_FirstName user v)
  else if named fieldName "last_name" then
    v <- typed "last_name" tagString value (as_string value) ;;
    Ok (set_LastName user v)
  else if named fieldName "description" then
    v <- typed "description" tagString value (as_string value) ;;
    Ok (set_Description user v)
  else if named fieldName "age" then
    v <- typed "age" tagInt32 value (as_int32 value) ;;
    Ok (set_Age user v)
  else if named fieldName "height" then
    v <- typed "height" tagFloat32 value (as_float32 value) ;;
    Ok (set_Height user v)
  else if named fieldName "weight" then
    v <- typed "weight" tagFloat32 value (as_float32 value) ;;
    Ok (set_Weight user v)
  else if named fieldName "login_count" then
    v <- typed "login_count" tagInt32 value (as_int32 value) ;;
    Ok (set_LoginCount user v)
  else if named fieldName "balance" then
    v <- typed "balance" tagFloat64 value (as_float64 value) ;;
    Ok (set_Balance user v)
  else if named fieldName "score" then
    v <- typed "score" tagFloat64 value (as_float64 value) ;;
    Ok (set_Score user v)
  else if named fieldName "is_active" then
    v <- typed "is_active" tagBool value (as_bool value) ;;
    Ok (set_IsActive user v)
  else if named fieldName "created_at" then
    v <- typed "created_at" tagInt64 value (as_int64 value) ;;
    Ok (set_CreatedAt user v)
  else if named fieldName "updated_at" then
    v <- typed "updated_at" tagInt64 value (as_int64 value) ;;
    Ok (set_UpdatedAt user v)
  else Fail (NotUpdatable fieldName).

Definition UpdateField (db : DB) (id : Z) (fieldName : bytes) (value : any)
  : DB * go (option error) :=
  Update db (fun tx =>
    match GetBucket tx bucketName with
    | None => Fail BucketNotFound
    | Some b =>
        let key := idKey id in
        match Get b key with
        | None => Fail UserNotFound
        | Some data =>
            user <- decodeBinaryWithNames data ;;
            user <- assignField user fieldName value ;;
            newData <- encodeBinaryWithNames user ;;
            b <- Put b key newData ;;
            Ok (SetBucket tx bucketName b)
        end
    end).

Fixpoint readFieldSum_loop (c : Bucket) (fieldName : bytes)
    (count processed : Z) (sum : float64) : go (float64 * option error) :=
  match c with
  | [] => Return (sum, None)
  | (k, v) :: next =>
      if processed <? count then
        match decodeBinaryWithNames (cursor_value v) with
        | Ok user =>
            if named fieldName "balance" then
              readFieldSum_loop next fieldName count (processed + 1)
                (F64.add sum (Balance user))
            else if named fieldName "score" then
              readFieldSum_loop next fieldName count (processed + 1)
                (F64.add sum (Score user))
            else if named fieldName "login_count" then
              readFieldSum_loop next fieldName count (processed + 1)
                (F64.add sum (F64.of_int (LoginCount user)))
            else Return (sum, Some (CannotSum fieldName))
        | Fail e => Return (sum, Some e)
        | Panic p => Crash p
        end
      else Return (sum, None)
  end.

Definition ReadFieldSum (db : DB) (fieldName : bytes) (count : Z)
  : go (float64 * option error) :=
  View db (fun tx =>
    match GetBucket tx bucketName with
    | None => Return (F64.zero, Some BucketNotFound)
    | Some b => readFieldSum_loop (First b) fieldName count 0 F64.zero
    end).
End BinaryWithNamesStrategy.

(* ================================================================== *)
(** * 5. Multiple KV pairs strategy ([multi_kv.go]) *)

Module MultiKVStrategy.
Definition bucketName : bytes := str "users_multikv".

Definition Setup (db : DB) : DB * go (option error) :=
  Update db (fun tx =>
    '(tx', _) <- CreateBucketIfNotExists tx bucketName ;;
    Ok tx').

Definition makeKey (id : Z) (field : string) : bytes :=
  be_put 8 (uint64 id) ++ str field.

(** [binary.LittleEndian.Uint32] and [Uint64] index the slice first. *)
Definition Uint (n : nat) (data : bytes) : res Z :=
  if (List.length data <? n)%nat then Panic IndexOutOfRange
  else Ok (le_get (firstn n data)).

Definition named (name : bytes) (s : string) : bool := bytes_eqb name (str s).

(** The field names [decodeField] knows. *)
Definition known (field : bytes) : bool :=
  existsb (named field)
    ["id"; "username"; "email"; "first_name"; "last_name"; "age"; "height";
     "weight"; "balance"; "is_active"; "created_at"; "updated_at";
     "login_count"; "score"; "description"]%string.

(** [decodeField] on a record that is there. *)
Definition decodeInto (user : UserInfo) (field : bytes) (data : bytes)
  : res UserInfo :=
  if named field "id" then
    Ok (set_ID user (fst (strconv.ParseInt data 64)))
  else if named field "username" then Ok (set_Username user data)
  else if named field "email" then Ok (set_Email user data)
  else if named field "first_name" then Ok (set_FirstName user data)
  else if named field "last_name" then Ok (set_LastName user data)
  else if named field "age" then
    let age := fst (strconv.ParseInt data 32) in
    Ok (set_Age user (int32 age))
  else if named field "height" then
    v <- Uint 4 data ;; Ok (set_Height user (F32.of_int v))
  else if named field "weight" then
    v <- Uint 4 data ;; Ok (set_Weight user (F32.of_int v))
  else if named field "balance" then
    v <- Uint 8 data ;; Ok (set_Balance user (F64.of_int v))
  else if named field "is_active" then
    Ok (set_IsActive user (bytes_eqb data (str "true")))
  else if named field "created_at" then
    Ok (set_CreatedAt user (fst (strconv.ParseInt data 64)))
  else if named field "updated_at" then
    Ok (set_UpdatedAt user (fst (strconv.ParseInt data 64)))
  else if named field "login_count" then
    let cnt := fst (strconv.ParseInt data 32) in
    Ok (set_LoginCount user (int32 cnt))
  else if named field "score" then
    v <- Uint 8 data ;; Ok (set_Score user (F64.of_int v))
  else if named field "description" then Ok (set_Description user data)
  else Ok user.

(** [decodeField] on a pointer: a nil [user] is dereferenced as soon as a
    case of the switch is taken.  (In the four float cases Go evaluates
    [Uint32(data)] or [Uint64(data)] before it stores through [user], so
    for a nil [user] and a stored value that is too short the panic is the
    index panic; the model reports the nil dereference there as well.) *)
Definition decodeField (user : option UserInfo) (field : bytes)
    (data : bytes) : res (option UserInfo) :=
  match user with
  | Some u => u <- decodeInto u field data ;; Ok (Some u)
  | None => if known field then Panic NilDereference else Ok None
  end.

(** The fifteen pairs of [writeUserFields], in the order it puts them. *)
Definition userFields (user : UserInfo) : list (bytes * bytes) :=
  let id := ID user in
  [ (makeKey id "id", strconv.FormatInt (ID user));
    (makeKey id "username", Username user);
    (makeKey id "email", Email user);
    (makeKey id "first_name", FirstName user);
    (makeKey id "last_name", LastName user);
    (makeKey id "age", strconv.FormatInt (Age user));
    (makeKey id "height", le_put 4 (F32.to_uint32 (Height user)));
    (makeKey id "weight", le_put 4 (F32.to_uint32 (Weight user)));
    (makeKey id "balance", le_put 8 (F64.to_uint64 (Balance user)));
    (makeKey id "is_active",
      if IsActive user then str "true" else str "false");
    (makeKey id "created_at", strconv.FormatInt (CreatedAt user));
    (makeKey id "updated_at", strconv.FormatInt (UpdatedAt user));
    (makeKey id "login_count", strconv.FormatInt (LoginCount user));
    (makeKey id "score", le_put 8 (F64.to_uint64 (Score user)));
    (makeKey id "description", Description user) ].

(** [b.Put] on each pair in turn, returning at the first error. *)
Fixpoint putAll (b : Bucket) (kvs : list (bytes * bytes)) : res Bucket :=
  match kvs with
  | [] => Ok b
  | (k, v) :: rest => b <- Put b k v ;; putAll b rest
  end.

Definition writeUserFields (b : option Bucket) (user : UserInfo)
  : res Bucket :=
  b <- deref b ;;
  putAll b (userFields user).

Definition Write (db : DB) (user : UserInfo) : DB * go (option error) :=
  Update db (fun tx =>
    let b := GetBucket tx bucketName in
    b <- writeUserFields b user ;;
    Ok (SetBucket tx bucketName b)).

Fixpoint writeMany_loop (b : option Bucket) (users : list UserInfo)
  : res (option Bucket) :=
  match users with
  | [] => Ok b
  | user :: rest =>
      b <- writeUserFields b user ;;
      writeMany_loop (Some b) rest
  end.

Definition WriteMany (db : DB) (users : list UserInfo)
  : DB * go (option error) :=
  Update db (fun tx =>
    b <- writeMany_loop (GetBucket tx bucketName) users ;;
    match b with
    | Some b => Ok (SetBucket tx bucketName b)
    | None => Ok tx
    end).

(** The cursor loop of [Read], filling the record allocated before the
    transaction. *)
Fixpoint read_loop (c : Bucket) (prefix : bytes) (user : UserInfo)
  : res UserInfo :=
  match c with
  | [] => Ok user
  | (k, v) :: next =>
      if HasPrefix k prefix then
        let field := skipn 8 k in
        user <- decodeInto user field (cursor_value v) ;;
        read_loop next prefix user
      else Ok user
  end.

Definition Read (db : DB) (id : Z) : go (option UserInfo * option error) :=
  let user := zeroUser in
  View db (fun tx =>
    match GetBucket tx bucketName with
    | None => Crash NilDereference
    | Some b =>
        let prefix := be_put 8 (uint64 id) in
        match read_loop (Seek b prefix) prefix user with
        | Ok user => Return (Some user, None)
        | Fail e => Return (Some user, Some e)
        | Panic p => Crash p
        end
    end).

Definition count_of (users : list UserInfo) : Z :=
  Z.of_nat (List.length users).

(** What follows the loop of [ReadMany]. *)
Definition readMany_finish (count : Z) (users : list UserInfo)
    (currentUser : option UserInfo) : list UserInfo :=
  match currentUser with
  | Some u => if count_of users <? count then users ++ [u] else users
  | None => users
  end.

Fixpoint readMany_loop (c : Bucket) (startId count : Z)
    (users : list UserInfo) (currentId : Z) (currentUser : option UserInfo)
  : res (list UserInfo) :=
  match c with
  | [] => Ok (readMany_finish count users currentUser)
  | (k, v) :: next =>
      if count_of users <? count then
        if len k <? 8 then
          readMany_loop next startId count users currentId currentUser
        else
          let id := int64 (be_get (firstn 8 k)) in
          if id <? startId then
            readMany_loop next startId count users currentId currentUser
          else
            let decode users currentId currentUser :=
              let field := skipn 8 k in
              u <- decodeField currentUser field (cursor_value v) ;;
              readMany_loop next startId count users currentId u in
            if negb (id =? currentId) then
              match currentUser with
              | Some u =>
                  let users := users ++ [u] in
                  if count <=? count_of users then
                    Ok (readMany_finish count users currentUser)
                  else decode users id (Some zeroUser)
              | None => decode users id (Some zeroUser)
              end
            else decode users currentId currentUser
      else Ok (readMany_finish count users currentUser)
  end.

Definition ReadMany (db : DB) (startId : Z) (count : Z)
  : go (list UserInfo * option error) :=
  View db (fun tx =>
    match GetBucket tx bucketName with
    | None => Crash NilDereference
    | Some b =>
        match readMany_loop (Seek b (idKey startId)) startId count [] 0 None
        with
        | Ok users => Return (users, None)
        | Fail e => Return ([], Some e)
        | Panic p => Crash p
        end
    end).

Definition UpdateField (db : DB) (id : Z) (fieldName : bytes) (value : any)
  : DB * go (option error) :=
  Update db (fun tx =>
    let b := GetBucket tx bucketName in
    if named fieldName "balance" then
      v <- assert_type (as_float64 value) ;;
      let balanceBytes := le_put 8 (F64.to_uint64 v) in
      b <- deref b ;;
      b <- Put b (makeKey id "balance") balanceBytes ;;
      Ok (SetBucket tx bucketName b)
    else if named fieldName "login_count" then
      v <- assert_type (as_int32 value) ;;
      b <- deref b ;;
      b <- Put b (makeKey id "login_count") (strconv.FormatInt v) ;;
      Ok (SetBucket tx bucketName b)
    else if named fieldName "score" then
      v <- assert_type (as_float64 value) ;;
      let scoreBytes := le_put 8 (F64.to_uint64 v) in
      b <- deref b ;;
      b <- Put b (makeKey id "score") scoreBytes ;;
      Ok (SetBucket tx bucketName b)
    else Ok tx).

(** [bytes.Equal(k[len(k)-len(fieldSuffix):], fieldSuffix)], guarded by the
    length test. *)
Definition hasSuffix (k fieldSuffix : bytes) : bool :=
  (List.length fieldSuffix <=? List.length k)%nat
  && bytes_eqb (skipn (List.length k - List.length fieldSuffix) k) fieldSuffix.

Fixpoint readFieldSum_loop (c : Bucket) (fieldName : bytes)
    (count processed : Z) (seenIDs : list Z) (sum : float64) : res float64 :=
  match c with
  | [] => Ok sum
  | (k, v) :: next =>
      if processed <? count then
        if hasSuffix k fieldName then
          if (List.length k <? 8)%nat then Panic IndexOutOfRange
          else
            let id := int64 (be_get (firstn 8 k)) in
            if negb (existsb (Z.eqb id) seenIDs) then
              let seenIDs := id :: seenIDs in
              let processed := processed + 1 in
              sum <-
                (if named fieldName "balance" || named fieldName "score" then
                   x <- Uint 8 (cursor_value v) ;; Ok (F64.add sum (F64.of_int x))
                 else if named fieldName "login_count" then
                   let cnt := fst (strconv.ParseInt (cursor_value v) 32) in
                   Ok (F64.add sum (F64.of_int cnt))
                 else Ok sum) ;;
              readFieldSum_loop next fieldName count processed seenIDs sum
            else readFieldSum_loop next fieldName count processed seenIDs sum
        else readFieldSum_loop next fieldName count processed seenIDs sum
      else Ok sum
  end.

Definition ReadFieldSum (db : DB) (fieldName : bytes) (count : Z)
  : go (float64 * option error) :=
  View db (fun tx =>
    match GetBucket tx bucketName with
    | None => Crash NilDereference
    | Some b =>
        match readFieldSum_loop (First b) fieldName count 0 [] F64.zero with
        | Ok sum => Return (sum, None)
        | Fail e => Return (F64.zero, Some e)
        | Panic p => Crash p
        end
    end).
End MultiKVStrategy.

(* ================================================================== *)
(** * 6. Nested bucket strategy *)

Module NestedBucketStrategy.
Definition bucketName : bytes := str "users_nested".

Definition Setup (db : DB) : DB * go (option error) :=
  Update db (fun tx =>
    '(tx', _) <- CreateBucketIfNotExists tx bucketName ;;
    Ok tx').

(** [userBucket.Put(...)] whose error is dropped. *)
Definition put_ (b : Bucket) (kv : bytes * bytes) : Bucket :=
  match Put b (fst kv) (snd kv) with
  | Ok b' => b'
  | _ => b
  end.

(** The fifteen pairs stored in the record's own bucket. *)
Definition userFields (user : UserInfo) : list (bytes * bytes) :=
  [ (str "id", strconv.FormatInt (ID user));
    (str "username", Username user);
    (str "email", Email user);
    (str "first_name", FirstName user);
    (str "last_name", LastName user);
    (str "age", strconv.FormatInt (Age user));
    (str "height", le_put 4 (F32.to_uint32 (Height user)));
    (str "weight", le_put 4 (F32.to_uint32 (Weight user)));
    (str "balance", le_put 8 (F64.to_uint64 (Balance user)));
    (str "is_active", if IsActive user then str "true" else str "false");
    (str "created_at", strconv.FormatInt (CreatedAt user));
    (str "updated_at", strconv.FormatInt (UpdatedAt user));
    (str "login_count", strconv.FormatInt (LoginCount user));
    (str "score", le_put 8 (F64.to_uint64 (Score user)));
    (str "description", Description user) ].

Definition writeUserFields (rootBucket : option Bucket) (user : UserInfo)
  : res Bucket :=
  let userKey := idKey (ID user) in
  rootBucket <- deref rootBucket ;;
  '(rootBucket, userBucket) <- CreateBucketIfNotExists rootBucket userKey ;;
  let userBucket := fold_left put_ (userFields user) userBucket in
  Ok (SetBucket rootBucket userKey userBucket).

Definition Write (db : DB) (user : UserInfo) : DB * go (option error) :=
  Update db (fun tx =>
    let rootBucket := GetBucket tx bucketName in
    rootBucket <- writeUserFields rootBucket user ;;
    Ok (SetBucket tx bucketName rootBucket)).

Fixpoint writeMany_loop (rootBucket : option Bucket)
    (users : list UserInfo) : res (option Bucket) :=
  match users with
  | [] => Ok rootBucket
  | user :: rest =>
      rootBucket <- writeUserFields rootBucket user ;;
      writeMany_loop (Some rootBucket) rest
  end.

Definition WriteMany (db : DB) (users : list UserInfo)
  : DB * go (option error) :=
  Update db (fun tx =>
    rootBucket <- writeMany_loop (GetBucket tx bucketName) users ;;
    match rootBucket with
    | Some rootBucket => Ok (SetBucket tx bucketName rootBucket)
    | None => Ok tx
    end).

(** The method has the text of [MultiKVStrategy.decodeField]; its record
    is never nil here. *)
Definition decodeField := MultiKVStrategy.decodeInto.

(** The inner cursor loop over the fields of one record. *)
Fixpoint decodeAll (c : Bucket) (user : UserInfo) : res UserInfo :=
  match c with
  | [] => Ok user
  | (fk, fv) :: next =>
      user <- decodeField user fk (cursor_value fv) ;;
      decodeAll next user
  end.

Definition Read (db : DB) (id : Z) : go (option UserInfo * option error) :=
  let user := zeroUser in
  View db (fun tx =>
    match GetBucket tx bucketName with
    | None => Crash NilDereference
    | Some root =>
        let key := idKey id in
        match GetBucket root key with
        | None => Return (Some user, Some UserNotFound)
        | Some userBucket =>
            match decodeAll (First userBucket) user with
            | Ok user => Return (Some user, None)
            | Fail e => Return (Some user, Some e)
            | Panic p => Crash p
            end
        end
    end).

Fixpoint readMany_loop (root c : Bucket) (count : Z)
    (users : list UserInfo) : res (list UserInfo) :=
  match c with
  | [] => Ok users
  | (uk, _) :: next =>
      if Z.of_nat (List.length users) <? count then
        match GetBucket root uk with
        | None => readMany_loop root next count users
        | Some userBucket =>
            user <- decodeAll (First userBucket) zeroUser ;;
            readMany_loop root next count (users ++ [user])
        end
      else Ok users
  end.

Definition ReadMany (db : DB) (startId : Z) (count : Z)
  : go (list UserInfo * option error) :=
  View db (fun tx =>
    match GetBucket tx bucketName with
    | None => Crash NilDereference
    | Some root =>
        match readMany_loop root (Seek root (idKey startId)) count [] with
        | Ok users => Return (users, None)
        | Fail e => Return ([], Some e)
        | Panic p => Crash p
        end
    end).

Definition named := MultiKVStrategy.named.

Definition UpdateField (db : DB) (id : Z) (fieldName : bytes) (value : any)
  : DB * go (option error) :=
  Update db (fun tx =>
    rootBucket <- deref (GetBucket tx bucketName) ;;
    let userKey := idKey id in
    match GetBucket rootBucket userKey with
    | None => Fail UserNotFound
    | Some userBucket =>
        let stored (userBucket : Bucket) :=
          Ok (SetBucket tx bucketName
                (SetBucket rootBucket userKey userBucket)) in
        if named fieldName "balance" then
          v <- assert_type (as_float64 value) ;;
          let balanceBytes := le_put 8 (F64.to_uint64 v) in
          userBucket <- Put userBucket (str "balance") balanceBytes ;;
          stored userBucket
        else if named fieldName "login_count" then
          v <- assert_type (as_int32 value) ;;
          userBucket <-
            Put userBucket (str "login_count") (strconv.FormatInt v) ;;
          stored userBucket
        else if named fieldName "score" then
          v <- assert_type (as_float64 value) ;;
          let scoreBytes := le_put 8 (F64.to_uint64 v) in
          userBucket <- Put userBucket (str "score") scoreBytes ;;
          stored userBucket
        else Ok tx
    end).

Fixpoint readFieldSum_loop (rootBucket c : Bucket) (fieldName : bytes)
    (count processed : Z) (sum : float64) : res float64 :=
  match c with
  | [] => Ok sum
  | (k, _) :: next =>
      if processed <? count then
        match GetBucket rootBucket k with
        | Some userBucket =>
            sum <-
              match Get userBucket fieldName with
              | Some data =>
                  if named fieldName "balance" || named fieldName "score"
                  then
                    x <- MultiKVStrategy.Uint 8 data ;;
                    Ok (F64.add sum (F64.of_int x))
                  else if named fieldName "login_count" then
                    let cnt := fst (strconv.ParseInt data 32) in
                    Ok (F64.add sum (F64.of_int cnt))
                  else Ok sum
              | None => Ok sum
              end ;;
            readFieldSum_loop rootBucket next fieldName count
              (processed + 1) sum
        | None =>
            readFieldSum_loop rootBucket next fieldName count processed sum
        end
      else Ok sum
  end.

Definition ReadFieldSum (db : DB) (fieldName : bytes) (count : Z)
  : go (float64 * option error) :=
  View db (fun tx =>
    match GetBucket tx bucketName with
    | None => Crash NilDereference
    | Some rootBucket =>
        match readFieldSum_loop rootBucket (First rootBucket) fieldName
                count 0 F64.zero with
        | Ok sum => Return (sum, None)
        | Fail e => Return (F64.zero, Some e)
        | Panic p => Crash p
        end
    end).
End NestedBucketStrategy.

(* ================================================================== *)
(** * 1. and 2. The strategies over a library codec ([json.go], [gob.go])

    [encoding/json] and [encoding/gob] are not part of the package; the two
    strategies are embedded over what they use of them: an encoder that
    returns bytes or an error, and a decoder that fills a record in place
    and returns an error or nil. *)

Record Codec := {
  Marshal : UserInfo -> res bytes;
  Unmarshal : bytes -> UserInfo -> UserInfo * option error
}.

Module JSONStrategy.
Section WithCodec.
Variable json : Codec.

Definition bucketName : bytes := str "users_json".

Definition Setup (db : DB) : DB * go (option error) :=
  Update db (fun tx =>
    '(tx', _) <- CreateBucketIfNotExists tx bucketName ;;
    Ok tx').

Definition Write (db : DB) (user : UserInfo) : DB * go (option error) :=
  Update db (fun tx =>
    let b := GetBucket tx bucketName in
    data <- Marshal json user ;;
    let key := idKey (ID user) in
    b <- deref b ;;
    b <- Put b key data ;;
    Ok (SetBucket tx bucketName b)).

Fixpoint writeMany_loop (b : option Bucket) (users : list UserInfo)
  : res (option Bucket) :=
  match users with
  | [] => Ok b
  | user :: rest =>
      data <- Marshal json user ;;
      let key := idKey (ID user) in
      b <- deref b ;;
      b <- Put b key data ;;
      writeMany_loop (Some b) rest
  end.

Definition WriteMany (db : DB) (users : list UserInfo)
  : DB * go (option error) :=
  Update db (fun tx =>
    b <- writeMany_loop (GetBucket tx bucketName) users ;;
    match b with
    | Some b => Ok (SetBucket tx bucketName b)
    | None => Ok tx
    end).

(** [Read] returns the address of its local record in every case. *)
Definition Read (db : DB) (id : Z) : go (option UserInfo * option error) :=
  let user := zeroUser in
  View db (fun tx =>
    match GetBucket tx bucketName with
    | None => Crash NilDereference
    | Some b =>
        let key := idKey id in
        match Get b key with
        | None => Return (Some user, Some UserNotFound)
        | Some data =>
            let '(user, err) := Unmarshal json data user in
            Return (Some user, err)
        end
    end).

Fixpoint readMany_loop (c : Bucket) (count retrieved : Z)
    (users : list UserInfo) : list UserInfo * option error :=
  match c with
  | [] => (users, None)
  | (k, v) :: next =>
      if retrieved <? count then
        match Unmarshal json (cursor_value v) zeroUser with
        | (_, Some err) => (users, Some err)
        | (user, None) =>
            readMany_loop next count (retrieved + 1) (users ++ [user])
        end
      else (users, None)
  end.

Definition ReadMany (db : DB) (startId : Z) (count : Z)
  : go (list UserInfo * option error) :=
  View db (fun tx =>
    match GetBucket tx bucketName with
    | None => Crash NilDereference
    | Some b => Return (readMany_loop (Seek b (idKey startId)) count 0 [])
    end).

Definition UpdateField (db : DB) (id : Z) (fieldName : bytes) (value : any)
  : DB * go (option error) :=
  Update db (fun tx =>
    b <- deref (GetBucket tx bucketName) ;;
    let key := idKey id in
    match Get b key with
    | None => Fail UserNotFound
    | Some data =>
        match Unmarshal json data zeroUser with
        | (_, Some err) => Fail err
        | (user, None) =>
            user <-
              (if bytes_eqb fieldName (str "balance") then
                 v <- assert_type (as_float64 value) ;;
                 Ok (set_Balance user v)
               else if bytes_eqb fieldName (str "login_count") then
                 v <- assert_type (as_int32 value) ;;
                 Ok (set_LoginCount user v)
               else if bytes_eqb fieldName (str "score") then
                 v <- assert_type (as_float64 value) ;;
                 Ok (set_Score user v)
               else Ok user) ;;
            newData <- Marshal json user ;;
            b <- Put b key newData ;;
            Ok (SetBucket tx bucketName b)
        end
    end).

Fixpoint readFieldSum_loop (c : Bucket) (fieldName : bytes)
    (count processed : Z) (sum : float64) : float64 * option error :=
  match c with
  | [] => (sum, None)
  | (k, v) :: next =>
      if processed <? count then
        match Unmarshal json (cursor_value v) zeroUser with
        | (_, Some err) => (sum, Some err)
        | (user, None) =>
            let sum :=
              if bytes_eqb fieldName (str "balance") then
                F64.add sum (Balance user)
              else if bytes_eqb fieldName (str "score") then
                F64.add sum (Score user)
              else if bytes_eqb fieldName (str "login_count") then
                F64.add sum (F64.of_int (LoginCount user))
              else sum in
            readFieldSum_loop next fieldName count (processed + 1) sum
        end
      else (sum, None)
  end.

Definition ReadFieldSum (db : DB) (fieldName : bytes) (count : Z)
  : go (float64 * option error) :=
  View db (fun tx =>
    match GetBucket tx bucketName with
    | None => Crash NilDereference
    | Some b => Return (readFieldSum_loop (First b) fieldName count 0 F64.zero)
    end).
End WithCodec.
End JSONStrategy.

(** [gob.go] has the text of [json.go] with the gob encoder and decoder in
    place of [json.Marshal] and [json.Unmarshal], and its own bucket. *)
Module GOBStrategy.
Section WithCodec.
Variable gob : Codec.

Definition bucketName : bytes := str "users_gob".

Definition Setup (db : DB) : DB * go (option error) :=
  Update db (fun tx =>
    '(tx', _) <- CreateBucketIfNotExists tx bucketName ;;
    Ok tx').

Definition Write (db : DB) (user : UserInfo) : DB * go (option error) :=
  Update db (fun tx =>
    let b := GetBucket tx bucketName in
    data <- Marshal gob user ;;
    let key := idKey (ID user) in
    b <- deref b ;;
    b <- Put b key data ;;
    Ok (SetBucket tx bucketName b)).

Fixpoint writeMany_loop (b : option Bucket) (users : list UserInfo)
  : res (option Bucket) :=
  match users with
  | [] => Ok b
  | user :: rest =>
      data <- Marshal gob user ;;
      let key := idKey (ID user) in
      b <- deref b ;;
      b <- Put b key data ;;
      writeMany_loop (Some b) rest
  end.

Definition WriteMany (db : DB) (users : list UserInfo)
  : DB * go (option error) :=
  Update db (fun tx =>
    b <- writeMany_loop (GetBucket tx bucketName) users ;;
    match b with
    | Some b => Ok (SetBucket tx bucketName b)
    | None => Ok tx
    end).

Definition Read (db : DB) (id : Z) : go (option UserInfo * option error) :=
  let user := zeroUser in
  View db (fun tx =>
    match GetBucket tx bucketName with
    | None => Crash NilDereference
    | Some b =>
        let key := idKey id in
        match Get b key with
        | None => Return (Some user, Some UserNotFound)
        | Some data =>
            let '(user, err) := Unmarshal gob data user in
            Return (Some user, err)
        end
    end).

Definition ReadMany (db : DB) (startId : Z) (count : Z)
  : go (list UserInfo * option error) :=
  View db (fun tx =>
    match GetBucket tx bucketName with
    | None => Crash NilDereference
    | Some b =>
        Return (JSONStrategy.readMany_loop gob (Seek b (idKey startId))
                  count 0 [])
    end).

Definition UpdateField (db : DB) (id : Z) (fieldName : bytes) (value : any)
  : DB * go (option error) :=
  Update db (fun tx =>
    b <- deref (GetBucket tx bucketName) ;;
    let key := idKey id in
    match Get b key with
    | None => Fail UserNotFound
    | Some data =>
        match Unmarshal gob data zeroUser with
        | (_, Some err) => Fail err
        | (user, None) =>
            user <-
              (if bytes_eqb fieldName (str "balance") then
                 v <- assert_type (as_float64 value) ;;
                 Ok (set_Balance user v)
               else if bytes_eqb fieldName (str "login_count") then
                 v <- assert_type (as_int32 value) ;;
                 Ok (set_LoginCount user v)
               else if bytes_eqb fieldName (str "score") then
                 v <- assert_type (as_float64 value) ;;
                 Ok (set_Score user v)
               else Ok user) ;;
            newData <- Marshal gob user ;;
            b <- Put b key newData ;;
            Ok (SetBucket tx bucketName b)
        end
    end).

Definition ReadFieldSum (db : DB) (fieldName : bytes) (count : Z)
  : go (float64 * option error) :=
  View db (fun tx =>
    match GetBucket tx bucketName with
    | None => Crash NilDereference
    | Some b =>
        Return (JSONStrategy.readFieldSum_loop gob (First b) fieldName
                  count 0 F64.zero)
    end).
End WithCodec.
End GOBStrategy.

(* ================================================================== *)
(** * The strategy interface and its variants ([strategy_variant.go]) *)

Record StorageStrategy := {
  Name : string;
  Write : DB -> UserInfo -> DB * go (option error);
  WriteMany : DB -> list UserInfo -> DB * go (option error);
  Read : DB -> Z -> go (option UserInfo * option error);
  ReadMany : DB -> Z -> Z -> go (list UserInfo * option error);
  UpdateField : DB -> Z -> bytes -> any -> DB * go (option error);
  ReadFieldSum : DB -> bytes -> Z -> go (float64 * option error);
  Setup : DB -> DB * go (option error)
}.

Definition Binary : StorageStrategy :=
  {| Name := "Binary";
     Write := BinaryStrategy.Write;
     WriteMany := BinaryStrategy.WriteMany;
     Read := BinaryStrategy.Read;
     ReadMany := BinaryStrategy.ReadMany;
     UpdateField := BinaryStrategy.UpdateField;
     ReadFieldSum := BinaryStrategy.ReadFieldSum;
     Setup := BinaryStrategy.Setup |}.

Definition BinaryWithNames : StorageStrategy :=
  {| Name := "Binary+Names";
     Write := BinaryWithNamesStrategy.Write;
     WriteMany := BinaryWithNamesStrategy.WriteMany;
     Read := BinaryWithNamesStrategy.Read;
     ReadMany := BinaryWithNamesStrategy.ReadMany;
     UpdateField := BinaryWithNamesStrategy.UpdateField;
     ReadFieldSum := BinaryWithNamesStrategy.ReadFieldSum;
     Setup := BinaryWithNamesStrategy.Setup |}.

Definition MultiKV : StorageStrategy :=
  {| Name := "MultiKV";
     Write := MultiKVStrategy.Write;
     WriteMany := MultiKVStrategy.WriteMany;
     Read := MultiKVStrategy.Read;
     ReadMany := MultiKVStrategy.ReadMany;
     UpdateField := MultiKVStrategy.UpdateField;
     ReadFieldSum := MultiKVStrategy.ReadFieldSum;
     Setup := MultiKVStrategy.Setup |}.

Definition NestedBucket : StorageStrategy :=
  {| Name := "NestedBucket";
     Write := NestedBucketStrategy.Write;
     WriteMany := NestedBucketStrategy.WriteMany;
     Read := NestedBucketStrategy.Read;
     ReadMany := NestedBucketStrategy.ReadMany;
     UpdateField := NestedBucketStrategy.UpdateField;
     ReadFieldSum := NestedBucketStrategy.ReadFieldSum;
     Setup := NestedBucketStrategy.Setup |}.

Definition JSON (json : Codec) : StorageStrategy :=
  {| Name := "JSON";
     Write := JSONStrategy.Write json;
     WriteMany := JSONStrategy.WriteMany json;
     Read := JSONStrategy.Read json;
     ReadMany := JSONStrategy.ReadMany json;
     UpdateField := JSONStrategy.UpdateField json;
     ReadFieldSum := JSONStrategy.ReadFieldSum json;
     Setup := JSONStrategy.Setup |}.

Definition GOB (gob : Codec) : StorageStrategy :=
  {| Name := "GOB";
     Write := GOBStrategy.Write gob;
     WriteMany := GOBStrategy.WriteMany gob;
     Read := GOBStrategy.Read gob;
     ReadMany := GOBStrategy.ReadMany gob;
     UpdateField := GOBStrategy.UpdateField gob;
     ReadFieldSum := GOBStrategy.ReadFieldSum gob;
     Setup := GOBStrategy.Setup |}.

(** [baseStrategies] of [main.go]. *)
Definition baseStrategies (json gob : Codec) : list StorageStrategy :=
  [JSON json; GOB gob; Binary; BinaryWithNames; MultiKV; NestedBucket].

Module StrategyVariant.
Record StrategyVariant := {
  Strategy : StorageStrategy;
  Bulk : bool
}.

Definition Name (sv : StrategyVariant) := Name (Strategy sv).
Definition Setup (sv : StrategyVariant) := Setup (Strategy sv).
Definition Read (sv : StrategyVariant) := Read (Strategy sv).
Definition ReadMany (sv : StrategyVariant) := ReadMany (Strategy sv).
Definition UpdateField (sv : StrategyVariant) := UpdateField (Strategy sv).
Definition ReadFieldSum (sv : StrategyVariant) := ReadFieldSum (Strategy sv).

(** The loop of the non-bulk branch: one [Write] per record, in order,
    returning at the first error. *)
Fixpoint writeEach (s : StorageStrategy) (db : DB) (users : list UserInfo)
  : DB * go (option error) :=
  match users with
  | [] => (db, Return None)
  | user :: rest =>
      match Write s db user with
      | (db, Return None) => writeEach s db rest
      | (db, r) => (db, r)
      end
  end.

Definition WriteAll (sv : StrategyVariant) (db : DB) (users : list UserInfo)
  : DB * go (option error) :=
  if Bulk sv then WriteMany (Strategy sv) db users
  else writeEach (Strategy sv) db users.

Definition WriteMode (sv : StrategyVariant) : bool := Bulk sv.
End StrategyVariant.

(* ================================================================== *)
(** * The benchmark driver ([main.go])

    The driver times the strategies and prints a table.  Its two pure
    parts are embedded: the averaging of the measured results and the
    order in which the table lists them. *)

Module Main.
(** [BenchmarkResult]; a [time.Duration] is an int64 of nanoseconds. *)
Record BenchmarkResult := mkResult {
  Strategy : bytes;
  Bulk : bool;
  Operation : bytes;
  Duration : Z;
  StorageBytes : Z;
  RecordCount : Z
}.

(** The [key] struct of [calculateAverages]. *)
Definition key : Type := bytes * bool * bytes * Z.

Definition keyOf (r : BenchmarkResult) : key :=
  (Strategy r, Bulk r, Operation r, RecordCount r).

Definition key_eqb (a b : key) : bool :=
  let '(s1, b1, o1, c1) := a in
  let '(s2, b2, o2, c2) := b in
  bytes_eqb s1 s2 && Bool.eqb b1 b2 && bytes_eqb o1 o2 && (c1 =? c2).

(** [grouped[k] = append(grouped[k], r)] on the map kept as a list of its
    keys with their slices. *)
Fixpoint append (grouped : list (key * list BenchmarkResult)) (k : key)
    (r : BenchmarkResult) : list (key * list BenchmarkResult) :=
  match grouped with
  | [] => [(k, [r])]
  | (k', slice) :: rest =>
      if key_eqb k' k then (k', slice ++ [r]) :: rest
      else (k', slice) :: append rest k r
  end.

Definition group (results : list BenchmarkResult)
  : list (key * list BenchmarkResult) :=
  fold_left (fun grouped r => append grouped (keyOf r) r) results [].

(** The body of the second loop: sums with the wrap-around of int64, then
    the integer division of Go, which truncates toward zero. *)
Definition average (e : key * list BenchmarkResult) : BenchmarkResult :=
  let '(k, slice) := e in
  let sumDur := fold_left (fun sum r => int64 (sum + Duration r)) slice 0 in
  let sumBytes :=
    fold_left (fun sum r => int64 (sum + StorageBytes r)) slice 0 in
  let n := Z.of_nat (List.length slice) in
  let '(strat, bulk, op, rc) := k in
  mkResult strat bulk op (Z.quot sumDur n) (Z.quot sumBytes n) rc.

(** [calculateAverages] ranges over the map, in an order the language
    leaves open: every arrangement of the averaged rows is a result. *)
Definition calculateAverages (results out : list BenchmarkResult) : Prop :=
  Permutation out (map average (group results)).

(** The less function of the first [sort.Slice] of [printResults]; [<] on
    Go strings is the byte order. *)
Definition less (a b : BenchmarkResult) : bool :=
  if negb (RecordCount a =? RecordCount b) then
    RecordCount a <? RecordCount b
  else if negb (bytes_eqb (Strategy a) (Strategy b)) then
    bytes_ltb (Strategy a) (Strategy b)
  else if negb (Bool.eqb (Bulk a) (Bulk b)) then
    negb (Bulk a) && Bulk b
  else bytes_ltb (Operation a) (Operation b).
End Main.

(* ================================================================== *)
(** * Sample data *)

(** A record with the given id, balance and description; the other fields
    are fixed. *)
Definition sample (id : Z) (balance : float64) (description : string)
  : UserInfo :=
  mkUser id (str "user") (str "user@example.com") (str "First") (str "Last")
    30 (F32.of_int 170) (F32.of_int 65) balance true 1700000000 1700000001 7
    (F64.of_scaled 199 (-1)) (str description).

(** The store of a strategy after [Setup] on an empty database, and after
    inserting records into it through a variant. *)
Definition fresh (s : StorageStrategy) : DB := fst (Setup s []).

Definition populated (s : StorageStrategy) (bulk : bool)
    (users : list UserInfo) : DB :=
  fst (StrategyVariant.WriteAll
         {| StrategyVariant.Strategy := s; StrategyVariant.Bulk := bulk |}
         (fresh s) users).

(** Five records with balances 10.5, 20.25, 0, -5.75 and 100. *)
Definition fiveBalances : list float64 :=
  [F64.of_scaled 21 (-1); F64.of_scaled 81 (-2); F64.zero;
   F64.of_scaled (-23) (-2); F64.of_int 100].

Definition fiveUsers : list UserInfo :=
  [sample 0 (F64.of_scaled 21 (-1)) "first";
   sample 1 (F64.of_scaled 81 (-2)) "second";
   sample 2 F64.zero "third";
   sample 3 (F64.of_scaled (-23) (-2)) "fourth";
   sample 4 (F64.of_int 100) "fifth"].

(** The float64 sum as the loops accumulate it, left to right from zero. *)
Definition sumOf (xs : list float64) : float64 :=
  fold_left F64.add xs F64.zero.

(* ================================================================== *)
(** * Vocabulary of the statements *)

(** A bucket that holds values only, as every bucket the flat strategies
    write into. *)
Definition flat (b : Bucket) : Prop :=
  forall k s, lookup b k <> Some (Sub s).

(** The test for a bucket of values. *)
Definition flatb (b : Bucket) : bool :=
  forallb (fun e => match snd e with Leaf _ => true | Sub _ => false end) b.

(** No key of the bucket starts with [prefix]. *)
Definition noPrefix (b : Bucket) (prefix : bytes) : bool :=
  forallb (fun e => negb (HasPrefix (fst e) prefix)) b.

(** The field names [BinaryWithNamesStrategy.UpdateField] assigns. *)
Definition updatable (fieldName : bytes) : bool :=
  existsb (BinaryWithNamesStrategy.named fieldName)
    ["username"; "email"; "first_name"; "last_name"; "description"; "age";
     "height"; "weight"; "login_count"; "balance"; "score"; "is_active";
     "created_at"; "updated_at"]%string.

(** A store whose Binary bucket holds, under id 1, the first 30 bytes of an
    encoded record: the id, the username and a cut email. *)
Definition truncatedStore : DB :=
  SetBucket (fresh Binary) BinaryStrategy.bucketName
    [(idKey 1,
      Leaf (firstn 30 (BinaryStrategy.encodeBinary
                         (sample 1 (F64.of_int 10) "one"))))].

(** A reader step that never returns an error. *)
Definition noFail {A} (m : Reader.Rd A) : Prop := forall s e, m s <> Fail e.

(** The names of the fifteen fields, in the order [writeUserFields] puts
    them. *)
Definition fieldNames : list string :=
  ["id"; "username"; "email"; "first_name"; "last_name"; "age"; "height";
   "weight"; "balance"; "is_active"; "created_at"; "updated_at";
   "login_count"; "score"; "description"]%string.

(** The bucket after putting the pairs one after the other. *)
Definition putEach (b : Bucket) (kvs : list (bytes * bytes)) : Bucket :=
  fold_left (fun b kv => insert b (fst kv) (Leaf (snd kv))) kvs b.

(** Every value fits the value size limit of the store. *)
Definition valuesFit (kvs : list (bytes * bytes)) : bool :=
  forallb (fun kv => len (snd kv) <=? MaxValueSize) kvs.

Fixpoint nodupb (l : list bytes) : bool :=
  match l with
  | [] => true
  | x :: r => negb (existsb (bytes_eqb x) r) && nodupb r
  end.

Definition single (s : StorageStrategy) : StrategyVariant.StrategyVariant :=
  {| StrategyVariant.Strategy := s; StrategyVariant.Bulk := false |}.
Definition bulk (s : StorageStrategy) : StrategyVariant.StrategyVariant :=
  {| StrategyVariant.Strategy := s; StrategyVariant.Bulk := true |}.

(** The per-record effect on the strategy's bucket, folded over the
    records. *)
Fixpoint stepAll (step : Bucket -> UserInfo -> res Bucket) (b : Bucket)
    (users : list UserInfo) : res Bucket :=
  match users with
  | [] => Ok b
  | user :: rest => b <- step b user ;; stepAll step b rest
  end.

(** What [db.Update] returns for a body that ends in the bucket [r]. *)
Definition committed (db : DB) (name : bytes) (r : res Bucket)
  : DB * go (option error) :=
  match r with
  | Ok b => (SetBucket db name b, Return None)
  | Fail e => (db, Return (Some e))
  | Panic p => (db, Crash p)
  end.

(** A strategy whose [Write] and [WriteMany] run the same per-record step
    on one bucket, in one transaction per record or in one for all. *)
Record Stepwise (s : StorageStrategy) (name : bytes)
    (step : Bucket -> UserInfo -> res Bucket) : Prop := {
  Write_ok : forall db user db',
    Write s db user = (db', Return None) ->
    exists b b', GetBucket db name = Some b /\ step b user = Ok b'
                 /\ db' = SetBucket db name b';
  WriteMany_nil : forall db, WriteMany s db [] = (db, Return None);
  WriteMany_steps : forall db b users,
    GetBucket db name = Some b ->
    WriteMany s db users = committed db name (stepAll step b users)
}.

Definition BinaryStep (b : Bucket) (user : UserInfo) : res Bucket :=
  Put b (idKey (ID user)) (BinaryStrategy.encodeBinary user).

Definition BinaryWithNamesStep (b : Bucket) (user : UserInfo) : res Bucket :=
  data <- BinaryWithNamesStrategy.encodeBinaryWithNames user ;;
  Put b (idKey (ID user)) data.

Definition MultiKVStep (b : Bucket) (user : UserInfo) : res Bucket :=
  MultiKVStrategy.putAll b (MultiKVStrategy.userFields user).

Definition NestedBucketStep (b : Bucket) (user : UserInfo) : res Bucket :=
  NestedBucketStrategy.writeUserFields (Some b) user.

Definition CodecStep (c : Codec) (b : Bucket) (user : UserInfo) : res Bucket :=
  data <- Marshal c user ;;
  Put b (idKey (ID user)) data.

(** A codec that refuses every record, to have the two library strategies
    at hand where their behaviour does not matter. *)
Definition noCodec : Codec :=
  {| Marshal := fun _ => Fail CodecError;
     Unmarshal := fun _ user => (user, Some CodecError) |}.

(** A text of [2^31] bytes, two more than the store takes as one value, and
    a record that carries it. *)
Definition hugeText : bytes := repeat x00 (Z.to_nat (2 ^ 31)).

Definition hugeUser : UserInfo :=
  set_Description (sample 1 F64.zero "") hugeText.

(** The text fields are short enough for their length to be an int32. *)
Record textFits (u : UserInfo) : Prop := {
  fits_Username : len (Username u) < 2 ^ 31;
  fits_Email : len (Email u) < 2 ^ 31;
  fits_FirstName : len (FirstName u) < 2 ^ 31;
  fits_LastName : len (LastName u) < 2 ^ 31;
  fits_Description : len (Description u) < 2 ^ 31
}.

(** The entry [BinaryStrategy.Write] stores for a record. *)
Definition BinaryEntry (u : UserInfo) : bytes * node :=
  (idKey (ID u), Leaf (BinaryStrategy.encodeBinary u)).

(** Records as the benchmark inserts them: ids ascending and not negative,
    fields within their types, text lengths within an int32, and encoded
    values within the value limit of the store. *)
Record storable (users : list UserInfo) : Prop := {
  ids_ascending : StronglySorted Z.lt (map ID users);
  ids_range : Forall (fun u => 0 <= ID u < 2 ^ 63) users;
  users_wf : Forall wf_user users;
  users_fit : Forall textFits users;
  values_fit :
    Forall (fun u => len (BinaryStrategy.encodeBinary u) <= MaxValueSize) users
}.

(** The records carry the ids [start], [start + 1], ... in this order. *)
Fixpoint idsFrom (start : Z) (users : list UserInfo) : Prop :=
  match users with
  | [] => True
  | u :: rest => ID u = start /\ idsFrom (start + 1) rest
  end.

(** One field as the tagged encoder lays it out, and the payload of a text
    field. *)
Definition fieldBytes (name : string) (tag : Z) (payload : bytes) : bytes :=
  le_put 4 (int32 (len (str name))) ++ str name ++ [byte_of_Z tag] ++ payload.

Definition textPayload (s : bytes) : bytes := le_put 4 (int32 (len s)) ++ s.

(** The tagged encoding of a record, field after field. *)
Definition taggedBytes (u : UserInfo) : bytes :=
  le_put 4 15
  ++ fieldBytes "id" 1 (le_put 8 (ID u))
  ++ fieldBytes "username" 2 (textPayload (Username u))
  ++ fieldBytes "email" 2 (textPayload (Email u))
  ++ fieldBytes "first_name" 2 (textPayload (FirstName u))
  ++ fieldBytes "last_name" 2 (textPayload (LastName u))
  ++ fieldBytes "age" 3 (le_put 4 (Age u))
  ++ fieldBytes "height" 4 (le_put 4 (Height u))
  ++ fieldBytes "weight" 4 (le_put 4 (Weight u))
  ++ fieldBytes "balance" 5 (le_put 8 (Balance u))
  ++ fieldBytes "is_active" 6 (bool_byte (IsActive u))
  ++ fieldBytes "created_at" 1 (le_put 8 (CreatedAt u))
  ++ fieldBytes "updated_at" 1 (le_put 8 (UpdatedAt u))
  ++ fieldBytes "login_count" 3 (le_put 4 (LoginCount u))
  ++ fieldBytes "score" 5 (le_put 8 (Score u))
  ++ fieldBytes "description" 2 (textPayload (Description u)).

(** The strategies of [main.go], each with the bucket it keeps its records
    in. *)
Definition buckets (json gob : Codec) : list (StorageStrategy * bytes) :=
  [ (JSON json, JSONStrategy.bucketName);
    (GOB gob, GOBStrategy.bucketName);
    (Binary, BinaryStrategy.bucketName);
    (BinaryWithNames, BinaryWithNamesStrategy.bucketName);
    (MultiKV, MultiKVStrategy.bucketName);
    (NestedBucket, NestedBucketStrategy.bucketName) ].

(** The sum of the lengths of the five text fields. *)
Definition textLength (u : UserInfo) : Z :=
  len (Username u) + len (Email u) + len (FirstName u) + len (LastName u)
  + len (Description u).

(** The type marker of the dynamic type of a value, 0 when the tagged
    format has none for it. *)
Definition tagOf (v : any) : Z :=
  match v with
  | VInt64 _ => BinaryWithNamesStrategy.tagInt64
  | VString _ => BinaryWithNamesStrategy.tagString
  | VInt32 _ => BinaryWithNamesStrategy.tagInt32
  | VFloat32 _ => BinaryWithNamesStrategy.tagFloat32
  | VFloat64 _ => BinaryWithNamesStrategy.tagFloat64
  | VBool _ => BinaryWithNamesStrategy.tagBool
  | VNil | VInt _ => 0
  end.

(** The entries of a bucket are in strictly ascending key order, as a
    cursor of the store visits them. *)
Definition sorted (b : Bucket) : Prop :=
  StronglySorted (fun e1 e2 => compare_bytes (fst e1) (fst e2) = Lt) b.

(** What the two per-field layouts keep of a record: each of the four
    floats is written as [uintN(f)] and read back as [floatN(...)]. *)
Definition fieldwise (u : UserInfo) : UserInfo :=
  mkUser (ID u) (Username u) (Email u) (FirstName u) (LastName u) (Age u)
    (F32.of_int (F32.to_uint32 (Height u)))
    (F32.of_int (F32.to_uint32 (Weight u)))
    (F64.of_int (F64.to_uint64 (Balance u)))
    (IsActive u) (CreatedAt u) (UpdatedAt u) (LoginCount u)
    (F64.of_int (F64.to_uint64 (Score u)))
    (Description u).

(** The entries of a MultiKV bucket under an 8-byte prefix, each under its
    field name [k[8:]]. *)
Definition fieldsOf (prefix : bytes) (b : Bucket) : Bucket :=
  map (fun e => (skipn 8 (fst e), snd e))
    (filter (fun e => HasPrefix (fst e) prefix) b).

(** A MultiKV bucket holds the record [u]: each key of [writeUserFields]
    carries the value it writes for [u]. *)
Definition holdsFields (b : Bucket) (u : UserInfo) : Prop :=
  forall k v, In (k, v) (MultiKVStrategy.userFields u) ->
              lookup b k = Some (Leaf v).

(** The two strategies over a library codec, with their buckets. *)
Definition codecBuckets (c : Codec) : list (StorageStrategy * bytes) :=
  [ (JSON c, JSONStrategy.bucketName); (GOB c, GOBStrategy.bucketName) ].

(** A codec to run the two library strategies on: the Binary encoding in
    the place of the library's. *)
Definition binaryCodec : Codec :=
  {| Marshal := fun user => Ok (BinaryStrategy.encodeBinary user);
     Unmarshal := fun data user =>
       match BinaryStrategy.decodeBinary data with
       | Ok decoded => (decoded, None)
       | _ => (user, Some CodecError)
       end |}.

(** The slice the map of [calculateAverages] holds for a key, and the
    results of a key among the measured ones. *)
Definition sliceOf (grouped : list (Main.key * list Main.BenchmarkResult))
    (k : Main.key) : option (list Main.BenchmarkResult) :=
  option_map snd (find (fun e => Main.key_eqb (fst e) k) grouped).

Definition resultsOf (k : Main.key) (results : list Main.BenchmarkResult)
  : list Main.BenchmarkResult :=
  filter (fun r => Main.key_eqb (Main.keyOf r) k) results.

(** What [sort.Slice] leaves: no element is less than one before it. *)
Definition ordered (l : list Main.BenchmarkResult) : Prop :=
  StronglySorted (fun a b => Main.less b a = false) l.

(** Two runs of one measurement, 10 and 21 nanoseconds, and their average. *)
Definition twoRuns : list Main.BenchmarkResult :=
  [ Main.mkResult (str "Binary") false (str "Read") 10 4096 100;
    Main.mkResult (str "Binary") false (str "Read") 21 4096 100 ].

Definition twoRunsAverage : Main.BenchmarkResult :=
  Main.mkResult (str "Binary") false (str "Read") 15 4096 100.

(** Ids as the benchmark assigns them: strictly ascending and not
    negative. *)
Definition ascending (users : list UserInfo) : Prop :=
  StronglySorted Z.lt (map ID users)
  /\ Forall (fun u => 0 <= ID u < 2 ^ 63) users.

(** The per-record step of a layout that keeps one encoded value per record
    under the record's key, and the entry it leaves for a record. *)
Definition blobStep (enc : UserInfo -> res bytes) (b : Bucket)
    (user : UserInfo) : res Bucket :=
  data <- enc user ;; Put b (idKey (ID user)) data.

Definition storedAs (enc : UserInfo -> res bytes) (u : UserInfo)
    (e : bytes * node) : Prop :=
  exists data, enc u = Ok data /\ len data <= MaxValueSize
               /\ e = (idKey (ID u), Leaf data).

(** Records a layout stores and gives back.  Binary: the fields are within
    their types and the encoded value within the value limit of the store.
    Binary+Names: the same, and the description is not empty.  A library
    codec: it encodes the record, within the value limit, and decodes the
    encoding back into a zero record. *)
Definition binaryKeeps (u : UserInfo) : Prop :=
  wf_user u /\ textFits u
  /\ len (BinaryStrategy.encodeBinary u) <= MaxValueSize.

Definition taggedKeeps (u : UserInfo) : Prop :=
  wf_user u /\ textFits u /\ Description u <> []
  /\ exists data, BinaryWithNamesStrategy.encodeBinaryWithNames u = Ok data
                  /\ len data <= MaxValueSize.

Definition codecKeeps (c : Codec) (u : UserInfo) : Prop :=
  exists data, Marshal c u = Ok data /\ len data <= MaxValueSize
               /\ Unmarshal c data zeroUser = (u, None).

(* ================================================================== *)
(** * Facts about bytes and byte order *)

Lemma Z_of_byte_range (b : byte) : 0 <= Z_of_byte b < 256.
Proof.
  unfold Z_of_byte. pose proof (Byte.to_N_bounded b). lia.
Qed.

Lemma Z_of_byte_inj (a b : byte) : Z_of_byte a = Z_of_byte b -> a = b.
Proof.
  unfold Z_of_byte. intros H. apply N2Z.inj in H.
  pose proof (Byte.of_to_N a) as Ha. pose proof (Byte.of_to_N b) as Hb.
  rewrite H in Ha. congruence.
Qed.

Lemma Z_of_byte_of_Z (z : Z) : Z_of_byte (byte_of_Z z) = z mod 256.
Proof.
  unfold byte_of_Z, Z_of_byte.
  pose proof (Z.mod_pos_bound z 256 ltac:(lia)) as Hr.
  destruct (Byte.of_N (Z.to_N (z mod 256))) as [b|] eqn:E.
  - apply Byte.to_of_N in E. rewrite E. lia.
  - apply Byte.of_N_None_iff in E. lia.
Qed.

Lemma bytes_eqb_eq (a b : bytes) : bytes_eqb a b = true <-> a = b.
Proof.
  unfold bytes_eqb. destruct (list_eq_dec Byte.byte_eq_dec a b); split;
    intros; congruence.
Qed.

Lemma bytes_eqb_refl (a : bytes) : bytes_eqb a a = true.
Proof. now apply bytes_eqb_eq. Qed.

Lemma bytes_eqb_neq (a b : bytes) : bytes_eqb a b = false <-> a <> b.
Proof.
  unfold bytes_eqb. destruct (list_eq_dec Byte.byte_eq_dec a b); split;
    intros; congruence.
Qed.

Lemma compare_bytes_refl (a : bytes) : compare_bytes a a = Eq.
Proof.
  induction a as [|x a IH]; simpl; [reflexivity|].
  now rewrite Z.compare_refl.
Qed.

Lemma compare_bytes_eq (a b : bytes) : compare_bytes a b = Eq -> a = b.
Proof.
  revert b. induction a as [|x a IH]; intros [|y b]; simpl; try discriminate.
  - reflexivity.
  - destruct (Z.compare_spec (Z_of_byte x) (Z_of_byte y)) as [E| |];
      try discriminate.
    intros H. apply Z_of_byte_inj in E. apply IH in H. congruence.
Qed.

Lemma compare_bytes_eqb (a b : bytes) :
  bytes_eqb a b = match compare_bytes a b with Eq => true | _ => false end.
Proof.
  destruct (compare_bytes a b) eqn:E.
  - apply compare_bytes_eq in E. subst. apply bytes_eqb_refl.
  - apply bytes_eqb_neq. intros ->. rewrite compare_bytes_refl in E.
    discriminate.
  - apply bytes_eqb_neq. intros ->. rewrite compare_bytes_refl in E.
    discriminate.
Qed.

Lemma length_le_put (n : nat) (z : Z) : List.length (le_put n z) = n.
Proof.
  revert z. induction n as [|n IH]; intros z; simpl; [reflexivity|].
  now rewrite IH.
Qed.

Lemma le_get_le_put (n : nat) (z : Z) :
  le_get (le_put n z) = z mod 256 ^ Z.of_nat n.
Proof.
  revert z. induction n as [|n IH]; intros z.
  - simpl. now rewrite Z.mod_1_r.
  - cbn [le_put le_get]. rewrite Z_of_byte_of_Z, IH.
    replace (Z.of_nat (S n)) with (Z.of_nat n + 1) by lia.
    rewrite Z.pow_add_r, Z.pow_1_r by lia.
    rewrite (Z.mul_comm (256 ^ Z.of_nat n) 256).
    rewrite Z.rem_mul_r by lia. reflexivity.
Qed.

Lemma length_be_put (n : nat) (z : Z) : List.length (be_put n z) = n.
Proof. unfold be_put. now rewrite length_rev, length_le_put. Qed.

Lemma be_get_be_put (n : nat) (z : Z) :
  be_get (be_put n z) = z mod 256 ^ Z.of_nat n.
Proof. unfold be_get, be_put. now rewrite rev_involutive, le_get_le_put. Qed.

Lemma length_idKey (id : Z) : List.length (idKey id) = 8%nat.
Proof. apply length_be_put. Qed.

Lemma HasPrefix_app (p s : bytes) : HasPrefix (p ++ s) p = true.
Proof.
  induction p as [|x p IH]; simpl; [now destruct s|].
  rewrite IH. destruct (Byte.eqb x x) eqn:E; [reflexivity|].
  apply Byte.eqb_false in E. congruence.
Qed.

Lemma HasPrefix_firstn (s p : bytes) :
  HasPrefix s p = true -> firstn (List.length p) s = p.
Proof.
  revert s. induction p as [|y p IH]; intros s H; [reflexivity|].
  destruct s as [|x s]; simpl in H; [discriminate|].
  apply andb_true_iff in H as [Hx Hs].
  apply Byte.byte_dec_bl in Hx. subst. simpl. now rewrite IH.
Qed.

(* ================================================================== *)
(** * Facts about the store *)

Section StoreFacts.
Implicit Types (b tx : Bucket) (k name : bytes) (n : node).

Lemma lookup_insert b k n k' :
  lookup (insert b k n) k' = if bytes_eqb k k' then Some n else lookup b k'.
Proof.
  induction b as [|[k0 n0] r IH]; simpl.
  - reflexivity.
  - destruct (compare_bytes k0 k) eqn:E; simpl.
    + apply compare_bytes_eq in E. subst k0.
      destruct (bytes_eqb k k'); reflexivity.
    + rewrite IH. destruct (bytes_eqb k0 k') eqn:E0; [|reflexivity].
      apply bytes_eqb_eq in E0. subst k'.
      rewrite (compare_bytes_eqb k k0).
      destruct (compare_bytes k k0) eqn:E1; try reflexivity.
      apply compare_bytes_eq in E1. subst.
      rewrite compare_bytes_refl in E. discriminate.
    + reflexivity.
Qed.

Lemma lookup_insert_same b k n : lookup (insert b k n) k = Some n.
Proof. now rewrite lookup_insert, bytes_eqb_refl. Qed.

Lemma lookup_insert_other b k n k' :
  k <> k' -> lookup (insert b k n) k' = lookup b k'.
Proof.
  intros H. rewrite lookup_insert.
  apply bytes_eqb_neq in H. now rewrite H.
Qed.

Lemma insert_insert b k n1 n2 : insert (insert b k n1) k n2 = insert b k n2.
Proof.
  induction b as [|[k0 n0] r IH]; simpl.
  - now rewrite compare_bytes_refl.
  - destruct (compare_bytes k0 k) eqn:E; simpl.
    + now rewrite compare_bytes_refl.
    + now rewrite E, IH.
    + now rewrite compare_bytes_refl.
Qed.

Lemma lookup_SetBucket tx name s k :
  lookup (SetBucket tx name s) k =
  if bytes_eqb name k then
    match lookup tx k with Some _ => Some (Sub s) | None => None end
  else lookup tx k.
Proof.
  induction tx as [|[k0 n0] r IH]; simpl.
  - now destruct (bytes_eqb name k).
  - destruct (bytes_eqb k0 name) eqn:E0; simpl.
    + apply bytes_eqb_eq in E0. subst k0.
      destruct (bytes_eqb name k) eqn:E1; reflexivity.
    + rewrite IH.
      destruct (bytes_eqb k0 k) eqn:E1; [|reflexivity].
      apply bytes_eqb_eq in E1. subst k0.
      apply bytes_eqb_neq in E0.
      assert (bytes_eqb name k = false) as ->
          by (apply bytes_eqb_neq; congruence).
      reflexivity.
Qed.

Lemma GetBucket_SetBucket tx name s s' :
  GetBucket tx name = Some s -> GetBucket (SetBucket tx name s') name = Some s'.
Proof.
  unfold GetBucket. rewrite lookup_SetBucket, bytes_eqb_refl.
  destruct (lookup tx name) as [[|]|]; simpl; intros H;
    try reflexivity; discriminate.
Qed.

Lemma SetBucket_SetBucket tx name s1 s2 :
  SetBucket (SetBucket tx name s1) name s2 = SetBucket tx name s2.
Proof.
  induction tx as [|[k0 n0] r IH]; simpl; [reflexivity|].
  destruct (bytes_eqb k0 name) eqn:E; simpl; rewrite E; [reflexivity|].
  now rewrite IH.
Qed.

Lemma SetBucket_same tx name s :
  GetBucket tx name = Some s -> SetBucket tx name s = tx.
Proof.
  unfold GetBucket. induction tx as [|[k0 n0] r IH]; simpl; [reflexivity|].
  destruct (bytes_eqb k0 name) eqn:E.
  - destruct n0; congruence.
  - intros H. now rewrite IH.
Qed.

(** A cursor positioned by [Seek] only visits entries of the bucket. *)
Lemma Seek_incl b k e : In e (Seek b k) -> In e b.
Proof.
  induction b as [|[k0 n0] r IH]; simpl; [tauto|].
  destruct (bytes_ltb k0 k); simpl; tauto.
Qed.

Lemma Get_insert_same b k v : Get (insert b k (Leaf v)) k = Some v.
Proof. unfold Get. now rewrite lookup_insert_same. Qed.

Lemma Get_insert_other b k n k' :
  k <> k' -> Get (insert b k n) k' = Get b k'.
Proof. intros H. unfold Get. now rewrite lookup_insert_other. Qed.
End StoreFacts.

Lemma flat_insert (b : Bucket) (k v : bytes) :
  flat b -> flat (insert b k (Leaf v)).
Proof.
  intros H k' s. rewrite lookup_insert.
  destruct (bytes_eqb k k'); [discriminate|apply H].
Qed.

Lemma Put_ok (b : Bucket) (k v : bytes) :
  flat b -> 0 < len k <= MaxKeySize -> len v <= MaxValueSize ->
  Put b k v = Ok (insert b k (Leaf v)).
Proof.
  intros Hb Hk Hv. unfold Put.
  destruct (Z.eqb_spec (len k) 0); [lia|].
  destruct (Z.ltb_spec MaxKeySize (len k)); [lia|].
  destruct (Z.ltb_spec MaxValueSize (len v)); [lia|].
  destruct (lookup b k) as [[|s]|] eqn:E; try reflexivity.
  now apply Hb in E.
Qed.

Lemma Put_too_large (b : Bucket) (k v : bytes) :
  0 < len k <= MaxKeySize -> MaxValueSize < len v ->
  Put b k v = Fail (StoreError ErrValueTooLarge).
Proof.
  intros Hk Hv. unfold Put.
  destruct (Z.eqb_spec (len k) 0); [lia|].
  destruct (Z.ltb_spec MaxKeySize (len k)); [lia|].
  destruct (Z.ltb_spec MaxValueSize (len v)); [reflexivity|lia].
Qed.

Lemma len_idKey (id : Z) : len (idKey id) = 8.
Proof. unfold len. now rewrite length_idKey. Qed.

Lemma lookup_In (b : Bucket) (k : bytes) (n : node) :
  lookup b k = Some n -> In (k, n) b.
Proof.
  induction b as [|[k0 n0] r IH]; simpl; [discriminate|].
  destruct (bytes_eqb k0 k) eqn:E.
  - apply bytes_eqb_eq in E. subst. intros H. left. congruence.
  - auto.
Qed.

Lemma flatb_flat (b : Bucket) : flatb b = true -> flat b.
Proof.
  unfold flatb. rewrite forallb_forall. intros H k s Hl.
  apply lookup_In, H in Hl. discriminate.
Qed.

Lemma noPrefix_In (b : Bucket) (prefix k : bytes) (n : node) :
  noPrefix b prefix = true -> In (k, n) b -> HasPrefix k prefix = false.
Proof.
  unfold noPrefix. rewrite forallb_forall. intros H Hin.
  apply H in Hin. simpl in Hin. now apply negb_true_iff.
Qed.

Lemma noPrefix_lookup (b : Bucket) (prefix suffix : bytes) :
  noPrefix b prefix = true -> lookup b (prefix ++ suffix) = None.
Proof.
  intros H. destruct (lookup b (prefix ++ suffix)) eqn:E; [|reflexivity].
  apply lookup_In in E. apply (noPrefix_In _ _ _ _ H) in E.
  now rewrite HasPrefix_app in E.
Qed.

(* ================================================================== *)
(** * Reading and updating an id that is not stored *)

Section AbsentId.
Variables (db : DB) (b : Bucket) (id : Z).

(** The blob layouts report the missing key. *)
Lemma Binary_Read_absent :
  GetBucket db BinaryStrategy.bucketName = Some b ->
  Get b (idKey id) = None ->
  BinaryStrategy.Read db id = Return (None, Some UserNotFound).
Proof.
  intros Hb Hk. unfold BinaryStrategy.Read, View. now rewrite Hb, Hk.
Qed.

Lemma BinaryWithNames_Read_absent :
  GetBucket db BinaryWithNamesStrategy.bucketName = Some b ->
  Get b (idKey id) = None ->
  BinaryWithNamesStrategy.Read db id = Return (None, Some UserNotFound).
Proof.
  intros Hb Hk. unfold BinaryWithNamesStrategy.Read, View.
  now rewrite Hb, Hk.
Qed.

Lemma JSON_Read_absent (json : Codec) :
  GetBucket db JSONStrategy.bucketName = Some b ->
  Get b (idKey id) = None ->
  JSONStrategy.Read json db id = Return (Some zeroUser, Some UserNotFound).
Proof.
  intros Hb Hk. unfold JSONStrategy.Read, View. now rewrite Hb, Hk.
Qed.

Lemma GOB_Read_absent (gob : Codec) :
  GetBucket db GOBStrategy.bucketName = Some b ->
  Get b (idKey id) = None ->
  GOBStrategy.Read gob db id = Return (Some zeroUser, Some UserNotFound).
Proof.
  intros Hb Hk. unfold GOBStrategy.Read, View. now rewrite Hb, Hk.
Qed.

Lemma NestedBucket_Read_absent :
  GetBucket db NestedBucketStrategy.bucketName = Some b ->
  GetBucket b (idKey id) = None ->
  NestedBucketStrategy.Read db id =
    Return (Some zeroUser, Some UserNotFound).
Proof.
  intros Hb Hk. unfold NestedBucketStrategy.Read, View. now rewrite Hb, Hk.
Qed.

Lemma Binary_UpdateField_absent (fieldName : bytes) (value : any) :
  GetBucket db BinaryStrategy.bucketName = Some b ->
  Get b (idKey id) = None ->
  BinaryStrategy.UpdateField db id fieldName value =
    (db, Return (Some UserNotFound)).
Proof.
  intros Hb Hk. unfold BinaryStrategy.UpdateField, Update.
  rewrite Hb. simpl. now rewrite Hk.
Qed.

Lemma BinaryWithNames_UpdateField_absent (fieldName : bytes) (value : any) :
  GetBucket db BinaryWithNamesStrategy.bucketName = Some b ->
  Get b (idKey id) = None ->
  BinaryWithNamesStrategy.UpdateField db id fieldName value =
    (db, Return (Some UserNotFound)).
Proof.
  intros Hb Hk. unfold BinaryWithNamesStrategy.UpdateField, Update.
  now rewrite Hb, Hk.
Qed.

Lemma NestedBucket_UpdateField_absent (fieldName : bytes) (value : any) :
  GetBucket db NestedBucketStrategy.bucketName = Some b ->
  GetBucket b (idKey id) = None ->
  NestedBucketStrategy.UpdateField db id fieldName value =
    (db, Return (Some UserNotFound)).
Proof.
  intros Hb Hk. unfold NestedBucketStrategy.UpdateField, Update.
  rewrite Hb. simpl. now rewrite Hk.
Qed.
End AbsentId.

(** C1.  [MultiKVStrategy.Read] has no test for a missing id: on a store
    that holds no key under the 8-byte prefix of [id], it returns the
    zero-filled record it allocated and a nil error, where the reads of the
    other layouts return "user not found". *)
Theorem MultiKV_Read_absent_id (db : DB) (b : Bucket) (id : Z) :
  GetBucket db MultiKVStrategy.bucketName = Some b ->
  noPrefix b (be_put 8 (uint64 id)) = true ->
  MultiKVStrategy.Read db id = Return (Some zeroUser, None).
Proof.
  intros Hb Hno. unfold MultiKVStrategy.Read, View. rewrite Hb.
  destruct (Seek b (be_put 8 (uint64 id))) as [|[k n] r] eqn:E;
    [reflexivity|].
  assert (In (k, n) b) as Hin
      by (apply (Seek_incl b (be_put 8 (uint64 id))); rewrite E; now left).
  simpl. now rewrite (noPrefix_In _ _ _ _ Hno Hin).
Qed.

Lemma MultiKV_Read_absent_id_witness :
  MultiKVStrategy.Read
    (populated MultiKV false [sample 1 (F64.of_int 10) "one"]) 2
  = Return (Some zeroUser, None).
Proof.
  eapply MultiKV_Read_absent_id.
  - vm_compute. reflexivity.
  - vm_compute. reflexivity.
Defined.

(** C2.  [MultiKVStrategy.UpdateField] has no test for a missing id either:
    it puts the field's key and returns nil, so a key appears under an id
    that has no record. *)
Theorem MultiKV_UpdateField_absent_id (db : DB) (b : Bucket) (id : Z)
    (v : float64) :
  GetBucket db MultiKVStrategy.bucketName = Some b ->
  flat b ->
  noPrefix b (be_put 8 (uint64 id)) = true ->
  let key := MultiKVStrategy.makeKey id "balance" in
  let data := le_put 8 (F64.to_uint64 v) in
  MultiKVStrategy.UpdateField db id (str "balance") (VFloat64 v) =
    (SetBucket db MultiKVStrategy.bucketName (insert b key (Leaf data)),
     Return None)
  /\ Get b key = None
  /\ Get (insert b key (Leaf data)) key = Some data.
Proof.
  intros Hb Hflat Hno key data. split; [|split].
  - unfold MultiKVStrategy.UpdateField, Update. rewrite Hb.
    change (MultiKVStrategy.named (str "balance") "balance") with true.
    cbn [as_float64 assert_type bind deref].
    fold key. fold data. rewrite Put_ok; [reflexivity|assumption| |].
    + unfold key, MultiKVStrategy.makeKey, len.
      rewrite length_app, length_be_put. unfold MaxKeySize. simpl. lia.
    + unfold data, len. rewrite length_le_put. unfold MaxValueSize. lia.
  - unfold Get, key, MultiKVStrategy.makeKey.
    now rewrite (noPrefix_lookup _ _ _ Hno).
  - apply Get_insert_same.
Qed.

Lemma MultiKV_UpdateField_absent_id_witness :
  exists db',
    MultiKVStrategy.UpdateField (fresh MultiKV) 7 (str "balance")
      (VFloat64 (F64.of_int 2)) = (db', Return None)
    /\ db' <> fresh MultiKV.
Proof.
  destruct (MultiKV_UpdateField_absent_id (fresh MultiKV) [] 7 (F64.of_int 2))
    as [H _].
  - reflexivity.
  - apply flatb_flat. reflexivity.
  - reflexivity.
  - eexists. split; [exact H|]. vm_compute. discriminate.
Defined.


(* ================================================================== *)
(** * Range reads *)

(** C5.  [MultiKVStrategy.ReadMany] starts with [currentId] at its zero
    value and [currentUser] nil.  When the first key the cursor meets
    belongs to id 0, the test [id != currentId] fails, no record is
    allocated, and [decodeField] dereferences the nil pointer: the call
    panics instead of returning records 0, 1, ... *)
Theorem MultiKV_ReadMany_from_zero_panics (db : DB) (b c : Bucket)
    (k : bytes) (v : node) (count : Z) :
  GetBucket db MultiKVStrategy.bucketName = Some b ->
  Seek b (idKey 0) = (k, v) :: c ->
  HasPrefix k (idKey 0) = true ->
  MultiKVStrategy.known (skipn 8 k) = true ->
  1 <= count ->
  MultiKVStrategy.ReadMany db 0 count = Crash NilDereference.
Proof.
  intros Hb Hseek Hk Hknown Hcount.
  unfold MultiKVStrategy.ReadMany, View. rewrite Hb, Hseek.
  pose proof (HasPrefix_firstn _ _ Hk) as Hfirst.
  rewrite length_idKey in Hfirst.
  assert (8 <= len k) as Hlen.
  { pose proof (f_equal (@List.length byte) Hfirst) as Hl.
    rewrite length_firstn, length_idKey in Hl. unfold len. lia. }
  cbn [MultiKVStrategy.readMany_loop].
  change (MultiKVStrategy.count_of []) with 0.
  destruct (Z.ltb_spec 0 count); [|lia].
  destruct (Z.ltb_spec (len k) 8); [lia|].
  rewrite Hfirst. change (int64 (be_get (idKey 0))) with 0.
  change (0 <? 0) with false. change (negb (0 =? 0)) with false.
  cbv iota. unfold MultiKVStrategy.decodeField. rewrite Hknown.
  reflexivity.
Qed.

Lemma MultiKV_ReadMany_from_zero_panics_witness :
  MultiKVStrategy.ReadMany
    (populated MultiKV true
       [sample 0 (F64.of_int 1) "zero"; sample 1 (F64.of_int 2) "one"]) 0 2
  = Crash NilDereference.
Proof.
  eapply MultiKV_ReadMany_from_zero_panics.
  - vm_compute. reflexivity.
  - vm_compute. reflexivity.
  - vm_compute. reflexivity.
  - vm_compute. reflexivity.
  - lia.
Defined.

(* ================================================================== *)
(** * Updates with a value of the wrong type or an unknown field *)

(** C6.  [BinaryStrategy.UpdateField] converts the value with the
    single-value assertion [value.(float64)]: for an existing record and a
    value of another dynamic type the call panics.  The transaction is
    rolled back, so the record is unchanged, but no error is returned. *)
Theorem Binary_UpdateField_wrong_type_panics (db : DB) (b : Bucket)
    (id : Z) (data : bytes) (user : UserInfo) (value : any) :
  GetBucket db BinaryStrategy.bucketName = Some b ->
  Get b (idKey id) = Some data ->
  BinaryStrategy.decodeBinary data = Ok user ->
  as_float64 value = None ->
  BinaryStrategy.UpdateField db id (str "balance") value =
    (db, Crash InterfaceConversion).
Proof.
  intros Hb Hk Hdec Hty. unfold BinaryStrategy.UpdateField, Update.
  rewrite Hb. cbn [deref bind]. rewrite Hk, Hdec. cbn [bind].
  change (bytes_eqb (str "balance") (str "balance")) with true.
  cbv iota. rewrite Hty. reflexivity.
Qed.

Lemma Binary_UpdateField_wrong_type_panics_witness :
  let db := populated Binary false [sample 1 (F64.of_int 10) "one"] in
  BinaryStrategy.UpdateField db 1 (str "balance") (VInt 5) =
    (db, Crash InterfaceConversion).
Proof.
  intros db.
  eapply Binary_UpdateField_wrong_type_panics.
  - vm_compute. reflexivity.
  - vm_compute. reflexivity.
  - vm_compute. reflexivity.
  - reflexivity.
Defined.

(** The tagged layout checks the type and returns an error instead. *)
Lemma BinaryWithNames_UpdateField_wrong_type (db : DB) (b : Bucket)
    (id : Z) (data : bytes) (user : UserInfo) (value : any) :
  GetBucket db BinaryWithNamesStrategy.bucketName = Some b ->
  Get b (idKey id) = Some data ->
  BinaryWithNamesStrategy.decodeBinaryWithNames data = Ok user ->
  as_float64 value = None ->
  let e := MustBe (str "balance") BinaryWithNamesStrategy.tagFloat64 value in
  BinaryWithNamesStrategy.UpdateField db id (str "balance") value =
    (db, Return (Some e))
  /\ kind e = TypeMismatch.
Proof.
  intros Hb Hk Hdec Hty e. split; [|reflexivity].
  unfold BinaryWithNamesStrategy.UpdateField, Update.
  rewrite Hb, Hk, Hdec. cbn [bind].
  unfold BinaryWithNamesStrategy.assignField.
  repeat match goal with
         | |- context [BinaryWithNamesStrategy.named (str "balance") ?s] =>
             let r := eval vm_compute in
                 (BinaryWithNamesStrategy.named (str "balance") s) in
             change (BinaryWithNamesStrategy.named (str "balance") s) with r
         end.
  cbv iota. rewrite Hty. reflexivity.
Qed.

(** The tagged layout is the one whose [switch] has a default case: every
    field but [id] can be updated, and a name outside these fourteen is
    refused with "field is not updatable", leaving the store as it was. *)
Theorem BinaryWithNames_UpdateField_unsupported (db : DB) (b : Bucket)
    (id : Z) (data : bytes) (user : UserInfo) (fieldName : bytes)
    (value : any) :
  GetBucket db BinaryWithNamesStrategy.bucketName = Some b ->
  Get b (idKey id) = Some data ->
  BinaryWithNamesStrategy.decodeBinaryWithNames data = Ok user ->
  updatable fieldName = false ->
  BinaryWithNamesStrategy.UpdateField db id fieldName value =
    (db, Return (Some (NotUpdatable fieldName)))
  /\ kind (NotUpdatable fieldName) = UnsupportedField.
Proof.
  intros Hb Hk Hdec Hup. split; [|reflexivity].
  unfold BinaryWithNamesStrategy.UpdateField, Update.
  rewrite Hb, Hk, Hdec. cbn [bind].
  unfold updatable in Hup. cbn [existsb] in Hup.
  repeat (apply orb_false_iff in Hup; destruct Hup as [?H Hup]).
  unfold BinaryWithNamesStrategy.assignField.
  repeat match goal with
         | H : BinaryWithNamesStrategy.named fieldName _ = false |- _ =>
             rewrite H; clear H
         end.
  reflexivity.
Qed.

Lemma BinaryWithNames_UpdateField_unsupported_witness :
  let db := populated BinaryWithNames false [sample 1 (F64.of_int 10) "one"] in
  BinaryWithNamesStrategy.UpdateField db 1 (str "id") (VInt64 2) =
    (db, Return (Some (NotUpdatable (str "id")))).
Proof.
  intros db.
  eapply BinaryWithNames_UpdateField_unsupported.
  - vm_compute. reflexivity.
  - vm_compute. reflexivity.
  - vm_compute. reflexivity.
  - vm_compute. reflexivity.
Defined.

(** The tagged layout supports more fields than [balance], [login_count]
    and [score]: [username], for one, is updated. *)
Lemma BinaryWithNames_UpdateField_username_succeeds :
  let db := populated BinaryWithNames false [sample 1 (F64.of_int 10) "one"] in
  let r := BinaryWithNamesStrategy.UpdateField db 1 (str "username")
             (VString (str "bob")) in
  snd r = Return None
  /\ BinaryWithNamesStrategy.Read (fst r) 1 =
       Return (Some (set_Username (sample 1 (F64.of_int 10) "one") (str "bob")),
               None).
Proof. vm_compute. split; reflexivity. Qed.

(* ================================================================== *)
(** * Malformed stored bytes *)

Section NoFail.
Import Reader.

Lemma noFail_ret {A} (a : A) : noFail (ret a).
Proof. intros s e. discriminate. Qed.

Lemma noFail_bind {A B} (m : Rd A) (k : A -> Rd B) :
  noFail m -> (forall a, noFail (k a)) -> noFail (bindR m k).
Proof.
  intros Hm Hk s e. unfold bindR.
  destruct (m s) as [[a s']| |] eqn:E.
  - apply Hk.
  - now apply Hm in E.
  - discriminate.
Qed.

Lemma noFail_binary_Read (n : nat) : noFail (binary_Read n).
Proof.
  intros s e. unfold binary_Read, bindR, ReadFull, ret.
  destruct (n <=? List.length s)%nat; discriminate.
Qed.

Lemma noFail_make (n : Z) : noFail (lift (make n)).
Proof.
  intros s e. unfold lift, make. destruct (n <? 0); discriminate.
Qed.

Lemma noFail_Read (p : bytes) : noFail (Read p).
Proof. intros [|x s] e; discriminate. Qed.

Lemma noFail_readString (strLen : Z) :
  noFail (BinaryStrategy.readString strLen).
Proof.
  unfold BinaryStrategy.readString.
  apply noFail_bind; [apply noFail_binary_Read|intros r].
  apply noFail_bind; [apply noFail_make|intros buf].
  apply noFail_bind; [apply noFail_Read|intros [filled err]].
  apply noFail_ret.
Qed.

Lemma noFail_decodeBinary_body : noFail BinaryStrategy.decodeBinary_body.
Proof.
  unfold BinaryStrategy.decodeBinary_body.
  repeat first
    [ apply noFail_ret
    | apply noFail_bind;
      [ first [apply noFail_binary_Read | apply noFail_readString]
      | intros [? ?] || intros ? ] ].
Qed.

(** [decodeBinary] has no error path. *)
Lemma decodeBinary_not_Fail (data : bytes) (e : error) :
  BinaryStrategy.decodeBinary data <> Fail e.
Proof.
  unfold BinaryStrategy.decodeBinary, run.
  destruct (BinaryStrategy.decodeBinary_body data) as [[u s]| |] eqn:E;
    try discriminate.
  now apply noFail_decodeBinary_body in E.
Qed.
End NoFail.

(** Whatever bytes are stored under a key, [BinaryStrategy.Read] hands out a
    record with a nil error, unless a length prefix is negative, in which
    case making the slice panics. *)
Lemma Binary_Read_any_bytes (db : DB) (b : Bucket) (id : Z) (data : bytes) :
  GetBucket db BinaryStrategy.bucketName = Some b ->
  Get b (idKey id) = Some data ->
  (exists user, BinaryStrategy.Read db id = Return (Some user, None))
  \/ (exists p, BinaryStrategy.Read db id = Crash p).
Proof.
  intros Hb Hk. unfold BinaryStrategy.Read, View. rewrite Hb, Hk.
  destruct (BinaryStrategy.decodeBinary data) as [u|e|p] eqn:E.
  - left. now exists u.
  - now apply decodeBinary_not_Fail in E.
  - right. now exists p.
Qed.

(** C8.  [decodeBinary] drops the error of every read and ends with
    [return user, nil]; it cannot return an error.  On a stored value cut
    after 30 bytes, [Read] returns a record whose id and username are
    right, whose email is cut and padded with zero bytes, whose later text
    fields are runs of zero bytes of the stale length, and whose numeric
    fields are zero, with a nil error. *)
Theorem Binary_Read_truncated_returns_partial_record :
  (forall data e, BinaryStrategy.decodeBinary data <> Fail e)
  /\ BinaryStrategy.Read truncatedStore 1 =
       Return
         (Some (mkUser 1 (str "user") (str "user@examp" ++ repeat x00 6)
                  (repeat x00 16) (repeat x00 16) 0 0 0 0 false 0 0 0 0
                  (repeat x00 16)),
          None).
Proof.
  split; [exact decodeBinary_not_Fail|].
  vm_compute. reflexivity.
Qed.

(* ================================================================== *)
(** * What one MultiKV write stores *)

Lemma nodupb_NoDup (l : list bytes) : nodupb l = true -> NoDup l.
Proof.
  induction l as [|x r IH]; simpl; intros H; constructor.
  - apply andb_true_iff in H as [H _]. apply negb_true_iff in H.
    intros Hin. assert (existsb (bytes_eqb x) r = true) as E.
    { apply existsb_exists. exists x. split; [assumption|].
      apply bytes_eqb_refl. }
    congruence.
  - apply andb_true_iff in H as [_ H]. now apply IH.
Qed.

Lemma NoDup_map_app (p : bytes) (l : list bytes) :
  NoDup l -> NoDup (map (app p) l).
Proof.
  induction 1 as [|x l Hx Hl IH]; simpl; constructor; [|assumption].
  rewrite in_map_iff. intros [y [Hy Hin]].
  apply app_inv_head in Hy. subst y. contradiction.
Qed.

Section PutEach.
Import MultiKVStrategy.

Lemma putEach_cons (b : Bucket) (k v : bytes) (r : list (bytes * bytes)) :
  putEach b ((k, v) :: r) = putEach (insert b k (Leaf v)) r.
Proof. reflexivity. Qed.

Lemma flat_putEach (kvs : list (bytes * bytes)) (b : Bucket) :
  flat b -> flat (putEach b kvs).
Proof.
  revert b. induction kvs as [|[k v] r IH]; intros b Hb; [assumption|].
  rewrite putEach_cons. apply IH. now apply flat_insert.
Qed.

Lemma putAll_ok (kvs : list (bytes * bytes)) (b : Bucket) :
  flat b ->
  Forall (fun kv => 0 < len (fst kv) <= MaxKeySize) kvs ->
  valuesFit kvs = true ->
  putAll b kvs = Ok (putEach b kvs).
Proof.
  revert b. induction kvs as [|[k v] r IH]; intros b Hb Hk Hv;
    [reflexivity|].
  inversion Hk as [|? ? Hk1 Hk2]; subst.
  simpl in Hv. apply andb_true_iff in Hv as [Hv1 Hv2].
  apply Z.leb_le in Hv1. simpl in Hk1.
  rewrite putEach_cons. cbn [putAll]. rewrite Put_ok by assumption.
  cbn [bind]. apply IH; auto using flat_insert.
Qed.

Lemma lookup_putEach_other (kvs : list (bytes * bytes)) (b : Bucket)
    (k : bytes) :
  ~ In k (map fst kvs) -> lookup (putEach b kvs) k = lookup b k.
Proof.
  revert b. induction kvs as [|[k0 v0] r IH]; intros b Hk; [reflexivity|].
  simpl in Hk. rewrite putEach_cons, IH by tauto.
  apply lookup_insert_other. tauto.
Qed.

Lemma lookup_putEach_in (kvs : list (bytes * bytes)) (b : Bucket)
    (k v : bytes) :
  NoDup (map fst kvs) -> In (k, v) kvs ->
  lookup (putEach b kvs) k = Some (Leaf v).
Proof.
  revert b. induction kvs as [|[k0 v0] r IH]; intros b Hnd Hin;
    [contradiction|].
  simpl in Hnd. inversion Hnd as [|? ? Hk0 Hr]; subst.
  rewrite putEach_cons. destruct Hin as [Heq|Hin].
  - inversion Heq; subst.
    rewrite lookup_putEach_other by assumption.
    apply lookup_insert_same.
  - now apply IH.
Qed.

Lemma userFields_keys (r : UserInfo) :
  map fst (userFields r) = map (fun f => idKey (ID r) ++ str f) fieldNames.
Proof. reflexivity. Qed.

Lemma userFields_NoDup (r : UserInfo) : NoDup (map fst (userFields r)).
Proof.
  rewrite userFields_keys.
  change (map (fun f => idKey (ID r) ++ str f) fieldNames)
    with (map (app (idKey (ID r))) (map str fieldNames)).
  apply NoDup_map_app, nodupb_NoDup. vm_compute. reflexivity.
Qed.

Lemma userFields_key_sizes (r : UserInfo) :
  Forall (fun kv => 0 < len (fst kv) <= MaxKeySize) (userFields r).
Proof.
  apply Forall_forall. intros [k v] Hin.
  apply (in_map fst) in Hin. cbn [fst] in Hin.
  rewrite userFields_keys in Hin.
  apply in_map_iff in Hin as [f [<- Hin]]. cbn [fst].
  unfold len. rewrite length_app, length_idKey. unfold MaxKeySize.
  simpl in Hin.
  repeat (destruct Hin as [<-|Hin]; [simpl; lia|]). contradiction.
Qed.

Lemma userFields_key_prefix (r : UserInfo) (k : bytes) :
  In k (map fst (userFields r)) -> firstn 8 k = idKey (ID r).
Proof.
  rewrite userFields_keys, in_map_iff. intros [f [<- _]].
  rewrite <- (length_idKey (ID r)) at 1.
  rewrite firstn_app, Nat.sub_diag, firstn_all, firstn_O. apply app_nil_r.
Qed.
End PutEach.

(** C10.  On a set-up store whose bucket holds values only, and for a record
    whose field values fit the store's value limit, [MultiKVStrategy.Write]
    commits and stores exactly the fifteen pairs of [writeUserFields]: their
    keys are the 8-byte big-endian id followed by the field names, they are
    pairwise distinct, each key then holds its value, and every other key,
    in particular every key with another 8-byte prefix, is as before. *)
Theorem MultiKV_Write_stores_fifteen_pairs (db : DB) (b : Bucket)
    (r : UserInfo) :
  GetBucket db MultiKVStrategy.bucketName = Some b ->
  flat b ->
  valuesFit (MultiKVStrategy.userFields r) = true ->
  let kvs := MultiKVStrategy.userFields r in
  let b' := putEach b kvs in
  MultiKVStrategy.Write db r =
    (SetBucket db MultiKVStrategy.bucketName b', Return None)
  /\ List.length kvs = 15%nat
  /\ map fst kvs =
       map (fun f => be_put 8 (uint64 (ID r)) ++ str f) fieldNames
  /\ NoDup (map fst kvs)
  /\ (forall k v, In (k, v) kvs -> Get b' k = Some v)
  /\ (forall k, ~ In k (map fst kvs) -> lookup b' k = lookup b k)
  /\ (forall k, firstn 8 k <> be_put 8 (uint64 (ID r)) ->
                lookup b' k = lookup b k).
Proof.
  intros Hb Hflat Hfit kvs b'.
  repeat split.
  - unfold MultiKVStrategy.Write, Update, MultiKVStrategy.writeUserFields.
    rewrite Hb. cbn [deref bind].
    rewrite putAll_ok by auto using userFields_key_sizes. reflexivity.
  - apply userFields_NoDup.
  - intros k v Hin. unfold Get, b'.
    now rewrite (lookup_putEach_in _ _ _ v (userFields_NoDup r) Hin).
  - intros k Hk. now apply lookup_putEach_other.
  - intros k Hk. apply lookup_putEach_other.
    intros Hin. apply userFields_key_prefix in Hin. contradiction.
Qed.

Lemma MultiKV_Write_stores_fifteen_pairs_witness :
  let r := sample 2 (F64.of_int 20) "two" in
  let db := populated MultiKV false [sample 1 (F64.of_int 10) "one"] in
  exists b,
    GetBucket db MultiKVStrategy.bucketName = Some b
    /\ MultiKVStrategy.Write db r =
         (SetBucket db MultiKVStrategy.bucketName
            (putEach b (MultiKVStrategy.userFields r)), Return None)
    /\ lookup (putEach b (MultiKVStrategy.userFields r))
         (MultiKVStrategy.makeKey 1 "balance") =
       lookup b (MultiKVStrategy.makeKey 1 "balance").
Proof.
  intros r db.
  destruct (GetBucket db MultiKVStrategy.bucketName) as [b|] eqn:Hb;
    [|vm_compute in Hb; discriminate].
  exists b. split; [reflexivity|].
  assert (flat b) as Hflat.
  { vm_compute in Hb. injection Hb as <-. apply flatb_flat.
    vm_compute. reflexivity. }
  destruct (MultiKV_Write_stores_fifteen_pairs db b r Hb Hflat)
    as (Hw & _ & _ & _ & _ & _ & Hframe).
  - vm_compute. reflexivity.
  - split; [exact Hw|]. apply Hframe. vm_compute. discriminate.
Defined.

(* ================================================================== *)
(** * Insertion modes *)


Section Modes.
Variables (s : StorageStrategy) (name : bytes)
  (step : Bucket -> UserInfo -> res Bucket).
Hypothesis Hs : Stepwise s name step.

Lemma writeEach_cons_ok (db db' : DB) (user : UserInfo)
    (rest : list UserInfo) :
  snd (StrategyVariant.writeEach s db (user :: rest)) = Return None ->
  exists db1, Write s db user = (db1, Return None)
              /\ StrategyVariant.writeEach s db (user :: rest) = StrategyVariant.writeEach s db1 rest.
Proof.
  simpl. destruct (Write s db user) as [db1 [[e|]|p]] eqn:E; simpl;
    try discriminate.
  intros _. now exists db1.
Qed.

Lemma steps_each (rest : list UserInfo) (db : DB) (b b1 : Bucket) :
  GetBucket db name = Some b ->
  snd (StrategyVariant.writeEach s (SetBucket db name b1) rest) = Return None ->
  committed db name (stepAll step b1 rest) =
    StrategyVariant.writeEach s (SetBucket db name b1) rest.
Proof.
  intros Hb. revert b1. induction rest as [|u rest IH]; intros b1 H.
  - reflexivity.
  - destruct (writeEach_cons_ok _ db u rest H) as (db2 & Hw & Heq).
    destruct (Write_ok _ _ _ Hs _ _ _ Hw) as (b1' & b2 & Hb1 & Hstep & ->).
    rewrite (GetBucket_SetBucket _ _ _ _ Hb) in Hb1. injection Hb1 as <-.
    rewrite SetBucket_SetBucket in *. rewrite Heq in *.
    cbn [stepAll]. rewrite Hstep. cbn [bind]. now apply IH.
Qed.

(** When the per-record mode stores every record, the bulk mode stores the
    same contents. *)
Lemma bulk_eq_each (users : list UserInfo) (db : DB) :
  snd (StrategyVariant.writeEach s db users) = Return None ->
  WriteMany s db users = StrategyVariant.writeEach s db users.
Proof.
  destruct users as [|u rest]; [intros _; apply (WriteMany_nil _ _ _ Hs)|].
  intros H. destruct (writeEach_cons_ok db db u rest H) as (db1 & Hw & Heq).
  destruct (Write_ok _ _ _ Hs _ _ _ Hw) as (b & b1 & Hb & Hstep & ->).
  rewrite (WriteMany_steps _ _ _ Hs _ _ _ Hb). rewrite Heq in *.
  cbn [stepAll]. rewrite Hstep. cbn [bind].
  now apply (steps_each rest db b b1).
Qed.
End Modes.

(** ** The six strategies are stepwise *)

Ltac committed_cases :=
  match goal with
  | |- context [committed _ _ ?r] => destruct r; reflexivity
  end.

Lemma Binary_loop_steps (users : list UserInfo) (b : Bucket) :
  BinaryStrategy.writeMany_loop b users = stepAll BinaryStep b users.
Proof.
  revert b. induction users as [|u r IH]; intros b; [reflexivity|].
  cbn [BinaryStrategy.writeMany_loop stepAll]. unfold BinaryStep at 1.
  destruct (Put b (idKey (ID u)) (BinaryStrategy.encodeBinary u));
    cbn [bind]; auto.
Qed.

Lemma Binary_Stepwise : Stepwise Binary BinaryStrategy.bucketName BinaryStep.
Proof.
  split.
  - intros db user db'. cbn [Write Binary].
    unfold BinaryStrategy.Write, Update.
    destruct (GetBucket db BinaryStrategy.bucketName) as [b|] eqn:Hb;
      cbn [deref bind]; [|discriminate].
    destruct (Put b (idKey (ID user)) (BinaryStrategy.encodeBinary user))
      as [b'| |] eqn:Hp; cbn [bind]; intros H; inversion H; subst.
    now exists b, b'.
  - intros db. cbn [WriteMany Binary].
    unfold BinaryStrategy.WriteMany, Update.
    destruct (GetBucket db BinaryStrategy.bucketName) as [b|] eqn:Hb;
      [|reflexivity].
    cbn [deref bind BinaryStrategy.writeMany_loop].
    now rewrite (SetBucket_same _ _ _ Hb).
  - intros db b users Hb. cbn [WriteMany Binary].
    unfold BinaryStrategy.WriteMany, Update. rewrite Hb. cbn [deref bind].
    rewrite Binary_loop_steps.
    destruct (stepAll BinaryStep b users); reflexivity.
Qed.

Lemma BinaryWithNames_loop_steps (users : list UserInfo) (b : Bucket) :
  BinaryWithNamesStrategy.writeMany_loop (Some b) users =
    (b' <- stepAll BinaryWithNamesStep b users ;; Ok (Some b')).
Proof.
  revert b. induction users as [|u r IH]; intros b; [reflexivity|].
  cbn [BinaryWithNamesStrategy.writeMany_loop stepAll].
  unfold BinaryWithNamesStep at 1.
  destruct (BinaryWithNamesStrategy.encodeBinaryWithNames u) as [data| |];
    cbn [bind deref]; try reflexivity.
  destruct (Put b (idKey (ID u)) data); cbn [bind]; auto.
Qed.

Lemma BinaryWithNames_Stepwise :
  Stepwise BinaryWithNames BinaryWithNamesStrategy.bucketName
    BinaryWithNamesStep.
Proof.
  split.
  - intros db user db'. cbn [Write BinaryWithNames].
    unfold BinaryWithNamesStrategy.Write, Update, BinaryWithNamesStep.
    destruct (GetBucket db BinaryWithNamesStrategy.bucketName) as [b|] eqn:Hb;
      [|discriminate].
    destruct (BinaryWithNamesStrategy.encodeBinaryWithNames user)
      as [data| |]; cbn [bind]; try discriminate.
    destruct (Put b (idKey (ID user)) data) as [b'| |] eqn:Hp; cbn [bind];
      intros H; inversion H; subst.
    now exists b, b'.
  - intros db. cbn [WriteMany BinaryWithNames].
    unfold BinaryWithNamesStrategy.WriteMany, Update.
    cbn [BinaryWithNamesStrategy.writeMany_loop bind].
    destruct (GetBucket db BinaryWithNamesStrategy.bucketName) as [b|] eqn:Hb;
      [|reflexivity].
    now rewrite (SetBucket_same _ _ _ Hb).
  - intros db b users Hb. cbn [WriteMany BinaryWithNames].
    unfold BinaryWithNamesStrategy.WriteMany, Update. rewrite Hb.
    rewrite BinaryWithNames_loop_steps.
    destruct (stepAll BinaryWithNamesStep b users); reflexivity.
Qed.

Lemma MultiKV_loop_steps (users : list UserInfo) (b : Bucket) :
  MultiKVStrategy.writeMany_loop (Some b) users =
    (b' <- stepAll MultiKVStep b users ;; Ok (Some b')).
Proof.
  revert b. induction users as [|u r IH]; intros b; [reflexivity|].
  cbn [MultiKVStrategy.writeMany_loop stepAll].
  unfold MultiKVStrategy.writeUserFields, MultiKVStep at 1.
  cbn [deref bind].
  destruct (MultiKVStrategy.putAll b (MultiKVStrategy.userFields u));
    cbn [bind]; auto.
Qed.

Lemma MultiKV_Stepwise :
  Stepwise MultiKV MultiKVStrategy.bucketName MultiKVStep.
Proof.
  split.
  - intros db user db'. cbn [Write MultiKV].
    unfold MultiKVStrategy.Write, Update, MultiKVStrategy.writeUserFields,
      MultiKVStep.
    destruct (GetBucket db MultiKVStrategy.bucketName) as [b|] eqn:Hb;
      cbn [deref bind]; [|discriminate].
    destruct (MultiKVStrategy.putAll b (MultiKVStrategy.userFields user))
      as [b'| |] eqn:Hp; cbn [bind]; intros H; inversion H; subst.
    now exists b, b'.
  - intros db. cbn [WriteMany MultiKV].
    unfold MultiKVStrategy.WriteMany, Update.
    cbn [MultiKVStrategy.writeMany_loop bind].
    destruct (GetBucket db MultiKVStrategy.bucketName) as [b|] eqn:Hb;
      [|reflexivity].
    now rewrite (SetBucket_same _ _ _ Hb).
  - intros db b users Hb. cbn [WriteMany MultiKV].
    unfold MultiKVStrategy.WriteMany, Update. rewrite Hb.
    rewrite MultiKV_loop_steps.
    destruct (stepAll MultiKVStep b users); reflexivity.
Qed.

Lemma NestedBucket_loop_steps (users : list UserInfo) (b : Bucket) :
  NestedBucketStrategy.writeMany_loop (Some b) users =
    (b' <- stepAll NestedBucketStep b users ;; Ok (Some b')).
Proof.
  revert b. induction users as [|u r IH]; intros b; [reflexivity|].
  cbn [NestedBucketStrategy.writeMany_loop stepAll].
  unfold NestedBucketStep at 1.
  destruct (NestedBucketStrategy.writeUserFields (Some b) u);
    cbn [bind]; auto.
Qed.

Lemma NestedBucket_Stepwise :
  Stepwise NestedBucket NestedBucketStrategy.bucketName NestedBucketStep.
Proof.
  split.
  - intros db user db'. cbn [Write NestedBucket].
    unfold NestedBucketStrategy.Write, Update, NestedBucketStep.
    destruct (GetBucket db NestedBucketStrategy.bucketName) as [b|] eqn:Hb;
      [|discriminate].
    destruct (NestedBucketStrategy.writeUserFields (Some b) user)
      as [b'| |] eqn:Hp; cbn [bind]; intros H; inversion H; subst.
    now exists b, b'.
  - intros db. cbn [WriteMany NestedBucket].
    unfold NestedBucketStrategy.WriteMany, Update.
    cbn [NestedBucketStrategy.writeMany_loop bind].
    destruct (GetBucket db NestedBucketStrategy.bucketName) as [b|] eqn:Hb;
      [|reflexivity].
    now rewrite (SetBucket_same _ _ _ Hb).
  - intros db b users Hb. cbn [WriteMany NestedBucket].
    unfold NestedBucketStrategy.WriteMany, Update. rewrite Hb.
    rewrite NestedBucket_loop_steps.
    destruct (stepAll NestedBucketStep b users); reflexivity.
Qed.

Section CodecStrategies.
Variable c : Codec.

Lemma JSON_loop_steps (users : list UserInfo) (b : Bucket) :
  JSONStrategy.writeMany_loop c (Some b) users =
    (b' <- stepAll (CodecStep c) b users ;; Ok (Some b')).
Proof.
  revert b. induction users as [|u r IH]; intros b; [reflexivity|].
  cbn [JSONStrategy.writeMany_loop stepAll]. unfold CodecStep at 1.
  destruct (Marshal c u) as [data| |]; cbn [bind deref]; try reflexivity.
  destruct (Put b (idKey (ID u)) data); cbn [bind]; auto.
Qed.

Lemma GOB_loop_steps (users : list UserInfo) (b : Bucket) :
  GOBStrategy.writeMany_loop c (Some b) users =
    (b' <- stepAll (CodecStep c) b users ;; Ok (Some b')).
Proof.
  revert b. induction users as [|u r IH]; intros b; [reflexivity|].
  cbn [GOBStrategy.writeMany_loop stepAll]. unfold CodecStep at 1.
  destruct (Marshal c u) as [data| |]; cbn [bind deref]; try reflexivity.
  destruct (Put b (idKey (ID u)) data); cbn [bind]; auto.
Qed.

Lemma JSON_Stepwise :
  Stepwise (JSON c) JSONStrategy.bucketName (CodecStep c).
Proof.
  split.
  - intros db user db'. cbn [Write JSON].
    unfold JSONStrategy.Write, Update, CodecStep.
    destruct (Marshal c user) as [data| |]; cbn [bind]; try discriminate.
    destruct (GetBucket db JSONStrategy.bucketName) as [b|] eqn:Hb;
      cbn [deref bind]; [|discriminate].
    destruct (Put b (idKey (ID user)) data) as [b'| |] eqn:Hp; cbn [bind];
      intros H; inversion H; subst.
    now exists b, b'.
  - intros db. cbn [WriteMany JSON].
    unfold JSONStrategy.WriteMany, Update.
    cbn [JSONStrategy.writeMany_loop bind].
    destruct (GetBucket db JSONStrategy.bucketName) as [b|] eqn:Hb;
      [|reflexivity].
    now rewrite (SetBucket_same _ _ _ Hb).
  - intros db b users Hb. cbn [WriteMany JSON].
    unfold JSONStrategy.WriteMany, Update. rewrite Hb.
    rewrite JSON_loop_steps.
    destruct (stepAll (CodecStep c) b users); reflexivity.
Qed.

Lemma GOB_Stepwise :
  Stepwise (GOB c) GOBStrategy.bucketName (CodecStep c).
Proof.
  split.
  - intros db user db'. cbn [Write GOB].
    unfold GOBStrategy.Write, Update, CodecStep.
    destruct (Marshal c user) as [data| |]; cbn [bind]; try discriminate.
    destruct (GetBucket db GOBStrategy.bucketName) as [b|] eqn:Hb;
      cbn [deref bind]; [|discriminate].
    destruct (Put b (idKey (ID user)) data) as [b'| |] eqn:Hp; cbn [bind];
      intros H; inversion H; subst.
    now exists b, b'.
  - intros db. cbn [WriteMany GOB].
    unfold GOBStrategy.WriteMany, Update.
    cbn [GOBStrategy.writeMany_loop bind].
    destruct (GetBucket db GOBStrategy.bucketName) as [b|] eqn:Hb;
      [|reflexivity].
    now rewrite (SetBucket_same _ _ _ Hb).
  - intros db b users Hb. cbn [WriteMany GOB].
    unfold GOBStrategy.WriteMany, Update. rewrite Hb.
    rewrite GOB_loop_steps.
    destruct (stepAll (CodecStep c) b users); reflexivity.
Qed.
End CodecStrategies.

(** Every strategy of [baseStrategies] stores the same contents in both
    modes when the per-record mode succeeds. *)
Lemma baseStrategies_bulk_eq_each (json gob : Codec) (s : StorageStrategy)
    (db : DB) (users : list UserInfo) :
  In s (baseStrategies json gob) ->
  snd (StrategyVariant.writeEach s db users) = Return None ->
  WriteMany s db users = StrategyVariant.writeEach s db users.
Proof.
  intros Hin. simpl in Hin.
  destruct Hin as [<-|[<-|[<-|[<-|[<-|[<-|[]]]]]]].
  - apply (bulk_eq_each _ _ _ (JSON_Stepwise json)).
  - apply (bulk_eq_each _ _ _ (GOB_Stepwise gob)).
  - apply (bulk_eq_each _ _ _ Binary_Stepwise).
  - apply (bulk_eq_each _ _ _ BinaryWithNames_Stepwise).
  - apply (bulk_eq_each _ _ _ MultiKV_Stepwise).
  - apply (bulk_eq_each _ _ _ NestedBucket_Stepwise).
Qed.

(** In the per-record mode the final store is the fold of [Write] over the
    records, in their order. *)
Lemma writeEach_fold (s : StorageStrategy) (users : list UserInfo) (db : DB) :
  snd (StrategyVariant.writeEach s db users) = Return None ->
  fst (StrategyVariant.writeEach s db users) = fold_left (fun d u => fst (Write s d u)) users db.
Proof.
  revert db. induction users as [|u r IH]; intros db H; [reflexivity|].
  destruct (writeEach_cons_ok s db db u r H) as (db1 & Hw & Heq).
  rewrite Heq in *. cbn [fold_left]. rewrite Hw. cbn [fst]. now apply IH.
Qed.

(** C9, as the code has it.  [StrategyVariant.WriteAll] calls [WriteMany] once when [Bulk]
    is set and otherwise calls [Write] once per record, in order, stopping
    at the first error; the other methods of a variant are those of the
    wrapped strategy.  For the six strategies of the program, when the
    per-record mode stores every record without an error, the bulk mode
    returns the same store and no error. *)
Theorem WriteAll_modes (json gob : Codec) (s : StorageStrategy) (db : DB)
    (users : list UserInfo) :
  StrategyVariant.WriteAll (bulk s) db users = WriteMany s db users
  /\ StrategyVariant.WriteAll (single s) db users = StrategyVariant.writeEach s db users
  /\ (snd (StrategyVariant.WriteAll (single s) db users) = Return None ->
      fst (StrategyVariant.WriteAll (single s) db users) =
        fold_left (fun d u => fst (Write s d u)) users db)
  /\ (forall sv : StrategyVariant.StrategyVariant,
        StrategyVariant.Read sv = Read (StrategyVariant.Strategy sv)
        /\ StrategyVariant.ReadMany sv = ReadMany (StrategyVariant.Strategy sv)
        /\ StrategyVariant.UpdateField sv = UpdateField (StrategyVariant.Strategy sv)
        /\ StrategyVariant.ReadFieldSum sv = ReadFieldSum (StrategyVariant.Strategy sv))
  /\ (In s (baseStrategies json gob) ->
      snd (StrategyVariant.WriteAll (single s) db users) = Return None ->
      StrategyVariant.WriteAll (bulk s) db users = StrategyVariant.WriteAll (single s) db users).
Proof.
  split; [reflexivity|]. split; [reflexivity|].
  split; [apply writeEach_fold|].
  split; [intros sv; repeat split|].
  apply baseStrategies_bulk_eq_each.
Qed.

Lemma WriteAll_modes_witness :
  In Binary (baseStrategies noCodec noCodec)
  /\ snd (StrategyVariant.WriteAll (single Binary) (fresh Binary) fiveUsers) = Return None
  /\ StrategyVariant.WriteAll (bulk Binary) (fresh Binary) fiveUsers =
       StrategyVariant.WriteAll (single Binary) (fresh Binary) fiveUsers.
Proof.
  assert (In Binary (baseStrategies noCodec noCodec)) as Hin
      by (simpl; auto).
  assert (snd (StrategyVariant.WriteAll (single Binary) (fresh Binary) fiveUsers)
          = Return None) as Hok by (vm_compute; reflexivity).
  split; [exact Hin|]. split; [exact Hok|].
  exact (proj2 (proj2 (proj2 (proj2
           (WriteAll_modes noCodec noCodec Binary (fresh Binary) fiveUsers))))
           Hin Hok).
Defined.

Lemma len_hugeText : len hugeText = 2 ^ 31.
Proof.
  unfold len, hugeText. rewrite repeat_length. apply Z2Nat.id.
  apply Z.pow_nonneg. lia.
Qed.

Lemma len_encodeBinary_Description (user : UserInfo) :
  len (Description user) <= len (BinaryStrategy.encodeBinary user).
Proof.
  unfold BinaryStrategy.encodeBinary, BinaryStrategy.writeString, len.
  repeat rewrite length_app. lia.
Qed.

Lemma Binary_Write_too_large (db : DB) (b : Bucket) (user : UserInfo) :
  GetBucket db BinaryStrategy.bucketName = Some b ->
  MaxValueSize < len (BinaryStrategy.encodeBinary user) ->
  BinaryStrategy.Write db user =
    (db, Return (Some (StoreError ErrValueTooLarge))).
Proof.
  intros Hb Hlen. unfold BinaryStrategy.Write, Update. rewrite Hb.
  cbn [deref bind]. rewrite Put_too_large; [reflexivity| |assumption].
  rewrite len_idKey. unfold MaxKeySize. lia.
Qed.

Lemma Binary_WriteMany_too_large (db : DB) (b b1 : Bucket)
    (first user : UserInfo) :
  GetBucket db BinaryStrategy.bucketName = Some b ->
  BinaryStep b first = Ok b1 ->
  MaxValueSize < len (BinaryStrategy.encodeBinary user) ->
  BinaryStrategy.WriteMany db [first; user] =
    (db, Return (Some (StoreError ErrValueTooLarge))).
Proof.
  intros Hb Hfirst Hlen. unfold BinaryStrategy.WriteMany, Update.
  rewrite Hb. cbn [deref bind BinaryStrategy.writeMany_loop].
  unfold BinaryStep in Hfirst. rewrite Hfirst. cbn [bind].
  rewrite Put_too_large; [reflexivity| |assumption].
  rewrite len_idKey. unfold MaxKeySize. lia.
Qed.

Lemma Description_set (user : UserInfo) (v : bytes) :
  Description (set_Description user v) = v.
Proof. reflexivity. Qed.

Lemma too_large_of_Description (user : UserInfo) :
  2 ^ 31 <= len (Description user) ->
  MaxValueSize < len (BinaryStrategy.encodeBinary user).
Proof.
  intros H. pose proof (len_encodeBinary_Description user).
  unfold MaxValueSize. lia.
Qed.

Lemma modes_differ_when_second_write_fails (user : UserInfo) :
  MaxValueSize < len (BinaryStrategy.encodeBinary user) ->
  let users := [sample 0 F64.zero "zero"; user] in
  fst (StrategyVariant.WriteAll (single Binary) (fresh Binary) users) <>
  fst (StrategyVariant.WriteAll (bulk Binary) (fresh Binary) users).
Proof.
  intros Hlen users. unfold users.
  pose (first := sample 0 F64.zero "zero").
  pose (b1 := [(idKey 0, Leaf (BinaryStrategy.encodeBinary first))]).
  pose (db1 := SetBucket (fresh Binary) BinaryStrategy.bucketName b1).
  assert (GetBucket (fresh Binary) BinaryStrategy.bucketName = Some [])
    as Hb by reflexivity.
  assert (BinaryStep [] first = Ok b1) as Hstep by (vm_compute; reflexivity).
  assert (BinaryStrategy.Write (fresh Binary) first = (db1, Return None))
    as Hw by (vm_compute; reflexivity).
  assert (GetBucket db1 BinaryStrategy.bucketName = Some b1)
    as Hb1 by (vm_compute; reflexivity).
  cbn [StrategyVariant.WriteAll single bulk StrategyVariant.Bulk
       StrategyVariant.Strategy StrategyVariant.writeEach Write WriteMany
       Binary].
  fold first. rewrite Hw.
  rewrite (Binary_Write_too_large db1 b1 user Hb1 Hlen).
  rewrite (Binary_WriteMany_too_large _ [] b1 first user Hb Hstep Hlen).
  cbn [fst]. vm_compute. discriminate.
Qed.

(** C9 as stated fails when a write fails: the store refuses the second
    record; the per-record mode has then committed the first one, while
    the bulk transaction is rolled back and leaves the store as it was. *)
Lemma WriteAll_modes_differ_on_failure :
  let users := [sample 0 F64.zero "zero"; hugeUser] in
  fst (StrategyVariant.WriteAll (single Binary) (fresh Binary) users) <>
  fst (StrategyVariant.WriteAll (bulk Binary) (fresh Binary) users).
Proof.
  apply modes_differ_when_second_write_fails.
  apply too_large_of_Description.
  unfold hugeUser. rewrite Description_set, len_hugeText. apply Z.le_refl.
Qed.

(* ================================================================== *)
(** * Round trip of the binary codec *)

(** Reduce assignments to record fields, and nothing else. *)
Ltac assign_fields :=
  cbn [assigned set_ID set_Username set_Email set_FirstName set_LastName
       set_Description set_Age set_Height set_Weight set_Balance set_IsActive
       set_CreatedAt set_UpdatedAt set_LoginCount set_Score
       ID Username Email FirstName LastName Age Height Weight Balance
       IsActive CreatedAt UpdatedAt LoginCount Score Description zeroUser].

Section BinaryRoundTrip.
Import Reader.

Lemma firstn_length_app {A} (a rest : list A) :
  firstn (List.length a) (a ++ rest) = a.
Proof. induction a as [|x a IH]; simpl; [reflexivity|now rewrite IH]. Qed.

Lemma skipn_length_app {A} (a rest : list A) :
  skipn (List.length a) (a ++ rest) = rest.
Proof. induction a as [|x a IH]; simpl; [reflexivity|exact IH]. Qed.

Lemma ReadFull_app (a rest : bytes) :
  ReadFull (List.length a) (a ++ rest) = Ok (inr a, rest).
Proof.
  unfold ReadFull. rewrite length_app.
  destruct (Nat.leb_spec (List.length a) (List.length a + List.length rest));
    [|lia].
  now rewrite firstn_length_app, skipn_length_app.
Qed.

Lemma bind_binary_Read {B} (n : nat) (z : Z) (rest : bytes)
    (k : io_error + Z -> Rd B) :
  bindR (binary_Read n) k (le_put n z ++ rest) =
    k (inr (z mod 256 ^ Z.of_nat n)) rest.
Proof.
  unfold binary_Read, bindR at 1 2.
  rewrite <- (length_le_put n z) at 1. rewrite ReadFull_app.
  unfold ret. now rewrite le_get_le_put.
Qed.

Lemma bind_binary_Read_end {B} (n : nat) (z : Z)
    (k : io_error + Z -> Rd B) :
  bindR (binary_Read n) k (le_put n z) = k (inr (z mod 256 ^ Z.of_nat n)) [].
Proof.
  rewrite <- (app_nil_r (le_put n z)) at 1. apply bind_binary_Read.
Qed.

Lemma int32_small (z : Z) : 0 <= z < 2 ^ 31 -> int32 z = z.
Proof.
  intros H. unfold int32, sint. change (2 ^ 32) with 4294967296.
  change (2 ^ (32 - 1)) with 2147483648. change (2 ^ 31) with 2147483648 in H.
  rewrite Z.mod_small by lia. destruct (Z.ltb_spec z 2147483648); lia.
Qed.

Lemma int32_roundtrip (z : Z) :
  in_int 32 z -> int32 (z mod 256 ^ Z.of_nat 4) = z.
Proof.
  unfold in_int, int32, sint. change (256 ^ Z.of_nat 4) with 4294967296.
  change (2 ^ 32) with 4294967296. change (2 ^ (32 - 1)) with 2147483648.
  intros H. rewrite Z.mod_mod by lia.
  destruct (Z.ltb_spec (z mod 4294967296) 2147483648);
    Z.div_mod_to_equations; lia.
Qed.

Lemma int64_roundtrip (z : Z) :
  in_int 64 z -> int64 (z mod 256 ^ Z.of_nat 8) = z.
Proof.
  unfold in_int, int64, sint.
  change (256 ^ Z.of_nat 8) with 18446744073709551616.
  change (2 ^ 64) with 18446744073709551616.
  change (2 ^ (64 - 1)) with 9223372036854775808.
  intros H. rewrite Z.mod_mod by lia.
  destruct (Z.ltb_spec (z mod 18446744073709551616) 9223372036854775808);
    Z.div_mod_to_equations; lia.
Qed.

Lemma uint32_roundtrip (z : Z) : in_uint 32 z -> z mod 256 ^ Z.of_nat 4 = z.
Proof.
  unfold in_uint. change (256 ^ Z.of_nat 4) with (2 ^ 32).
  intros H. now apply Z.mod_small.
Qed.

Lemma uint64_roundtrip (z : Z) : in_uint 64 z -> z mod 256 ^ Z.of_nat 8 = z.
Proof.
  unfold in_uint. change (256 ^ Z.of_nat 8) with (2 ^ 64).
  intros H. now apply Z.mod_small.
Qed.

Lemma bind_readString {B} (strLen : Z) (s rest : bytes)
    (k : bytes * Z -> Rd B) :
  len s < 2 ^ 31 ->
  bindR (BinaryStrategy.readString strLen) k
    (BinaryStrategy.writeString s ++ rest) = k (s, len s) rest.
Proof.
  intros Hs. assert (0 <= len s) as H0 by (unfold len; lia).
  unfold BinaryStrategy.readString, BinaryStrategy.writeString.
  rewrite <- app_assoc. unfold bindR at 1. rewrite bind_binary_Read.
  unfold assigned. rewrite int32_roundtrip, int32_small
    by (rewrite ?int32_small by lia; unfold in_int;
        change (2 ^ (32 - 1)) with (2 ^ 31); lia).
  unfold bindR at 1, lift, make.
  destruct (Z.ltb_spec (len s) 0); [lia|].
  unfold bindR at 1, Read.
  assert (List.length (repeat x00 (Z.to_nat (len s))) = List.length s) as Hl.
  { rewrite repeat_length. unfold len. apply Nat2Z.id. }
  destruct (s ++ rest) as [|x t] eqn:E.
  - apply app_eq_nil in E as [-> ->]. reflexivity.
  - rewrite <- E. rewrite Hl, length_app.
    replace (Nat.min (List.length s) (List.length s + List.length rest))
      with (List.length s) by lia.
    rewrite firstn_length_app, skipn_length_app.
    rewrite <- Hl, skipn_all, app_nil_r. reflexivity.
Qed.

Lemma bool_byte_le_put (b : bool) :
  bool_byte b = le_put 1 (if b then 1 else 0).
Proof. now destruct b. Qed.

Lemma byte_bool_roundtrip (b : bool) :
  byte_bool ((if b then 1 else 0) mod 256 ^ Z.of_nat 1) = b.
Proof. now destruct b. Qed.

(** Decoding what [encodeBinary] wrote gives the record back, field for
    field. *)
Lemma decodeBinary_encodeBinary (u : UserInfo) :
  wf_user u -> textFits u ->
  BinaryStrategy.decodeBinary (BinaryStrategy.encodeBinary u) = Ok u.
Proof.
  intros [] []. destruct u as [uid un em fn ln age h w bal act ca ua lc sc de].
  cbn [ID Username Email FirstName LastName Age Height Weight Balance
       IsActive CreatedAt UpdatedAt LoginCount Score Description] in *.
  unfold BinaryStrategy.decodeBinary, run, BinaryStrategy.decodeBinary_body,
    BinaryStrategy.encodeBinary.
  assign_fields. rewrite bool_byte_le_put.
  rewrite bind_binary_Read. assign_fields.
  do 5 (rewrite bind_readString by assumption; assign_fields).
  do 8 (rewrite bind_binary_Read; assign_fields).
  rewrite bind_binary_Read_end. assign_fields.
  unfold ret.
  rewrite !int64_roundtrip, !int32_roundtrip, byte_bool_roundtrip by assumption.
  unfold id. rewrite !uint32_roundtrip, !uint64_roundtrip by assumption.
  reflexivity.
Qed.
End BinaryRoundTrip.

(* ================================================================== *)
(** * Key order and the contents of a Binary store *)

Lemma compare_bytes_snoc (a b : bytes) (x y : byte) :
  List.length a = List.length b ->
  compare_bytes (a ++ [x]) (b ++ [y]) =
    match compare_bytes a b with
    | Eq => Z.compare (Z_of_byte x) (Z_of_byte y)
    | c => c
    end.
Proof.
  revert b. induction a as [|a0 a IH]; intros [|b0 b] Hl; try discriminate.
  - simpl. now destruct (Z_of_byte x ?= Z_of_byte y).
  - simpl in Hl. injection Hl as Hl. cbn [app compare_bytes].
    destruct (Z_of_byte a0 ?= Z_of_byte b0); auto.
Qed.

Lemma be_put_S (n : nat) (z : Z) :
  be_put (S n) z = be_put n (z / 256) ++ [byte_of_Z z].
Proof. reflexivity. Qed.

Lemma Zcompare_div_mod (a b : Z) :
  (a ?= b) = match a / 256 ?= b / 256 with
             | Eq => a mod 256 ?= b mod 256
             | c => c
             end.
Proof.
  destruct (Z.compare_spec (a / 256) (b / 256)) as [E|E|E].
  - destruct (Z.compare_spec (a mod 256) (b mod 256)) as [F|F|F].
    + apply Z.compare_eq_iff. Z.div_mod_to_equations. lia.
    + apply Z.compare_lt_iff. Z.div_mod_to_equations. lia.
    + apply Z.compare_gt_iff. Z.div_mod_to_equations. lia.
  - apply Z.compare_lt_iff. Z.div_mod_to_equations. lia.
  - apply Z.compare_gt_iff. Z.div_mod_to_equations. lia.
Qed.

Lemma mod_split_low (a P : Z) :
  0 < P ->
  (a mod (256 * P)) / 256 = (a / 256) mod P
  /\ (a mod (256 * P)) mod 256 = a mod 256.
Proof.
  intros HP. rewrite Z.rem_mul_r by lia.
  rewrite (Z.mul_comm 256 ((a / 256) mod P)).
  rewrite Z.div_add, Z.mod_add by lia.
  rewrite Z.div_small by (apply Z.mod_pos_bound; lia).
  rewrite Z.mod_mod by lia. split; reflexivity.
Qed.

(** Big-endian keys of equal length sort as the numbers they encode. *)
Lemma compare_be_put (n : nat) (a b : Z) :
  compare_bytes (be_put n a) (be_put n b) =
    (a mod 256 ^ Z.of_nat n ?= b mod 256 ^ Z.of_nat n).
Proof.
  revert a b. induction n as [|n IH]; intros a b.
  - simpl. now rewrite !Z.mod_1_r.
  - rewrite !be_put_S, compare_bytes_snoc by now rewrite !length_be_put.
    rewrite IH, !Z_of_byte_of_Z.
    rewrite (Zcompare_div_mod (a mod 256 ^ Z.of_nat (S n))).
    replace (Z.of_nat (S n)) with (1 + Z.of_nat n) by lia.
    rewrite Z.pow_add_r, Z.pow_1_r by lia.
    assert (0 < 256 ^ Z.of_nat n) as Hp by (apply Z.pow_pos_nonneg; lia).
    destruct (mod_split_low a _ Hp) as [-> ->].
    destruct (mod_split_low b _ Hp) as [-> ->].
    reflexivity.
Qed.

(** For ids that are not negative, keys sort as ids. *)
Lemma compare_idKey (a b : Z) :
  0 <= a < 2 ^ 63 -> 0 <= b < 2 ^ 63 ->
  compare_bytes (idKey a) (idKey b) = (a ?= b).
Proof.
  intros Ha Hb. unfold idKey, uint64, uint. rewrite compare_be_put.
  change (256 ^ Z.of_nat 8) with (2 ^ 64).
  change (2 ^ 63) with 9223372036854775808 in *.
  change (2 ^ 64) with 18446744073709551616.
  rewrite !Z.mod_mod by lia. rewrite !Z.mod_small by lia. reflexivity.
Qed.

Lemma storable_tail (u : UserInfo) (users : list UserInfo) :
  storable (u :: users) -> storable users.
Proof.
  intros [Ha Hr Hw Hf Hv]. simpl in Ha.
  inversion Ha; inversion Hr; inversion Hw; inversion Hf; inversion Hv; subst.
  now split.
Qed.

Lemma insert_last (b : Bucket) (k : bytes) (n : node) :
  Forall (fun e => compare_bytes (fst e) k = Lt) b ->
  insert b k n = b ++ [(k, n)].
Proof.
  induction 1 as [|[k0 n0] r Hk Hr IH]; simpl; [reflexivity|].
  simpl in Hk. now rewrite Hk, IH.
Qed.

Lemma flat_app_entry (b : Bucket) (u : UserInfo) :
  flat b -> Forall (fun e => compare_bytes (fst e) (idKey (ID u)) = Lt) b ->
  flat (b ++ [BinaryEntry u]).
Proof.
  intros Hb Hlt. unfold BinaryEntry. rewrite <- insert_last by assumption.
  now apply flat_insert.
Qed.

(** Inserting records with ascending ids appends their entries. *)
Lemma Binary_stepAll_ascending (users : list UserInfo) (b : Bucket) :
  flat b ->
  Forall (fun e => Forall (fun u => compare_bytes (fst e) (idKey (ID u)) = Lt)
                     users) b ->
  storable users ->
  stepAll BinaryStep b users = Ok (b ++ map BinaryEntry users).
Proof.
  revert b. induction users as [|u r IH]; intros b Hflat Hlt Hs.
  - simpl. now rewrite app_nil_r.
  - assert (Forall (fun e => compare_bytes (fst e) (idKey (ID u)) = Lt) b)
      as Hu.
    { eapply Forall_impl; [|exact Hlt]. intros e He. now inversion He. }
    pose proof (storable_tail _ _ Hs) as Hs'. destruct Hs as [Ha Hr _ _ Hv].
    inversion Hv as [|? ? Hv1 _]; subst.
    cbn [stepAll]. unfold BinaryStep at 1.
    rewrite Put_ok; [|assumption|rewrite len_idKey; unfold MaxKeySize; lia
                     |assumption].
    cbn [bind]. rewrite insert_last by assumption.
    change (Leaf (BinaryStrategy.encodeBinary u)) with (snd (BinaryEntry u)).
    change (idKey (ID u)) with (fst (BinaryEntry u)) at 1.
    rewrite <- surjective_pairing.
    rewrite IH; [now rewrite <- app_assoc|now apply flat_app_entry| |exact Hs'].
    apply Forall_app. split.
    + eapply Forall_impl; [|exact Hlt]. intros e He. now inversion He.
    + constructor; [|constructor]. cbn [fst BinaryEntry].
      simpl in Ha. inversion Ha as [|? ? _ Hlt']; subst.
      inversion Hr as [|? ? Hu0 Hr0]; subst.
      rewrite Forall_map in Hlt'. rewrite Forall_forall in *.
      intros u' Hin. rewrite compare_idKey by auto.
      apply Z.compare_lt_iff. now apply Hlt'.
Qed.

Lemma fresh_Binary_bucket :
  GetBucket (fresh Binary) BinaryStrategy.bucketName = Some [].
Proof. reflexivity. Qed.

Lemma Binary_Write_step (db : DB) (b : Bucket) (user : UserInfo) :
  GetBucket db BinaryStrategy.bucketName = Some b ->
  BinaryStrategy.Write db user =
    committed db BinaryStrategy.bucketName (BinaryStep b user).
Proof.
  intros Hb. unfold BinaryStrategy.Write, Update, BinaryStep. rewrite Hb.
  cbn [deref bind].
  destruct (Put b (idKey (ID user)) (BinaryStrategy.encodeBinary user));
    reflexivity.
Qed.

Lemma Binary_writeEach_steps (users : list UserInfo) (db : DB)
    (b b' : Bucket) :
  GetBucket db BinaryStrategy.bucketName = Some b ->
  stepAll BinaryStep b users = Ok b' ->
  StrategyVariant.writeEach Binary db users =
    (SetBucket db BinaryStrategy.bucketName b', Return None).
Proof.
  revert db b. induction users as [|u r IH]; intros db b Hb Hsteps.
  - simpl in Hsteps. injection Hsteps as <-.
    simpl. now rewrite (SetBucket_same _ _ _ Hb).
  - cbn [stepAll] in Hsteps.
    destruct (BinaryStep b u) as [b1| |] eqn:Hstep; try discriminate.
    cbn [bind] in Hsteps.
    cbn [StrategyVariant.writeEach Write Binary].
    rewrite (Binary_Write_step _ _ _ Hb), Hstep. cbn [committed].
    rewrite (IH _ b1 (GetBucket_SetBucket _ _ _ _ Hb) Hsteps).
    now rewrite SetBucket_SetBucket.
Qed.

(** The Binary store after inserting storable records, in either mode:
    its bucket holds their entries in the order of the ids. *)
Lemma populated_Binary (mode : bool) (users : list UserInfo) :
  storable users ->
  GetBucket (populated Binary mode users) BinaryStrategy.bucketName =
    Some (map BinaryEntry users).
Proof.
  intros Hs.
  assert (stepAll BinaryStep [] users = Ok (map BinaryEntry users)) as Hsteps.
  { apply (Binary_stepAll_ascending users []); auto.
    intros k s. discriminate. }
  unfold populated, StrategyVariant.WriteAll. cbn [StrategyVariant.Bulk
    StrategyVariant.Strategy]. destruct mode.
  - rewrite (WriteMany_steps _ _ _ Binary_Stepwise _ _ _ fresh_Binary_bucket).
    rewrite Hsteps. cbn [committed fst].
    apply (GetBucket_SetBucket _ _ _ _ fresh_Binary_bucket).
  - rewrite (Binary_writeEach_steps _ _ _ _ fresh_Binary_bucket Hsteps).
    cbn [fst]. apply (GetBucket_SetBucket _ _ _ _ fresh_Binary_bucket).
Qed.

Ltac each_user tac :=
  repeat (apply Forall_cons; [tac|]); apply Forall_nil.

Ltac in_range := vm_compute; split; [discriminate|reflexivity].

Lemma storable_fiveUsers : storable fiveUsers.
Proof.
  split; unfold fiveUsers.
  - simpl. repeat (constructor; [repeat constructor; lia|]). constructor.
  - each_user in_range.
  - each_user ltac:(split; in_range).
  - each_user ltac:(split; vm_compute; reflexivity).
  - each_user ltac:(vm_compute; discriminate).
Qed.

(* ================================================================== *)
(** * Round trips that fail *)

(** C3.  Two layouts do not give back every record.  The tagged decoder
    reads a text payload with [buf.Read], which reports EOF at the end of
    the input even for an empty slice: as [description] is encoded last, a
    record with an empty description cannot be decoded, and [Read] fails
    on what [Write] stored.  The MultiKV layout stores [uint64(balance)],
    the value truncated to an integer, and reads it back with
    [float64(...)]: a balance of 10.5 comes back as 10 and a score of 99.5
    as 99. *)
Theorem roundtrip_failures :
  let r := sample 1 (F64.of_int 10) "" in
  (data <- BinaryWithNamesStrategy.encodeBinaryWithNames r ;;
   BinaryWithNamesStrategy.decodeBinaryWithNames data)
    = Fail (ReadFailed ReadStr (str "description") EOF)
  /\ BinaryWithNamesStrategy.Read (populated BinaryWithNames false [r]) 1
     = Return (None, Some (ReadFailed ReadStr (str "description") EOF))
  /\ let r := sample 1 (F64.of_scaled 21 (-1)) "one" in
     MultiKVStrategy.Read (populated MultiKV false [r]) 1
     = Return (Some (set_Score (set_Balance r (F64.of_int 10)) (F64.of_int 99)),
               None)
     /\ Balance r <> F64.of_int 10.
Proof.
  vm_compute. repeat split; try reflexivity; discriminate.
Qed.

(* ================================================================== *)
(** * Range reads on the Binary layout *)

Lemma idsFrom_skipn (n : nat) (users : list UserInfo) (start : Z) :
  idsFrom start users -> idsFrom (start + Z.of_nat n) (skipn n users).
Proof.
  revert users start. induction n as [|n IH]; intros users start H.
  - now rewrite Z.add_0_r.
  - destruct users as [|u r]; [exact I|]. destruct H as [_ H].
    replace (start + Z.of_nat (S n)) with (start + 1 + Z.of_nat n) by lia.
    now apply IH.
Qed.

Lemma idsFrom_firstn (n : nat) (users : list UserInfo) (start : Z) :
  idsFrom start users -> idsFrom start (firstn n users).
Proof.
  revert users start. induction n as [|n IH]; intros [|u r] start H;
    try exact I.
  destruct H as [Hu H]. split; [exact Hu|now apply IH].
Qed.

(** [Seek] on the entries of records with consecutive ids skips the records
    below the start id. *)
Lemma Seek_idsFrom (users : list UserInfo) (start k : Z) :
  idsFrom start users -> 0 <= start <= k -> k < 2 ^ 63 ->
  Seek (map BinaryEntry users) (idKey k) =
    map BinaryEntry (skipn (Z.to_nat (k - start)) users).
Proof.
  revert start. induction users as [|u r IH]; intros start Hids Hs Hk.
  - now rewrite skipn_nil.
  - destruct Hids as [Hu Hids]. subst start.
    cbn [map Seek]. unfold BinaryEntry at 1. unfold bytes_ltb.
    rewrite compare_idKey by lia.
    destruct (Z.compare_spec (ID u) k) as [E|E|E]; [| |lia].
    + subst k. rewrite Z.sub_diag. reflexivity.
    + rewrite (IH (ID u + 1)) by (auto; lia).
      replace (Z.to_nat (k - ID u)) with (S (Z.to_nat (k - (ID u + 1))))
        by lia.
      reflexivity.
Qed.

Lemma Binary_readMany_entries (users acc : list UserInfo)
    (count retrieved : Z) :
  Forall wf_user users -> Forall textFits users ->
  BinaryStrategy.readMany_loop (map BinaryEntry users) count retrieved acc =
    Return (acc ++ firstn (Z.to_nat (count - retrieved)) users, None).
Proof.
  revert acc retrieved. induction users as [|u r IH];
    intros acc retrieved Hw Hf.
  - simpl. now rewrite firstn_nil, app_nil_r.
  - inversion Hw; inversion Hf; subst.
    cbn [map BinaryEntry BinaryStrategy.readMany_loop cursor_value].
    destruct (Z.ltb_spec retrieved count) as [Hlt|Hge].
    + rewrite decodeBinary_encodeBinary by assumption.
      rewrite IH by assumption.
      replace (Z.to_nat (count - retrieved))
        with (S (Z.to_nat (count - (retrieved + 1)))) by lia.
      cbn [firstn]. now rewrite <- app_assoc.
    + replace (Z.to_nat (count - retrieved)) with O by lia.
      cbn [firstn]. now rewrite app_nil_r.
Qed.

Lemma Forall_skipn {A} (P : A -> Prop) (n : nat) (l : list A) :
  Forall P l -> Forall P (skipn n l).
Proof.
  revert l. induction n as [|n IH]; intros [|x l] H; simpl; auto.
  inversion H; auto.
Qed.

(** The range property holds on the Binary layout: for a store populated
    with ids [0..N-1], [ReadMany(store, k, c)] returns the records
    [k, k+1, ...], [min(c, N-k)] of them, and no error. *)
Lemma Binary_ReadMany_range (mode : bool) (users : list UserInfo) (k c : Z) :
  storable users -> idsFrom 0 users ->
  0 <= k < Z.of_nat (List.length users) -> 0 <= c ->
  let result := firstn (Z.to_nat c) (skipn (Z.to_nat k) users) in
  BinaryStrategy.ReadMany (populated Binary mode users) k c =
    Return (result, None)
  /\ Z.of_nat (List.length result) =
       Z.min c (Z.of_nat (List.length users) - k)
  /\ idsFrom k result.
Proof.
  intros Hs Hids Hk Hc result. split; [|split].
  - unfold BinaryStrategy.ReadMany, View.
    rewrite (populated_Binary mode users Hs).
    assert (k < 2 ^ 63) as Hk63.
    { destruct Hs as [_ Hr _ _ _].
      assert (In (nth (Z.to_nat k) users zeroUser) users) as Hin
          by (apply nth_In; lia).
      rewrite Forall_forall in Hr. apply Hr in Hin.
      pose proof (idsFrom_skipn (Z.to_nat k) users 0 Hids) as Hsk.
      destruct (skipn (Z.to_nat k) users) as [|u r] eqn:E.
      - apply (f_equal (@List.length _)) in E.
        rewrite length_skipn in E. simpl in E. lia.
      - destruct Hsk as [Hu _].
        assert (In u users) as Hu'.
        { rewrite <- (firstn_skipn (Z.to_nat k) users), E.
          apply in_or_app. right. now left. }
        apply Hr in Hu'. lia. }
    rewrite (Seek_idsFrom users 0 k) by (auto; lia).
    rewrite Z.sub_0_r.
    rewrite Binary_readMany_entries
      by (apply Forall_skipn; apply Hs).
    now rewrite Z.sub_0_r.
  - unfold result. rewrite length_firstn, length_skipn. lia.
  - unfold result. apply idsFrom_firstn.
    replace k with (0 + Z.of_nat (Z.to_nat k)) at 1 by lia.
    now apply idsFrom_skipn.
Qed.

(* ================================================================== *)
(** * Round trip of the tagged codec *)

Section TaggedRoundTrip.
Import Reader BinaryWithNamesStrategy.

Lemma encodeBinaryWithNames_bytes (u : UserInfo) :
  encodeBinaryWithNames u = Ok (taggedBytes u).
Proof.
  unfold encodeBinaryWithNames, taggedBytes, fieldBytes, textPayload.
  cbn [fields encodeFields encodePayload bind assert_type as_int64 as_string
       as_int32 as_float32 as_float64 as_bool List.length
       tagInt64 tagString tagInt32 tagFloat32 tagFloat64 tagBool Z.eqb
       Pos.eqb].
  repeat rewrite <- app_assoc. reflexivity.
Qed.

Lemma bindR_assoc {A B C} (m : Rd A) (f : A -> Rd B) (k : B -> Rd C)
    (s : bytes) :
  bindR (bindR m f) k s = bindR m (fun a => bindR (f a) k) s.
Proof. unfold bindR. destruct (m s) as [[a s']| |]; reflexivity. Qed.

Lemma bindR_ret {A B} (a : A) (k : A -> Rd B) (s : bytes) :
  bindR (ret a) k s = k a s.
Proof. reflexivity. Qed.

Lemma bind_checked_binary_Read {B} (step : decode_step) (f : bytes) (n : nat)
    (z : Z) (rest : bytes) (k : Z -> Rd B) :
  bindR (checked step f (binary_Read n)) k (le_put n z ++ rest) =
    k (z mod 256 ^ Z.of_nat n) rest.
Proof.
  unfold checked. rewrite bindR_assoc, bind_binary_Read. reflexivity.
Qed.

Lemma bind_checked_binary_Read_end {B} (step : decode_step) (f : bytes)
    (n : nat) (z : Z) (k : Z -> Rd B) :
  bindR (checked step f (binary_Read n)) k (le_put n z) =
    k (z mod 256 ^ Z.of_nat n) [].
Proof.
  rewrite <- (app_nil_r (le_put n z)) at 1. apply bind_checked_binary_Read.
Qed.

Lemma bind_checked_ReadByte {B} (step : decode_step) (f : bytes) (b : byte)
    (rest : bytes) (k : byte -> Rd B) :
  bindR (checked step f ReadByte) k (b :: rest) = k b rest.
Proof. reflexivity. Qed.

(** A run of bytes is read back when the input does not end before it. *)
Lemma bind_readBytes {B} (step : decode_step) (f : bytes) (n : Z)
    (s rest : bytes) (k : bytes -> Rd B) :
  n = len s -> s ++ rest <> [] ->
  bindR (readBytes step f n) k (s ++ rest) = k s rest.
Proof.
  intros -> Hne. unfold readBytes. rewrite bindR_assoc.
  unfold bindR at 1, lift, make.
  destruct (Z.ltb_spec (len s) 0) as [Hlt|_]; [unfold len in Hlt; lia|].
  rewrite bindR_assoc. unfold bindR at 1, Reader.Read.
  assert (List.length (repeat x00 (Z.to_nat (len s))) = List.length s) as Hl.
  { rewrite repeat_length. unfold len. apply Nat2Z.id. }
  destruct (s ++ rest) as [|x t] eqn:E; [contradiction|].
  rewrite <- E, Hl, length_app.
  replace (Nat.min (List.length s) (List.length s + List.length rest))
    with (List.length s) by lia.
  rewrite firstn_length_app, skipn_length_app.
  rewrite <- Hl, skipn_all, app_nil_r. reflexivity.
Qed.
Lemma app_nonempty_r (a b : bytes) : b <> [] -> a ++ b <> [].
Proof. intros Hb H. apply app_eq_nil in H as [_ H]. contradiction. Qed.

Lemma fieldBytes_nonempty (name : string) (tag : Z) (payload rest : bytes) :
  fieldBytes name tag payload ++ rest <> [].
Proof. unfold fieldBytes. cbn [le_put app]. discriminate. Qed.

Lemma int32_len (s : bytes) :
  len s < 2 ^ 31 -> int32 (int32 (len s) mod 256 ^ Z.of_nat 4) = len s.
Proof.
  intros H. assert (0 <= len s) by (unfold len; lia).
  rewrite (int32_small (len s)) by lia.
  apply int32_roundtrip. unfold in_int. change (2 ^ (32 - 1)) with (2 ^ 31).
  lia.
Qed.

(** Evaluate the tests on the tag and on the field name, which are closed
    once the header of a field has been read. *)
Ltac dispatch :=
  repeat match goal with
         | |- context [Z_of_byte (byte_of_Z ?n)] =>
             let r := eval vm_compute in (Z_of_byte (byte_of_Z n)) in
             change (Z_of_byte (byte_of_Z n)) with r
         end;
  repeat match goal with
         | |- context [Z.eqb ?a ?b] =>
             let r := eval vm_compute in (Z.eqb a b) in
             lazymatch r with
             | true => change (Z.eqb a b) with true
             | false => change (Z.eqb a b) with false
             end
         end;
  repeat match goal with
         | |- context [named (str ?a) ?b] =>
             let r := eval vm_compute in (named (str a) b) in
             change (named (str a) b) with r
         end;
  cbn [negb]; cbv iota.

Lemma bind_readBytes_end {B} (step : decode_step) (f : bytes) (n : Z)
    (s : bytes) (k : bytes -> Rd B) :
  n = len s -> s <> [] -> bindR (readBytes step f n) k s = k s [].
Proof.
  intros Hn Hs. rewrite <- (app_nil_r s) at 1.
  apply bind_readBytes; [assumption|now rewrite app_nil_r].
Qed.

Lemma app_nonempty_l (a b : bytes) : a <> [] -> a ++ b <> [].
Proof. intros Ha H. apply app_eq_nil in H as [H _]. contradiction. Qed.

(** Read the name and the tag of the next field. *)
Ltac field_header :=
  unfold decodeField at 1; rewrite !bindR_assoc;
  unfold fieldBytes at 1; rewrite <- ?app_assoc;
  rewrite bind_checked_binary_Read; rewrite bindR_assoc;
  rewrite bind_readBytes
    by (lazymatch goal with
        | |- _ = _ => vm_compute; reflexivity
        | |- _ => apply app_nonempty_l; vm_compute; discriminate
        end);
  cbn [app]; rewrite bindR_assoc; rewrite bind_checked_ReadByte;
  dispatch.

Ltac fixed_field :=
  field_header; rewrite bindR_assoc;
  rewrite ?bool_byte_le_put;
  rewrite bind_checked_binary_Read; rewrite bindR_ret; assign_fields.

Ltac text_field :=
  field_header; rewrite bindR_assoc;
  unfold textPayload at 1; rewrite <- ?app_assoc;
  rewrite bind_checked_binary_Read; rewrite bindR_assoc;
  rewrite bind_readBytes
    by (lazymatch goal with
        | |- _ = _ => now apply int32_len
        | |- _ => apply app_nonempty_r, fieldBytes_nonempty
        end);
  rewrite bindR_ret; assign_fields.

Lemma bind_readBytes_eof {B} (step : decode_step) (f : bytes) (n : Z)
    (k : bytes -> Rd B) :
  0 <= n -> bindR (readBytes step f n) k [] = Fail (ReadFailed step f EOF).
Proof.
  intros Hn. unfold readBytes. rewrite bindR_assoc.
  unfold bindR at 1, lift, make.
  destruct (Z.ltb_spec n 0); [lia|]. reflexivity.
Qed.

(** Read the fourteen fields that precede the description. *)
Ltac leading_fields :=
  unfold decodeBinaryWithNames, run, taggedBytes;
  cbn [ID Username Email FirstName LastName Age Height Weight Balance
       IsActive CreatedAt UpdatedAt LoginCount Score Description];
  rewrite bind_checked_binary_Read;
  change (Z.to_nat (int32 (15 mod 256 ^ Z.of_nat 4))) with 15%nat;
  cbn [decodeLoop];
  fixed_field; do 4 text_field; do 9 fixed_field;
  field_header; rewrite bindR_assoc;
  unfold textPayload at 1;
  rewrite bind_checked_binary_Read; rewrite bindR_assoc.

(** The tagged codec gives a record back when its description is not
    empty. *)
Lemma decodeBinaryWithNames_taggedBytes (u : UserInfo) :
  wf_user u -> textFits u -> Description u <> [] ->
  decodeBinaryWithNames (taggedBytes u) = Ok u.
Proof.
  intros [] [] Hd.
  destruct u as [uid un em fn ln age h w bal act ca ua lc sc de].
  cbn [ID Username Email FirstName LastName Age Height Weight Balance
       IsActive CreatedAt UpdatedAt LoginCount Score Description] in *.
  leading_fields.
  rewrite bind_readBytes_end by (first [now apply int32_len|assumption]).
  rewrite bindR_ret. unfold ret.
  rewrite !int64_roundtrip, !int32_roundtrip, byte_bool_roundtrip by assumption.
  rewrite !uint32_roundtrip, !uint64_roundtrip by assumption.
  reflexivity.
Qed.

(** With an empty description the decoder stops at the end of the input
    with an error, whatever the other fields are. *)
Lemma decodeBinaryWithNames_empty_description (u : UserInfo) :
  wf_user u -> textFits u -> Description u = [] ->
  decodeBinaryWithNames (taggedBytes u) =
    Fail (ReadFailed ReadStr (str "description") EOF).
Proof.
  intros [] [] Hd.
  destruct u as [uid un em fn ln age h w bal act ca ua lc sc de].
  cbn [ID Username Email FirstName LastName Age Height Weight Balance
       IsActive CreatedAt UpdatedAt LoginCount Score Description] in *.
  subst de. leading_fields.
  rewrite bind_readBytes_eof by (vm_compute; discriminate). reflexivity.
Qed.
End TaggedRoundTrip.

(* ================================================================== *)
(** * The binary layout: codec, sizes, write then read *)

(** X1.  The Binary codec gives back what it was given: for a record whose
    integers are within their types and whose text fields are shorter than
    2^31 bytes, [decodeBinary (encodeBinary u)] is [u], all fifteen fields,
    floats bit for bit. *)
Theorem Binary_codec_round_trip (u : UserInfo) :
  wf_user u -> textFits u ->
  BinaryStrategy.decodeBinary (BinaryStrategy.encodeBinary u) = Ok u.
Proof. exact (decodeBinary_encodeBinary u). Qed.

Lemma wf_sample (id : Z) (balance : float64) (d : string) :
  in_int 64 id -> in_uint 64 balance -> wf_user (sample id balance d).
Proof.
  intros Hid Hb. split; try assumption; vm_compute; split;
    solve [discriminate | reflexivity].
Qed.

Lemma fits_sample (id : Z) (balance : float64) (d : string) :
  len (str d) < 2 ^ 31 -> textFits (sample id balance d).
Proof. intros Hd. split; try assumption; vm_compute; reflexivity. Qed.

Lemma Binary_codec_round_trip_witness :
  let u := sample 1 (F64.of_int 10) "one" in
  BinaryStrategy.decodeBinary (BinaryStrategy.encodeBinary u) = Ok u.
Proof.
  intros u. apply Binary_codec_round_trip.
  - apply wf_sample; vm_compute; split; solve [discriminate | reflexivity].
  - apply fits_sample. vm_compute. reflexivity.
Defined.

(** X2.  The tagged codec gives back every record whose description is not
    empty: encoding never fails, and decoding the encoding returns the
    record. *)
Theorem BinaryWithNames_codec_round_trip (u : UserInfo) :
  wf_user u -> textFits u -> Description u <> [] ->
  (data <- BinaryWithNamesStrategy.encodeBinaryWithNames u ;;
   BinaryWithNamesStrategy.decodeBinaryWithNames data) = Ok u.
Proof.
  intros Hwf Hfit Hd. rewrite encodeBinaryWithNames_bytes. cbn [bind].
  now apply decodeBinaryWithNames_taggedBytes.
Qed.

Lemma BinaryWithNames_codec_round_trip_witness :
  let u := sample 1 (F64.of_int 10) "one" in
  (data <- BinaryWithNamesStrategy.encodeBinaryWithNames u ;;
   BinaryWithNamesStrategy.decodeBinaryWithNames data) = Ok u.
Proof.
  intros u. apply BinaryWithNames_codec_round_trip.
  - apply wf_sample; vm_compute; split; solve [discriminate | reflexivity].
  - apply fits_sample. vm_compute. reflexivity.
  - discriminate.
Defined.

Lemma len_app (a b : bytes) : len (a ++ b) = len a + len b.
Proof. unfold len. rewrite length_app. lia. Qed.

Lemma len_le_put (n : nat) (z : Z) : len (le_put n z) = Z.of_nat n.
Proof. unfold len. now rewrite length_le_put. Qed.

Lemma len_bool_byte (b : bool) : len (bool_byte b) = 1.
Proof. reflexivity. Qed.

Lemma len_encodeBinary (u : UserInfo) :
  len (BinaryStrategy.encodeBinary u) = 77 + textLength u.
Proof.
  unfold BinaryStrategy.encodeBinary, BinaryStrategy.writeString, textLength.
  rewrite !len_app, !len_le_put, len_bool_byte. lia.
Qed.

Lemma len_fieldBytes (name : string) (tag : Z) (payload : bytes) :
  len (fieldBytes name tag payload) = 5 + len (str name) + len payload.
Proof.
  unfold fieldBytes. rewrite !len_app, len_le_put.
  change (len [byte_of_Z tag]) with 1. lia.
Qed.

Lemma encoded_sizes_aux (u : UserInfo) :
  len (BinaryStrategy.encodeBinary u) = 77 + textLength u
  /\ len (taggedBytes u) = len (BinaryStrategy.encodeBinary u) + 191.
Proof.
  split; [apply len_encodeBinary|].
  rewrite len_encodeBinary. unfold taggedBytes, textPayload, textLength.
  rewrite !len_app, !len_fieldBytes, !len_app, !len_le_put, len_bool_byte.
  vm_compute (len (str _)). lia.
Qed.

(** X3.  Sizes of the two hand-written encodings.  A Binary value takes 77
    bytes plus the bytes of the five text fields; a Binary+Names value is
    the same record with the field count, the fifteen names, their length
    prefixes and the type markers added, 191 bytes more. *)
Theorem encoded_sizes (u : UserInfo) :
  len (BinaryStrategy.encodeBinary u) = 77 + textLength u
  /\ exists data,
       BinaryWithNamesStrategy.encodeBinaryWithNames u = Ok data
       /\ len data = len (BinaryStrategy.encodeBinary u) + 191.
Proof.
  split; [apply len_encodeBinary|].
  exists (taggedBytes u). split; [apply encodeBinaryWithNames_bytes|].
  apply encoded_sizes_aux.
Qed.

Lemma idKey_inj (a b : Z) : idKey a = idKey b -> uint64 a = uint64 b.
Proof.
  unfold idKey. intros H. apply (f_equal be_get) in H.
  rewrite !be_get_be_put in H. unfold uint64, uint in *.
  change (256 ^ Z.of_nat 8) with (2 ^ 64) in H.
  now rewrite !Z.mod_mod in H by lia.
Qed.

Lemma idKey_size (id : Z) : 0 < len (idKey id) <= MaxKeySize.
Proof. rewrite len_idKey. unfold MaxKeySize. lia. Qed.

Lemma Binary_Read_stored (db : DB) (b : Bucket) (id : Z) (u : UserInfo) :
  GetBucket db BinaryStrategy.bucketName = Some b ->
  Get b (idKey id) = Some (BinaryStrategy.encodeBinary u) ->
  wf_user u -> textFits u ->
  BinaryStrategy.Read db id = Return (Some u, None).
Proof.
  intros Hb Hk Hwf Hfit. unfold BinaryStrategy.Read, View.
  rewrite Hb, Hk. now rewrite decodeBinary_encodeBinary.
Qed.

Lemma Binary_Write_stored (db : DB) (b : Bucket) (u : UserInfo) :
  GetBucket db BinaryStrategy.bucketName = Some b -> flat b ->
  len (BinaryStrategy.encodeBinary u) <= MaxValueSize ->
  BinaryStrategy.Write db u =
    (SetBucket db BinaryStrategy.bucketName
       (insert b (idKey (ID u)) (Leaf (BinaryStrategy.encodeBinary u))),
     Return None).
Proof.
  intros Hb Hflat Hlen. rewrite (Binary_Write_step db b u Hb).
  unfold BinaryStep. now rewrite Put_ok by auto using idKey_size.
Qed.

(** X4.  On a set-up Binary store, writing a record and reading its id
    gives the record back, and the write changes what no other id reads:
    ids are told apart by their 64 bits. *)
Theorem Binary_Write_then_Read (db : DB) (b : Bucket) (u : UserInfo) :
  GetBucket db BinaryStrategy.bucketName = Some b -> flat b ->
  wf_user u -> textFits u ->
  len (BinaryStrategy.encodeBinary u) <= MaxValueSize ->
  let db' := fst (BinaryStrategy.Write db u) in
  snd (BinaryStrategy.Write db u) = Return None
  /\ BinaryStrategy.Read db' (ID u) = Return (Some u, None)
  /\ (forall id, uint64 id <> uint64 (ID u) ->
        BinaryStrategy.Read db' id = BinaryStrategy.Read db id).
Proof.
  intros Hb Hflat Hwf Hfit Hlen db'. subst db'.
  rewrite (Binary_Write_stored db b u Hb Hflat Hlen). cbn [fst snd].
  split; [reflexivity|]. split.
  - eapply Binary_Read_stored; eauto using GetBucket_SetBucket.
    apply Get_insert_same.
  - intros id Hid. unfold BinaryStrategy.Read, View.
    rewrite (GetBucket_SetBucket _ _ _ _ Hb), Hb.
    rewrite Get_insert_other; [reflexivity|].
    intros E. apply idKey_inj in E. congruence.
Qed.

Lemma Binary_Write_then_Read_witness :
  let u := sample 2 (F64.of_int 20) "two" in
  let db := populated Binary false [sample 1 (F64.of_int 10) "one"] in
  BinaryStrategy.Read (fst (BinaryStrategy.Write db u)) 2 =
    Return (Some u, None)
  /\ BinaryStrategy.Read (fst (BinaryStrategy.Write db u)) 1 =
       BinaryStrategy.Read db 1.
Proof.
  intros u db.
  destruct (Binary_Write_then_Read db
              [BinaryEntry (sample 1 (F64.of_int 10) "one")] u)
    as (_ & Hr & Hframe).
  - vm_compute. reflexivity.
  - apply flatb_flat. vm_compute. reflexivity.
  - apply wf_sample; vm_compute; split; solve [discriminate | reflexivity].
  - apply fits_sample. vm_compute. reflexivity.
  - vm_compute. discriminate.
  - split; [exact Hr|]. apply Hframe. vm_compute. discriminate.
Defined.

Lemma Binary_Read_after_put (db : DB) (b : Bucket) (id : Z) (u : UserInfo) :
  GetBucket db BinaryStrategy.bucketName = Some b ->
  wf_user u -> textFits u ->
  BinaryStrategy.Read
    (SetBucket db BinaryStrategy.bucketName
       (insert b (idKey id) (Leaf (BinaryStrategy.encodeBinary u)))) id =
    Return (Some u, None).
Proof.
  intros Hb Hwf Hfit.
  eapply Binary_Read_stored; eauto using GetBucket_SetBucket.
  apply Get_insert_same.
Qed.

Ltac binary_update Hb Hk :=
  unfold BinaryStrategy.UpdateField, Update;
  rewrite Hb; cbn [deref bind]; rewrite Hk;
  rewrite decodeBinary_encodeBinary by assumption; cbn [bind];
  repeat match goal with
         | |- context [bytes_eqb (str ?a) (str ?b)] =>
             let r := eval vm_compute in (bytes_eqb (str a) (str b)) in
             change (bytes_eqb (str a) (str b)) with r
         end;
  cbv iota; cbn [assert_type as_float64 as_int32 bind].

(** X5.  [BinaryStrategy.UpdateField] on a stored record: "balance",
    "login_count" and "score" with a value of the declared type replace
    that field and nothing else, as the following read shows; any other
    field name is accepted without an error and leaves the record as it
    was. *)
Theorem Binary_UpdateField_then_Read (db : DB) (b : Bucket) (id : Z)
    (u : UserInfo) (v : float64) (n : Z) (fieldName : bytes) :
  GetBucket db BinaryStrategy.bucketName = Some b -> flat b ->
  Get b (idKey id) = Some (BinaryStrategy.encodeBinary u) ->
  wf_user u -> textFits u ->
  len (BinaryStrategy.encodeBinary u) <= MaxValueSize ->
  in_uint 64 v -> in_int 32 n ->
  ~ In fieldName [str "balance"; str "login_count"; str "score"] ->
  let after f value :=
    let r := BinaryStrategy.UpdateField db id f value in
    (snd r, BinaryStrategy.Read (fst r) id) in
  after (str "balance") (VFloat64 v) =
    (Return None, Return (Some (set_Balance u v), None))
  /\ after (str "login_count") (VInt32 n) =
       (Return None, Return (Some (set_LoginCount u n), None))
  /\ after (str "score") (VFloat64 v) =
       (Return None, Return (Some (set_Score u v), None))
  /\ (forall value,
        after fieldName value = (Return None, Return (Some u, None))).
Proof.
  intros Hb Hflat Hk Hwf Hfit Hlen Hv Hn Hother after. subst after.
  cbv beta zeta.
  assert (forall u', textLength u' = textLength u ->
            len (BinaryStrategy.encodeBinary u') <= MaxValueSize) as Hsize.
  { intros u' E. rewrite len_encodeBinary, E, <- len_encodeBinary.
    exact Hlen. }
  repeat split.
  - binary_update Hb Hk.
    rewrite Put_ok by auto using idKey_size. cbn [bind fst snd].
    rewrite Binary_Read_after_put; [reflexivity|assumption| |].
    + destruct Hwf. split; assumption.
    + destruct Hfit. split; assumption.
  - binary_update Hb Hk.
    rewrite Put_ok by auto using idKey_size. cbn [bind fst snd].
    rewrite Binary_Read_after_put; [reflexivity|assumption| |].
    + destruct Hwf. split; assumption.
    + destruct Hfit. split; assumption.
  - binary_update Hb Hk.
    rewrite Put_ok by auto using idKey_size. cbn [bind fst snd].
    rewrite Binary_Read_after_put; [reflexivity|assumption| |].
    + destruct Hwf. split; assumption.
    + destruct Hfit. split; assumption.
  - intros value.
    unfold BinaryStrategy.UpdateField, Update.
    rewrite Hb. cbn [deref bind]. rewrite Hk.
    rewrite decodeBinary_encodeBinary by assumption. cbn [bind].
    assert (forall f, In (str f) [str "balance"; str "login_count"; str "score"]
                      -> bytes_eqb fieldName (str f) = false) as Hne.
    { intros f Hin. apply bytes_eqb_neq. intros ->. contradiction. }
    rewrite !Hne by (simpl; auto). cbn [bind].
    rewrite Put_ok by auto using idKey_size. cbn [bind fst snd].
    now rewrite Binary_Read_after_put.
Qed.

Lemma Binary_UpdateField_then_Read_witness :
  let u := sample 1 (F64.of_int 10) "one" in
  let db := populated Binary false [u] in
  let r := BinaryStrategy.UpdateField db 1 (str "balance")
             (VFloat64 (F64.of_int 5)) in
  (snd r, BinaryStrategy.Read (fst r) 1) =
    (Return None, Return (Some (set_Balance u (F64.of_int 5)), None)).
Proof.
  intros u db r.
  destruct (Binary_UpdateField_then_Read db [BinaryEntry u] 1 u
              (F64.of_int 5) 3 (str "age")) as (H & _).
  - vm_compute. reflexivity.
  - apply flatb_flat. vm_compute. reflexivity.
  - vm_compute. reflexivity.
  - apply wf_sample; vm_compute; split; solve [discriminate | reflexivity].
  - apply fits_sample. vm_compute. reflexivity.
  - vm_compute. discriminate.
  - vm_compute. split; solve [discriminate | reflexivity].
  - vm_compute. split; solve [discriminate | reflexivity].
  - vm_compute. intros [H|[H|[H|[]]]]; discriminate.
  - exact H.
Defined.

(* ================================================================== *)
(** * Range reads: windows, ends and counts *)

Lemma Seek_all_below (b : Bucket) (k : bytes) :
  Forall (fun e => compare_bytes (fst e) k = Lt) b -> Seek b k = [].
Proof.
  induction 1 as [|[k' n] r Hlt _ IH]; [reflexivity|].
  simpl in *. unfold bytes_ltb. now rewrite Hlt.
Qed.

Lemma idKey_negative_last (a k : Z) :
  0 <= a < 2 ^ 63 -> - 2 ^ 63 <= k < 0 ->
  compare_bytes (idKey a) (idKey k) = Lt.
Proof.
  intros Ha Hk. unfold idKey. rewrite compare_be_put.
  unfold uint64, uint. change (256 ^ Z.of_nat 8) with (2 ^ 64).
  rewrite !Z.mod_mod by lia.
  rewrite (Z.mod_small a) by lia.
  replace (k mod 2 ^ 64) with (k + 2 ^ 64).
  - apply Z.compare_lt_iff. lia.
  - apply Z.mod_unique with (q := -1); lia.
Qed.

(** X6.  [BinaryStrategy.ReadMany] on a store populated with the ids 0, 1,
    ..., N-1, in either insertion mode.  From a start id that is not
    negative it returns the records from that id on, at most [count] of them
    and none when [count] is not positive or the start lies past the last
    id, with a nil error.  From a negative start id it returns nothing:
    keys are ordered as unsigned numbers, which puts a negative id after
    every stored one. *)
Theorem Binary_ReadMany_window (mode : bool) (users : list UserInfo)
    (k c : Z) :
  storable users -> idsFrom 0 users ->
  (0 <= k < 2 ^ 63 ->
   BinaryStrategy.ReadMany (populated Binary mode users) k c =
     Return (firstn (Z.to_nat c) (skipn (Z.to_nat k) users), None))
  /\ (- 2 ^ 63 <= k < 0 ->
      BinaryStrategy.ReadMany (populated Binary mode users) k c =
        Return ([], None)).
Proof.
  intros Hs Hids. split; intros Hk; unfold BinaryStrategy.ReadMany, View;
    rewrite (populated_Binary mode users Hs).
  - rewrite (Seek_idsFrom users 0 k) by (auto; lia).
    rewrite Z.sub_0_r.
    rewrite Binary_readMany_entries by (apply Forall_skipn; apply Hs).
    now rewrite Z.sub_0_r.
  - rewrite Seek_all_below; [reflexivity|].
    apply Forall_map. destruct Hs as [_ Hr _ _ _].
    eapply Forall_impl; [|exact Hr].
    intros u Hu. cbn [BinaryEntry fst]. now apply idKey_negative_last.
Qed.

Lemma Binary_ReadMany_window_witness :
  BinaryStrategy.ReadMany (populated Binary true fiveUsers) 3 10 =
    Return (skipn 3 fiveUsers, None)
  /\ BinaryStrategy.ReadMany (populated Binary true fiveUsers) 7 10 =
       Return ([], None)
  /\ BinaryStrategy.ReadMany (populated Binary true fiveUsers) (-1) 10 =
       Return ([], None).
Proof.
  assert (idsFrom 0 fiveUsers) as Hids by (vm_compute; tauto).
  split; [|split].
  - apply (proj1 (Binary_ReadMany_window true fiveUsers 3 10
                    storable_fiveUsers Hids)).
    in_range.
  - apply (proj1 (Binary_ReadMany_window true fiveUsers 7 10
                    storable_fiveUsers Hids)).
    in_range.
  - apply (proj2 (Binary_ReadMany_window true fiveUsers (-1) 10
                    storable_fiveUsers Hids)).
    in_range.
Defined.

Ltac each_bucket H :=
  cbn [buckets In] in H;
  repeat (destruct H as [H|H]; [injection H as <- <-|]); [..|contradiction].

(** X7.  A count that is not positive reads nothing: on a set-up store,
    [ReadMany] of each of the six strategies returns no record and a nil
    error whatever the start id, and [ReadFieldSum] returns 0 and a nil
    error whatever the field name. *)
Theorem nonpositive_count_reads_nothing (json gob : Codec)
    (s : StorageStrategy) (name : bytes) (db : DB) (b : Bucket)
    (startId count : Z) (fieldName : bytes) :
  In (s, name) (buckets json gob) ->
  GetBucket db name = Some b ->
  count <= 0 ->
  ReadMany s db startId count = Return ([], None)
  /\ ReadFieldSum s db fieldName count = Return (F64.zero, None).
Proof.
  intros Hin Hb Hc.
  assert ((0 <? count) = false) as H0 by lia.
  each_bucket Hin; cbn [ReadMany ReadFieldSum JSON GOB Binary BinaryWithNames
                          MultiKV NestedBucket];
    split.
  - unfold JSONStrategy.ReadMany, View. rewrite Hb.
    destruct (Seek b (idKey startId)) as [|[k v] r]; [reflexivity|].
    cbn [JSONStrategy.readMany_loop]. now rewrite H0.
  - unfold JSONStrategy.ReadFieldSum, View, First. rewrite Hb.
    destruct b as [|[k v] r]; [reflexivity|].
    cbn [JSONStrategy.readFieldSum_loop]. now rewrite H0.
  - unfold GOBStrategy.ReadMany, View. rewrite Hb.
    destruct (Seek b (idKey startId)) as [|[k v] r]; [reflexivity|].
    cbn [JSONStrategy.readMany_loop]. now rewrite H0.
  - unfold GOBStrategy.ReadFieldSum, View, First. rewrite Hb.
    destruct b as [|[k v] r]; [reflexivity|].
    cbn [JSONStrategy.readFieldSum_loop]. now rewrite H0.
  - unfold BinaryStrategy.ReadMany, View. rewrite Hb.
    destruct (Seek b (idKey startId)) as [|[k v] r]; [reflexivity|].
    cbn [BinaryStrategy.readMany_loop]. now rewrite H0.
  - unfold BinaryStrategy.ReadFieldSum, View, First. rewrite Hb.
    destruct b as [|[k v] r]; [reflexivity|].
    cbn [BinaryStrategy.readFieldSum_loop]. now rewrite H0.
  - unfold BinaryWithNamesStrategy.ReadMany, View. rewrite Hb.
    destruct (Seek b (idKey startId)) as [|[k v] r]; [reflexivity|].
    cbn [BinaryWithNamesStrategy.readMany_loop]. now rewrite H0.
  - unfold BinaryWithNamesStrategy.ReadFieldSum, View, First. rewrite Hb.
    destruct b as [|[k v] r]; [reflexivity|].
    cbn [BinaryWithNamesStrategy.readFieldSum_loop]. now rewrite H0.
  - unfold MultiKVStrategy.ReadMany, View. rewrite Hb.
    destruct (Seek b (idKey startId)) as [|[k v] r]; [reflexivity|].
    cbn [MultiKVStrategy.readMany_loop MultiKVStrategy.count_of List.length
           Z.of_nat].
    now rewrite H0.
  - unfold MultiKVStrategy.ReadFieldSum, View, First. rewrite Hb.
    destruct b as [|[k v] r]; [reflexivity|].
    cbn [MultiKVStrategy.readFieldSum_loop]. now rewrite H0.
  - unfold NestedBucketStrategy.ReadMany, View. rewrite Hb.
    destruct (Seek b (idKey startId)) as [|[k v] r]; [reflexivity|].
    cbn [NestedBucketStrategy.readMany_loop List.length Z.of_nat].
    now rewrite H0.
  - unfold NestedBucketStrategy.ReadFieldSum, View, First. rewrite Hb.
    destruct b as [|[k v] r]; [reflexivity|].
    cbn [NestedBucketStrategy.readFieldSum_loop]. now rewrite H0.
Qed.

Lemma nonpositive_count_reads_nothing_witness :
  let db := populated MultiKV true fiveUsers in
  ReadMany MultiKV db 0 0 = Return ([], None)
  /\ ReadFieldSum MultiKV db (str "balance") 0 = Return (F64.zero, None).
Proof.
  intros db.
  destruct (GetBucket db MultiKVStrategy.bucketName) as [b|] eqn:Hb;
    [|vm_compute in Hb; discriminate].
  apply (nonpositive_count_reads_nothing noCodec noCodec MultiKV
           MultiKVStrategy.bucketName db b).
  - cbn [buckets In]. auto 10.
  - exact Hb.
  - lia.
Defined.

(* ================================================================== *)
(** * Missing records, missing buckets, repeated set-up *)

Lemma lookup_None_Get (b : Bucket) (k : bytes) :
  lookup b k = None -> Get b k = None /\ GetBucket b k = None.
Proof. intros H. unfold Get, GetBucket. now rewrite H. Qed.

(** X8.  Five of the six strategies report an id that is not stored: on a
    set-up store whose bucket has no entry under the key of [id], [Read]
    returns the error "user not found", next to a nil record (Binary,
    Binary+Names) or to a zero-filled one (JSON, GOB, NestedBucket), and
    [UpdateField] returns the same error and leaves the store as it was,
    whatever the field name and the value.  MultiKV is the exception. *)
Theorem missing_id_is_reported (json gob : Codec) (s : StorageStrategy)
    (name : bytes) (db : DB) (b : Bucket) (id : Z) (fieldName : bytes)
    (value : any) :
  In (s, name) (buckets json gob) ->
  name <> MultiKVStrategy.bucketName ->
  GetBucket db name = Some b ->
  lookup b (idKey id) = None ->
  (exists r, Read s db id = Return (r, Some UserNotFound)
             /\ (r = None \/ r = Some zeroUser))
  /\ UpdateField s db id fieldName value = (db, Return (Some UserNotFound)).
Proof.
  intros Hin Hname Hb Hk. apply lookup_None_Get in Hk as [Hget Hsub].
  each_bucket Hin; cbn [Read UpdateField JSON GOB Binary BinaryWithNames
                          MultiKV NestedBucket]; try contradiction; split.
  - exists (Some zeroUser). split; [|now right].
    now apply (JSON_Read_absent db b id json).
  - unfold JSONStrategy.UpdateField, Update. rewrite Hb. cbn [deref bind].
    now rewrite Hget.
  - exists (Some zeroUser). split; [|now right].
    now apply (GOB_Read_absent db b id gob).
  - unfold GOBStrategy.UpdateField, Update. rewrite Hb. cbn [deref bind].
    now rewrite Hget.
  - exists None. split; [|now left]. now apply (Binary_Read_absent db b id).
  - now apply (Binary_UpdateField_absent db b id).
  - exists None. split; [|now left].
    now apply (BinaryWithNames_Read_absent db b id).
  - now apply (BinaryWithNames_UpdateField_absent db b id).
  - exists (Some zeroUser). split; [|now right].
    now apply (NestedBucket_Read_absent db b id).
  - now apply (NestedBucket_UpdateField_absent db b id).
Qed.

Lemma missing_id_is_reported_witness :
  let db := populated NestedBucket false [sample 1 (F64.of_int 10) "one"] in
  (exists r, Read NestedBucket db 2 = Return (r, Some UserNotFound)
             /\ (r = None \/ r = Some zeroUser))
  /\ UpdateField NestedBucket db 2 (str "balance") (VFloat64 F64.zero) =
       (db, Return (Some UserNotFound)).
Proof.
  intros db.
  destruct (GetBucket db NestedBucketStrategy.bucketName) as [b|] eqn:Hb;
    [|vm_compute in Hb; discriminate].
  apply (missing_id_is_reported noCodec noCodec NestedBucket
           NestedBucketStrategy.bucketName db b).
  - cbn [buckets In]. auto 10.
  - vm_compute. discriminate.
  - exact Hb.
  - vm_compute in Hb. injection Hb as <-. vm_compute. reflexivity.
Defined.

(** X9.  [BinaryWithNamesStrategy] on a store where [Setup] has not run.
    The four methods that test the bucket for nil return the error "bucket
    users_binary_names not found" and change nothing; [ReadMany] and
    [WriteMany] of at least one record have no such test and panic on the
    nil bucket. *)
Theorem BinaryWithNames_without_bucket (db : DB) (u : UserInfo)
    (rest : list UserInfo) (id count : Z) (fieldName : bytes) (value : any) :
  GetBucket db BinaryWithNamesStrategy.bucketName = None ->
  BinaryWithNamesStrategy.Write db u = (db, Return (Some BucketNotFound))
  /\ BinaryWithNamesStrategy.Read db id = Return (None, Some BucketNotFound)
  /\ BinaryWithNamesStrategy.UpdateField db id fieldName value =
       (db, Return (Some BucketNotFound))
  /\ BinaryWithNamesStrategy.ReadFieldSum db fieldName count =
       Return (F64.zero, Some BucketNotFound)
  /\ BinaryWithNamesStrategy.ReadMany db id count = Crash NilDereference
  /\ BinaryWithNamesStrategy.WriteMany db (u :: rest) =
       (db, Crash NilDereference).
Proof.
  intros Hb.
  unfold BinaryWithNamesStrategy.Write, BinaryWithNamesStrategy.Read,
    BinaryWithNamesStrategy.UpdateField, BinaryWithNamesStrategy.ReadFieldSum,
    BinaryWithNamesStrategy.ReadMany, BinaryWithNamesStrategy.WriteMany,
    Update, View.
  rewrite Hb. cbn [BinaryWithNamesStrategy.writeMany_loop].
  rewrite encodeBinaryWithNames_bytes. repeat split.
Qed.

Lemma BinaryWithNames_without_bucket_witness :
  BinaryWithNamesStrategy.Read [] 1 = Return (None, Some BucketNotFound)
  /\ BinaryWithNamesStrategy.ReadMany [] 1 1 = Crash NilDereference.
Proof.
  destruct (BinaryWithNames_without_bucket [] zeroUser [] 1 1 [] VNil)
    as (_ & Hr & _ & _ & Hm & _).
  - reflexivity.
  - split; [exact Hr|exact Hm].
Defined.

Lemma Setup_bucket (name : bytes) (db : DB) :
  len name <> 0 ->
  Update db (fun tx =>
    '(tx', _) <- CreateBucketIfNotExists tx name ;; Ok tx') =
  match lookup db name with
  | Some (Sub _) => (db, Return None)
  | Some (Leaf _) => (db, Return (Some (StoreError ErrIncompatibleValue)))
  | None => (insert db name (Sub []), Return None)
  end.
Proof.
  intros Hn. unfold Update, CreateBucketIfNotExists.
  apply Z.eqb_neq in Hn. rewrite Hn.
  destruct (lookup db name) as [[v|s]|]; reflexivity.
Qed.

(** X10.  [Setup] of each of the six strategies creates the strategy's
    bucket, empty, when the store has none, and is harmless when run again:
    on a store that has the bucket it changes nothing, so the records stay,
    and it returns a nil error both times. *)
Theorem Setup_creates_once (json gob : Codec) (s : StorageStrategy)
    (name : bytes) (db : DB) :
  In (s, name) (buckets json gob) ->
  (lookup db name = None ->
   Setup s db = (insert db name (Sub []), Return None)
   /\ GetBucket (fst (Setup s db)) name = Some [])
  /\ (forall b, GetBucket db name = Some b -> Setup s db = (db, Return None))
  /\ snd (Setup s (fst (Setup s db))) = snd (Setup s db)
  /\ fst (Setup s (fst (Setup s db))) = fst (Setup s db).
Proof.
  intros Hin.
  assert (len name <> 0 /\
          Setup s = fun db => Update db (fun tx =>
            '(tx', _) <- CreateBucketIfNotExists tx name ;; Ok tx'))
    as [Hn ->].
  { each_bucket Hin; split; solve [vm_compute; discriminate | reflexivity]. }
  rewrite !Setup_bucket by exact Hn.
  split; [|split].
  - intros ->. split; [reflexivity|]. cbn [fst]. unfold GetBucket.
    now rewrite lookup_insert_same.
  - intros b Hb. unfold GetBucket in Hb.
    destruct (lookup db name) as [[v|c]|]; try discriminate. reflexivity.
  - destruct (lookup db name) as [[v|c]|] eqn:E; cbn [fst snd].
    + rewrite E. split; reflexivity.
    + rewrite E. split; reflexivity.
    + rewrite lookup_insert_same. split; reflexivity.
Qed.

Lemma Setup_creates_once_witness :
  Setup Binary (populated Binary true fiveUsers) =
    (populated Binary true fiveUsers, Return None).
Proof.
  destruct (Setup_creates_once noCodec noCodec Binary
              BinaryStrategy.bucketName (populated Binary true fiveUsers))
    as (_ & H & _).
  - cbn [buckets In]. auto 10.
  - apply (H (map BinaryEntry fiveUsers)).
    apply populated_Binary, storable_fiveUsers.
Defined.

(* ================================================================== *)
(** * Transactions: all or nothing, and the two insertion modes *)

Lemma Update_rollback (db : DB) (fn : DB -> res DB) :
  snd (Update db fn) <> Return None -> fst (Update db fn) = db.
Proof.
  unfold Update. destruct (fn db); cbn [fst snd]; [congruence| |]; reflexivity.
Qed.

Lemma writes_roll_back (json gob : Codec) (s : StorageStrategy)
    (name : bytes) (db : DB) :
  In (s, name) (buckets json gob) ->
  (forall u, snd (Write s db u) <> Return None -> fst (Write s db u) = db)
  /\ (forall users, snd (WriteMany s db users) <> Return None ->
                    fst (WriteMany s db users) = db)
  /\ (forall id f v, snd (UpdateField s db id f v) <> Return None ->
                     fst (UpdateField s db id f v) = db)
  /\ (snd (Setup s db) <> Return None -> fst (Setup s db) = db).
Proof.
  intros Hin.
  each_bucket Hin; cbn [Write WriteMany UpdateField Setup JSON GOB Binary
                          BinaryWithNames MultiKV NestedBucket];
    repeat split; intros; now apply Update_rollback.
Qed.

(** X11.  Every writing method of the six strategies is all or nothing:
    when [Write], [WriteMany], [UpdateField] or [Setup] returns an error or
    panics, the store is what it was before the call.  In particular a
    bulk insertion that fails at some record stores none of the records
    before it. *)
Theorem failed_writes_change_nothing (json gob : Codec) (s : StorageStrategy)
    (name : bytes) (db : DB) :
  In (s, name) (buckets json gob) ->
  (forall u, snd (Write s db u) <> Return None -> fst (Write s db u) = db)
  /\ (forall users, snd (WriteMany s db users) <> Return None ->
                    fst (WriteMany s db users) = db)
  /\ (forall id f v, snd (UpdateField s db id f v) <> Return None ->
                     fst (UpdateField s db id f v) = db)
  /\ (snd (Setup s db) <> Return None -> fst (Setup s db) = db).
Proof. exact (writes_roll_back json gob s name db). Qed.

Lemma failed_writes_change_nothing_witness :
  fst (WriteMany Binary (fresh Binary) [sample 0 F64.zero "zero"; hugeUser]) =
    fresh Binary.
Proof.
  destruct (failed_writes_change_nothing noCodec noCodec Binary
              BinaryStrategy.bucketName (fresh Binary)) as (_ & H & _).
  - cbn [buckets In]. auto 10.
  - apply H. cbn [WriteMany Binary].
    rewrite (Binary_WriteMany_too_large (fresh Binary) []
               [BinaryEntry (sample 0 F64.zero "zero")]).
    + cbn [snd]. discriminate.
    + reflexivity.
    + vm_compute. reflexivity.
    + apply too_large_of_Description. unfold hugeUser.
      rewrite Description_set, len_hugeText. apply Z.le_refl.
Defined.

Lemma writeEach_app (s : StorageStrategy) (us vs : list UserInfo) (db : DB) :
  StrategyVariant.writeEach s db (us ++ vs) =
    match StrategyVariant.writeEach s db us with
    | (db1, Return None) => StrategyVariant.writeEach s db1 vs
    | r => r
    end.
Proof.
  revert db. induction us as [|x us IH]; intros db; [reflexivity|].
  cbn [app StrategyVariant.writeEach].
  destruct (Write s db x) as [db1 [[e|]|p]]; try reflexivity. apply IH.
Qed.

(** X12.  The per-record mode of [WriteAll] stops at the first record whose
    [Write] does not return nil: it returns what that [Write] returned, the
    records after it are not attempted, and, for the six strategies, the
    store holds exactly what the records before it left there. *)
Theorem WriteAll_single_stops_at_first_failure (json gob : Codec)
    (s : StorageStrategy) (name : bytes) (db : DB) (us : list UserInfo)
    (u : UserInfo) (rest : list UserInfo) :
  In (s, name) (buckets json gob) ->
  snd (StrategyVariant.writeEach s db us) = Return None ->
  let db1 := fst (StrategyVariant.writeEach s db us) in
  snd (Write s db1 u) <> Return None ->
  StrategyVariant.WriteAll (single s) db (us ++ u :: rest) = Write s db1 u
  /\ fst (StrategyVariant.WriteAll (single s) db (us ++ u :: rest)) = db1.
Proof.
  intros Hin Hus db1 Hu.
  assert (StrategyVariant.WriteAll (single s) db (us ++ u :: rest) =
          Write s db1 u) as E.
  { unfold StrategyVariant.WriteAll, single. cbn [StrategyVariant.Bulk
      StrategyVariant.Strategy]. rewrite writeEach_app. subst db1.
    destruct (StrategyVariant.writeEach s db us) as [d r]. cbn [fst snd] in *.
    subst r. cbn [StrategyVariant.writeEach].
    destruct (Write s d u) as [d' [[e|]|p]]; cbn [snd] in Hu;
      solve [reflexivity | congruence]. }
  split; [exact E|]. rewrite E.
  now apply (writes_roll_back json gob s name db1 Hin).
Qed.

Lemma WriteAll_single_stops_at_first_failure_witness :
  let zero := sample 0 F64.zero "zero" in
  let two := sample 2 F64.zero "two" in
  fst (StrategyVariant.WriteAll (single Binary) (fresh Binary)
         ([zero] ++ hugeUser :: [two])) =
    fst (StrategyVariant.writeEach Binary (fresh Binary) [zero]).
Proof.
  intros zero two.
  apply (WriteAll_single_stops_at_first_failure noCodec noCodec Binary
           BinaryStrategy.bucketName (fresh Binary) [zero] hugeUser [two]).
  - cbn [buckets In]. auto 10.
  - vm_compute. reflexivity.
  - cbn [Write Binary].
    rewrite (Binary_Write_too_large _ [BinaryEntry zero]).
    + cbn [snd]. discriminate.
    + vm_compute. reflexivity.
    + apply too_large_of_Description. unfold hugeUser.
      rewrite Description_set, len_hugeText. apply Z.le_refl.
Defined.

(* ================================================================== *)
(** * The tagged layout: type checks and the header of a value *)

Lemma assignField_mismatch (user : UserInfo) (name : bytes) (tag : Z)
    (d value : any) :
  In (name, tag, d) (BinaryWithNamesStrategy.fields user) ->
  name <> str "id" -> tagOf value <> tag ->
  BinaryWithNamesStrategy.assignField user name value =
    Fail (MustBe name tag value).
Proof.
  intros Hin Hid Htag. cbn [BinaryWithNamesStrategy.fields In] in Hin.
  repeat (destruct Hin as [Hin|Hin];
          [injection Hin as <- <- _;
           try (exfalso; apply Hid; reflexivity);
           destruct value; try (exfalso; apply Htag; reflexivity);
           reflexivity|]).
  contradiction.
Qed.

Lemma assignField_match (user : UserInfo) (name : bytes) (tag : Z)
    (d value : any) :
  In (name, tag, d) (BinaryWithNamesStrategy.fields user) ->
  name <> str "id" -> tagOf value = tag ->
  exists user', BinaryWithNamesStrategy.assignField user name value = Ok user'.
Proof.
  intros Hin Hid Htag. cbn [BinaryWithNamesStrategy.fields In] in Hin.
  repeat (destruct Hin as [Hin|Hin];
          [injection Hin as <- <- _;
           try (exfalso; apply Hid; reflexivity);
           destruct value; try discriminate Htag;
           eexists; reflexivity|]).
  contradiction.
Qed.

(** X13.  The type check of [BinaryWithNamesStrategy.UpdateField] agrees
    with the table of the encoder: for each field of the table other than
    "id", a value whose dynamic type is not the one the table gives the
    field is refused with the error "<field> must be <type>", the store
    unchanged, and a value of that type passes the check. *)
Theorem BinaryWithNames_UpdateField_checks_types (db : DB) (b : Bucket)
    (id : Z) (data : bytes) (user : UserInfo) (name : bytes) (tag : Z)
    (d value : any) :
  GetBucket db BinaryWithNamesStrategy.bucketName = Some b ->
  Get b (idKey id) = Some data ->
  BinaryWithNamesStrategy.decodeBinaryWithNames data = Ok user ->
  In (name, tag, d) (BinaryWithNamesStrategy.fields user) ->
  name <> str "id" ->
  (tagOf value <> tag ->
   BinaryWithNamesStrategy.UpdateField db id name value =
     (db, Return (Some (MustBe name tag value)))
   /\ kind (MustBe name tag value) = TypeMismatch)
  /\ (tagOf value = tag ->
      exists user',
        BinaryWithNamesStrategy.assignField user name value = Ok user').
Proof.
  intros Hb Hk Hdec Hin Hid. split; intros Htag.
  - split; [|reflexivity].
    unfold BinaryWithNamesStrategy.UpdateField, Update.
    rewrite Hb, Hk, Hdec. cbn [bind].
    now rewrite (assignField_mismatch user name tag d value).
  - now apply (assignField_match user name tag d value).
Qed.

Lemma BinaryWithNames_UpdateField_checks_types_witness :
  let u := sample 1 (F64.of_int 10) "one" in
  let db := populated BinaryWithNames false [u] in
  BinaryWithNamesStrategy.UpdateField db 1 (str "age") (VInt64 40) =
    (db, Return (Some (MustBe (str "age") BinaryWithNamesStrategy.tagInt32
                         (VInt64 40)))).
Proof.
  intros u db.
  destruct (GetBucket db BinaryWithNamesStrategy.bucketName) as [b|] eqn:Hb;
    [|vm_compute in Hb; discriminate].
  destruct (BinaryWithNames_UpdateField_checks_types db b 1 (taggedBytes u) u
              (str "age") BinaryWithNamesStrategy.tagInt32 (VInt32 (Age u))
              (VInt64 40) Hb) as [H _].
  - vm_compute in Hb. injection Hb as <-. vm_compute. reflexivity.
  - vm_compute. reflexivity.
  - cbn [BinaryWithNamesStrategy.fields In]. auto 20.
  - vm_compute. discriminate.
  - apply H. vm_compute. discriminate.
Defined.

(** X14.  The header of a tagged value.  [decodeBinaryWithNames] fails with
    "read field count" on an input shorter than the four bytes of the
    count, with EOF when the input is empty and an unexpected EOF
    otherwise; and when the count is zero or negative it reads no field:
    it returns the zero record and a nil error, whatever bytes follow. *)
Theorem decodeBinaryWithNames_header (data rest : bytes) (n : Z) :
  (len data < 4 ->
   BinaryWithNamesStrategy.decodeBinaryWithNames data =
     Fail (ReadFailed ReadFieldCount []
             (match data with [] => EOF | _ => ErrUnexpectedEOF end)))
  /\ (in_int 32 n -> n <= 0 ->
      BinaryWithNamesStrategy.decodeBinaryWithNames (le_put 4 n ++ rest) =
        Ok zeroUser).
Proof.
  split.
  - intros Hlen. unfold len in Hlen.
    assert ((4 <=? List.length data)%nat = false) as E
      by (apply Nat.leb_gt; lia).
    unfold BinaryWithNamesStrategy.decodeBinaryWithNames, Reader.run,
      BinaryWithNamesStrategy.checked, Reader.binary_Read, Reader.ReadFull.
    repeat unfold Reader.bindR. rewrite E. now destruct data.
  - intros Hn Hle.
    unfold BinaryWithNamesStrategy.decodeBinaryWithNames, Reader.run.
    rewrite bind_checked_binary_Read, int32_roundtrip by exact Hn.
    now replace (Z.to_nat n) with O by lia.
Qed.

Lemma BinaryWithNames_Read_stored (db : DB) (b : Bucket) (id : Z)
    (data : bytes) :
  GetBucket db BinaryWithNamesStrategy.bucketName = Some b ->
  Get b (idKey id) = Some data ->
  BinaryWithNamesStrategy.Read db id =
    match BinaryWithNamesStrategy.decodeBinaryWithNames data with
    | Ok user => Return (Some user, None)
    | Fail e => Return (None, Some e)
    | Panic p => Crash p
    end.
Proof.
  intros Hb Hk. unfold BinaryWithNamesStrategy.Read, View. now rewrite Hb, Hk.
Qed.

(** X15.  [BinaryWithNamesStrategy.UpdateField] on a stored record, for a
    field and a value that pass its checks: the call returns nil and stores
    the record with that field replaced.  The following [Read] returns the
    new record when its description is not empty; when the update has
    emptied the description, the stored value can no longer be decoded and
    [Read] fails with "read str description: EOF". *)
Theorem BinaryWithNames_UpdateField_then_Read (db : DB) (b : Bucket) (id : Z)
    (data : bytes) (u u' : UserInfo) (fieldName : bytes) (value : any) :
  GetBucket db BinaryWithNamesStrategy.bucketName = Some b -> flat b ->
  Get b (idKey id) = Some data ->
  BinaryWithNamesStrategy.encodeBinaryWithNames u = Ok data ->
  wf_user u -> textFits u -> Description u <> [] ->
  BinaryWithNamesStrategy.assignField u fieldName value = Ok u' ->
  wf_user u' -> textFits u' ->
  len (BinaryStrategy.encodeBinary u') + 191 <= MaxValueSize ->
  let r := BinaryWithNamesStrategy.UpdateField db id fieldName value in
  snd r = Return None
  /\ (Description u' <> [] ->
      BinaryWithNamesStrategy.Read (fst r) id = Return (Some u', None))
  /\ (Description u' = [] ->
      BinaryWithNamesStrategy.Read (fst r) id =
        Return (None, Some (ReadFailed ReadStr (str "description") EOF))).
Proof.
  intros Hb Hflat Hk Henc Hwf Hfit Hd Hassign Hwf' Hfit' Hlen r.
  rewrite encodeBinaryWithNames_bytes in Henc. injection Henc as <-.
  assert (len (taggedBytes u') <= MaxValueSize) as Hlen'.
  { destruct (encoded_sizes_aux u') as [E1 E2]. lia. }
  assert (r = (SetBucket db BinaryWithNamesStrategy.bucketName
                 (insert b (idKey id) (Leaf (taggedBytes u'))), Return None))
    as ->.
  { subst r. unfold BinaryWithNamesStrategy.UpdateField, Update.
    rewrite Hb, Hk, decodeBinaryWithNames_taggedBytes by assumption.
    cbn [bind]. rewrite Hassign. cbn [bind].
    rewrite encodeBinaryWithNames_bytes. cbn [bind].
    now rewrite Put_ok by auto using idKey_size. }
  cbn [fst snd]. split; [reflexivity|].
  split; intros Hd';
    rewrite (BinaryWithNames_Read_stored _
               (insert b (idKey id) (Leaf (taggedBytes u'))) id
               (taggedBytes u'))
      by (eauto using GetBucket_SetBucket, Get_insert_same).
  - now rewrite decodeBinaryWithNames_taggedBytes.
  - now rewrite decodeBinaryWithNames_empty_description.
Qed.

Lemma BinaryWithNames_UpdateField_then_Read_witness :
  let u := sample 1 (F64.of_int 10) "one" in
  let db := populated BinaryWithNames false [u] in
  let r := BinaryWithNamesStrategy.UpdateField db 1 (str "description")
             (VString []) in
  snd r = Return None
  /\ BinaryWithNamesStrategy.Read (fst r) 1 =
       Return (None, Some (ReadFailed ReadStr (str "description") EOF)).
Proof.
  intros u db r.
  destruct (GetBucket db BinaryWithNamesStrategy.bucketName) as [b|] eqn:Hb;
    [|vm_compute in Hb; discriminate].
  assert (b = [(idKey 1, Leaf (taggedBytes u))]) as Eb
    by (vm_compute in Hb; injection Hb as <-; vm_compute; reflexivity).
  destruct (BinaryWithNames_UpdateField_then_Read db b 1 (taggedBytes u) u
              (set_Description u []) (str "description") (VString []) Hb)
    as (Hr & _ & Hread).
  - apply flatb_flat. rewrite Eb. vm_compute. reflexivity.
  - rewrite Eb. vm_compute. reflexivity.
  - apply encodeBinaryWithNames_bytes.
  - apply wf_sample; vm_compute; split; solve [discriminate | reflexivity].
  - apply fits_sample. vm_compute. reflexivity.
  - discriminate.
  - vm_compute. reflexivity.
  - split; vm_compute; split; solve [discriminate | reflexivity].
  - split; vm_compute; reflexivity.
  - vm_compute. discriminate.
  - split; [exact Hr|]. apply Hread. reflexivity.
Defined.

(* ================================================================== *)
(** * Keys *)

Lemma uint64_of_nonneg (a : Z) : 0 <= a < 2 ^ 63 -> uint64 a = a.
Proof. intros H. unfold uint64, uint. apply Z.mod_small. lia. Qed.

Lemma uint64_of_neg (a : Z) : - 2 ^ 63 <= a < 0 -> uint64 a = a + 2 ^ 64.
Proof.
  intros H. unfold uint64, uint. symmetry.
  apply Z.mod_unique with (q := -1); lia.
Qed.

Lemma compare_idKey_uint64 (a b : Z) :
  compare_bytes (idKey a) (idKey b) = (uint64 a ?= uint64 b).
Proof.
  unfold idKey. rewrite compare_be_put. unfold uint64, uint.
  change (256 ^ Z.of_nat 8) with (2 ^ 64). now rewrite !Z.mod_mod by lia.
Qed.

(** X16.  The key of a record is the big-endian image of [uint64(id)], and
    a cursor visits keys in byte order.  So distinct ids have distinct keys;
    ids of the same sign are visited in ascending order; and every negative
    id is visited after every id that is not negative. *)
Theorem record_keys_order (a b : Z) :
  in_int 64 a -> in_int 64 b ->
  (idKey a = idKey b <-> a = b)
  /\ (0 <= a -> 0 <= b -> compare_bytes (idKey a) (idKey b) = (a ?= b))
  /\ (a < 0 -> b < 0 -> compare_bytes (idKey a) (idKey b) = (a ?= b))
  /\ (a < 0 -> 0 <= b -> compare_bytes (idKey a) (idKey b) = Gt).
Proof.
  unfold in_int. change (2 ^ (64 - 1)) with (2 ^ 63). intros Ha Hb.
  repeat split.
  - intros E. apply idKey_inj in E.
    destruct (Z.ltb_spec a 0), (Z.ltb_spec b 0);
      rewrite ?(uint64_of_neg a), ?(uint64_of_neg b), ?(uint64_of_nonneg a),
        ?(uint64_of_nonneg b) in E by lia; lia.
  - now intros ->.
  - intros Ha0 Hb0. rewrite compare_idKey_uint64.
    now rewrite !uint64_of_nonneg by lia.
  - intros Ha0 Hb0. rewrite compare_idKey_uint64.
    rewrite !uint64_of_neg by lia.
    rewrite !(Z.add_comm _ (2 ^ 64)). apply Z.add_compare_mono_l.
  - intros Ha0 Hb0. rewrite compare_idKey_uint64.
    rewrite uint64_of_neg, uint64_of_nonneg by lia.
    apply Z.compare_gt_iff. lia.
Qed.

Lemma record_keys_order_witness :
  compare_bytes (idKey (-1)) (idKey 5) = Gt
  /\ compare_bytes (idKey 4) (idKey 5) = Lt.
Proof.
  destruct (record_keys_order (-1) 5) as (_ & _ & _ & H1); [in_range ..|].
  destruct (record_keys_order 4 5) as (_ & H2 & _); [in_range ..|].
  split; [apply H1; lia|apply H2; lia].
Defined.

Lemma firstn_idKey_app (id : Z) (s : bytes) :
  firstn 8 (be_put 8 (uint64 id) ++ s) = be_put 8 (uint64 id).
Proof.
  rewrite <- (length_be_put 8 (uint64 id)) at 1. apply firstn_length_app.
Qed.

Lemma skipn_idKey_app (id : Z) (s : bytes) :
  skipn 8 (be_put 8 (uint64 id) ++ s) = s.
Proof.
  rewrite <- (length_be_put 8 (uint64 id)) at 1. apply skipn_length_app.
Qed.

Lemma idKey_eq (a b : Z) : in_int 64 a -> in_int 64 b -> idKey a = idKey b -> a = b.
Proof.
  unfold in_int. change (2 ^ (64 - 1)) with (2 ^ 63). intros Ha Hb E.
  apply idKey_inj in E.
  destruct (Z.ltb_spec a 0), (Z.ltb_spec b 0);
    rewrite ?(uint64_of_neg a), ?(uint64_of_neg b), ?(uint64_of_nonneg a),
      ?(uint64_of_nonneg b) in E by lia; lia.
Qed.

(** X17.  A MultiKV key is the record's key followed by the field name, and
    the readers take it apart the way [makeKey] put it together: its first
    eight bytes give back the id, the rest is the field name, it carries the
    prefix [Read] seeks, and two keys are equal only for the same id and the
    same field. *)
Theorem makeKey_parts (id id' : Z) (field field' : string) :
  in_int 64 id -> in_int 64 id' ->
  let k := MultiKVStrategy.makeKey id field in
  len k = 8 + len (str field)
  /\ HasPrefix k (be_put 8 (uint64 id)) = true
  /\ int64 (be_get (firstn 8 k)) = id
  /\ skipn 8 k = str field
  /\ (k = MultiKVStrategy.makeKey id' field' ->
      id = id' /\ str field = str field').
Proof.
  intros Hid Hid' k. subst k. unfold MultiKVStrategy.makeKey.
  split; [|split; [|split; [|split; [|intros H; split]]]].
  - rewrite len_app. unfold len at 1. rewrite length_be_put. lia.
  - apply HasPrefix_app.
  - rewrite firstn_idKey_app, be_get_be_put. unfold uint64, uint.
    change (256 ^ Z.of_nat 8) with (2 ^ 64). rewrite Z.mod_mod by lia.
    now apply int64_roundtrip.
  - apply skipn_idKey_app.
  - apply (f_equal (firstn 8)) in H. rewrite !firstn_idKey_app in H.
    now apply idKey_eq.
  - apply (f_equal (skipn 8)) in H. now rewrite !skipn_idKey_app in H.
Qed.

Lemma makeKey_parts_witness :
  int64 (be_get (firstn 8 (MultiKVStrategy.makeKey (-3) "score"))) = -3
  /\ skipn 8 (MultiKVStrategy.makeKey (-3) "score") = str "score".
Proof.
  destruct (makeKey_parts (-3) 0 "score" "id") as (_ & _ & H1 & H2 & _);
    [in_range ..|].
  split; [exact H1|exact H2].
Defined.

(* ================================================================== *)
(** * Byte order and sorted buckets *)

Lemma compare_bytes_antisym (a b : bytes) :
  compare_bytes b a = CompOpp (compare_bytes a b).
Proof.
  revert b. induction a as [|x a IH]; intros [|y b]; simpl; try reflexivity.
  rewrite (Z.compare_antisym (Z_of_byte x) (Z_of_byte y)).
  destruct (Z_of_byte x ?= Z_of_byte y); simpl; auto.
Qed.

Lemma compare_bytes_Gt (a b : bytes) :
  compare_bytes a b = Gt -> compare_bytes b a = Lt.
Proof. intros H. now rewrite compare_bytes_antisym, H. Qed.

Lemma compare_bytes_trans (a b c : bytes) :
  compare_bytes a b = Lt -> compare_bytes b c = Lt -> compare_bytes a c = Lt.
Proof.
  revert b c. induction a as [|x a IH]; intros [|y b] [|z c]; simpl;
    try discriminate; try reflexivity.
  destruct (Z.compare_spec (Z_of_byte x) (Z_of_byte y)) as [E|L|G];
    try discriminate;
    destruct (Z.compare_spec (Z_of_byte y) (Z_of_byte z)) as [E'|L'|G'];
    try discriminate; intros H1 H2.
  - rewrite E, E', Z.compare_refl. eauto.
  - rewrite E. now apply Z.compare_lt_iff in L' as ->.
  - rewrite <- E'. now apply Z.compare_lt_iff in L as ->.
  - assert (Z_of_byte x < Z_of_byte z) as L'' by lia.
    now apply Z.compare_lt_iff in L'' as ->.
Qed.

Lemma sorted_tail (e : bytes * node) (b : Bucket) : sorted (e :: b) -> sorted b.
Proof. intros H. now inversion H. Qed.

Lemma sorted_head (e : bytes * node) (b : Bucket) :
  sorted (e :: b) -> Forall (fun e' => compare_bytes (fst e) (fst e') = Lt) b.
Proof. intros H. now inversion H. Qed.

Lemma insert_keys (b : Bucket) (k : bytes) (n : node) (e : bytes * node) :
  In e (insert b k n) -> e = (k, n) \/ In e b.
Proof.
  induction b as [|[k' n'] r IH]; simpl.
  - intros [<-|[]]. now left.
  - destruct (compare_bytes k' k); simpl.
    + intros [<-|H]; auto.
    + intros [<-|H]; auto. destruct (IH H); auto.
    + intros [<-|H]; auto.
Qed.

Lemma sorted_insert (b : Bucket) (k : bytes) (n : node) :
  sorted b -> sorted (insert b k n).
Proof.
  induction b as [|[k' n'] r IH]; intros Hs; simpl.
  - repeat constructor.
  - pose proof (sorted_head _ _ Hs) as Hh. pose proof (sorted_tail _ _ Hs) as Ht.
    destruct (compare_bytes k' k) eqn:E.
    + apply compare_bytes_eq in E. subst k'. now constructor.
    + constructor; [now apply IH|]. apply Forall_forall. intros e He.
      apply insert_keys in He as [->|He]; [exact E|].
      rewrite Forall_forall in Hh. now apply Hh.
    + apply compare_bytes_Gt in E. constructor; [exact Hs|].
      constructor; [exact E|]. eapply Forall_impl; [|exact Hh].
      intros e He. cbn [fst] in *. eapply compare_bytes_trans; eauto.
Qed.

Lemma sorted_lookup (b : Bucket) (k : bytes) (n : node) :
  sorted b -> In (k, n) b -> lookup b k = Some n.
Proof.
  induction b as [|[k' n'] r IH]; intros Hs Hin; [contradiction|].
  simpl. destruct Hin as [E|Hin].
  - injection E as -> ->. now rewrite bytes_eqb_refl.
  - destruct (bytes_eqb k' k) eqn:E.
    + apply bytes_eqb_eq in E. subst k'.
      pose proof (sorted_head _ _ Hs) as Hh. rewrite Forall_forall in Hh.
      apply Hh in Hin. cbn [fst] in Hin.
      rewrite compare_bytes_refl in Hin. discriminate.
    + apply IH; [now apply sorted_tail in Hs|exact Hin].
Qed.

Lemma sorted_NoDup (b : Bucket) : sorted b -> NoDup (map fst b).
Proof.
  induction b as [|[k n] r IH]; intros Hs; simpl; constructor.
  - intros Hin. apply in_map_iff in Hin as [[k' n'] [E Hin]].
    cbn [fst] in E. subst k'.
    pose proof (sorted_head _ _ Hs) as Hh. rewrite Forall_forall in Hh.
    apply Hh in Hin. cbn [fst] in Hin. rewrite compare_bytes_refl in Hin.
    discriminate.
  - apply IH. now apply sorted_tail in Hs.
Qed.

Lemma sorted_putEach (kvs : list (bytes * bytes)) (b : Bucket) :
  sorted b -> sorted (putEach b kvs).
Proof.
  revert b. induction kvs as [|[k v] r IH]; intros b Hs; [exact Hs|].
  rewrite putEach_cons. apply IH. now apply sorted_insert.
Qed.

(* ================================================================== *)
(** * Decimal text of an integer and its parsing *)

Lemma parseUint_step (bitSize n k : Z) (c : byte) (r : bytes) :
  0 < bitSize <= 64 -> Z_of_byte c = 48 + k -> 0 <= k <= 9 -> 0 <= n ->
  n * 10 + k <= 2 ^ bitSize - 1 ->
  strconv.parseUint_loop bitSize n (c :: r) =
    strconv.parseUint_loop bitSize (n * 10 + k) r.
Proof.
  intros Hbs Hc Hk Hn Hfit.
  assert (2 ^ bitSize <= 2 ^ 64) as Hpow
    by (apply Z.pow_le_mono_r; lia).
  cbn [strconv.parseUint_loop]. unfold strconv.maxUint64.
  change ((2 ^ 64 - 1) / 10 + 1) with 1844674407370955162.
  change (2 ^ 64) with 18446744073709551616 in *.
  rewrite Hc.
  replace (48 + k <? 48) with false by (symmetry; apply Z.ltb_ge; lia).
  replace (57 <? 48 + k) with false by (symmetry; apply Z.ltb_ge; lia).
  cbn [orb].
  replace (1844674407370955162 <=? n) with false
    by (symmetry; apply Z.leb_gt; lia).
  replace (48 + k - 48) with k by lia.
  replace (18446744073709551616 - 1 <? n * 10 + k) with false
    by (symmetry; apply Z.ltb_ge; lia).
  replace (2 ^ bitSize - 1 <? n * 10 + k) with false
    by (symmetry; apply Z.ltb_ge; lia).
  reflexivity.
Qed.

Lemma of_uint_acc_ge (d : Decimal.uint) (p : positive) :
  (p <= Pos.of_uint_acc d p)%positive.
Proof.
  revert p. induction d; intros p; cbn [Pos.of_uint_acc];
    try apply Pos.le_refl; (eapply Pos.le_trans; [|apply IHd]); lia.
Qed.

Lemma parseUint_acc (bitSize : Z) (d : Decimal.uint) (p : positive) :
  0 < bitSize <= 64 ->
  Zpos (Pos.of_uint_acc d p) <= 2 ^ bitSize - 1 ->
  strconv.parseUint_loop bitSize (Zpos p) (str (NilEmpty.string_of_uint d)) =
    (Zpos (Pos.of_uint_acc d p), None).
Proof.
  intros Hbs. revert p.
  induction d as [|d IH|d IH|d IH|d IH|d IH|d IH|d IH|d IH|d IH|d IH];
    intros p Hfit; [reflexivity|..];
    cbn [NilEmpty.string_of_uint Pos.of_uint_acc] in *;
    pose proof (of_uint_acc_ge d) as Hge;
    match type of Hfit with
    | Zpos (Pos.of_uint_acc d ?q) <= _ =>
        specialize (Hge q); rewrite <- (IH q Hfit)
    end;
    match goal with
    | |- strconv.parseUint_loop ?bs (Zpos ?q0) (str (String ?a ?s')) = _ =>
        change (str (String a s')) with (byte_of_ascii a :: str s');
        let k := eval vm_compute in (Z_of_byte (byte_of_ascii a) - 48) in
        rewrite (parseUint_step bs (Zpos q0) k (byte_of_ascii a));
          [f_equal; lia | lia | reflexivity | lia | lia | lia]
    end.
Qed.

Lemma parseUint_zero (bitSize : Z) (d : Decimal.uint) :
  0 < bitSize <= 64 ->
  Z.of_N (Pos.of_uint d) <= 2 ^ bitSize - 1 ->
  strconv.parseUint_loop bitSize 0 (str (NilEmpty.string_of_uint d)) =
    (Z.of_N (Pos.of_uint d), None).
Proof.
  intros Hbs.
  induction d as [|d IH|d IH|d IH|d IH|d IH|d IH|d IH|d IH|d IH|d IH];
    intros Hfit; [reflexivity|..];
    cbn [NilEmpty.string_of_uint Pos.of_uint Z.of_N] in *;
    try (pose proof (of_uint_acc_ge d) as Hge;
         match type of Hfit with
         | Zpos (Pos.of_uint_acc d ?q) <= _ =>
             specialize (Hge q); rewrite <- (parseUint_acc bitSize d q Hbs Hfit)
         end);
    try rewrite <- (IH Hfit);
    match goal with
    | |- strconv.parseUint_loop ?bs 0 (str (String ?a ?s')) = _ =>
        change (str (String a s')) with (byte_of_ascii a :: str s');
        let k := eval vm_compute in (Z_of_byte (byte_of_ascii a) - 48) in
        rewrite (parseUint_step bs 0 k (byte_of_ascii a));
          [reflexivity | lia | reflexivity | lia | lia | ]
    end.
  all: assert (2 ^ 1 <= 2 ^ bitSize) by (apply Z.pow_le_mono_r; lia);
       change (2 ^ 1) with 2 in *; lia.
Qed.

Lemma first_digit (d : Decimal.uint) :
  d <> Decimal.Nil ->
  exists c r, str (NilEmpty.string_of_uint d) = c :: r
              /\ Byte.eqb c "-"%byte = false /\ Byte.eqb c "+"%byte = false.
Proof.
  destruct d; intros H; try contradiction;
    cbn [NilEmpty.string_of_uint];
    match goal with
    | |- exists _ _, str (String ?a ?s') = _ /\ _ =>
        exists (byte_of_ascii a), (str s'); repeat split
    end.
Qed.

Lemma ParseUint_to_uint (bitSize : Z) (p : positive) :
  0 < bitSize <= 64 -> Zpos p <= 2 ^ bitSize - 1 ->
  strconv.ParseUint (str (NilEmpty.string_of_uint (Pos.to_uint p))) bitSize =
    (Zpos p, None).
Proof.
  intros Hbs Hfit. unfold strconv.ParseUint.
  destruct (first_digit (Pos.to_uint p) (Unsigned.to_uint_nonnil p))
    as (c & r & E & _).
  rewrite E, <- E.
  rewrite parseUint_zero; rewrite ?Unsigned.of_to; auto.
Qed.

Lemma string_of_uint_nonnil (d : Decimal.uint) :
  d <> Decimal.Nil -> NilZero.string_of_uint d = NilEmpty.string_of_uint d.
Proof. now destruct d. Qed.

Lemma ParseInt_FormatInt (bitSize v : Z) :
  1 < bitSize <= 64 -> in_int bitSize v ->
  strconv.ParseInt (strconv.FormatInt v) bitSize = (v, None).
Proof.
  intros Hbs [Hlo Hhi]. unfold strconv.FormatInt.
  assert (2 ^ bitSize = 2 * 2 ^ (bitSize - 1)) as Hpow.
  { rewrite <- Z.pow_succ_r by lia. f_equal. lia. }
  assert (0 < 2 ^ (bitSize - 1)) as Hpos by (apply Z.pow_pos_nonneg; lia).
  destruct v as [|p|p]; cbn [Z.to_int NilZero.string_of_int].
  - cbn. replace (2 ^ (bitSize - 1) <=? 0) with false
      by (symmetry; apply Z.leb_gt; lia).
    unfold strconv.maxUint64. cbn.
    replace (2 ^ bitSize - 1 <? 0) with false
      by (symmetry; apply Z.ltb_ge; lia).
    cbn. replace (2 ^ (bitSize - 1) <=? 0) with false
      by (symmetry; apply Z.leb_gt; lia).
    reflexivity.
  - rewrite string_of_uint_nonnil by apply Unsigned.to_uint_nonnil.
    destruct (first_digit (Pos.to_uint p) (Unsigned.to_uint_nonnil p))
      as (c & r & E & Hm & Hp).
    unfold strconv.ParseInt. rewrite E, Hm, Hp. cbn [orb negb andb].
    rewrite <- E, ParseUint_to_uint by lia.
    replace (2 ^ (bitSize - 1) <=? Zpos p) with false
      by (symmetry; apply Z.leb_gt; lia).
    reflexivity.
  - rewrite string_of_uint_nonnil by apply Unsigned.to_uint_nonnil.
    change (str (String "-" ?s)) with ("-"%byte :: str s).
    unfold strconv.ParseInt.
    change (Byte.eqb "-" "-") with true.
    change (Byte.eqb "-" "+") with false. cbn [orb negb andb].
    rewrite ParseUint_to_uint by lia.
    replace (2 ^ (bitSize - 1) <? Zpos p) with false
      by (symmetry; apply Z.ltb_ge; lia).
    reflexivity.
Qed.

(* ================================================================== *)
(** * Reading a record back field by field *)

Section FieldProjection.
Variables (A : Type) (P : UserInfo -> A) (f : bytes) (dec : bytes -> A).
Hypothesis keep : forall acc k v acc',
  MultiKVStrategy.decodeInto acc k v = Ok acc' -> k <> f -> P acc' = P acc.
Hypothesis put : forall acc v acc',
  MultiKVStrategy.decodeInto acc f v = Ok acc' -> P acc' = dec v.

Lemma decodeAll_keeps (c : Bucket) (acc r : UserInfo) :
  ~ In f (map fst c) ->
  NestedBucketStrategy.decodeAll c acc = Ok r -> P r = P acc.
Proof.
  revert acc. induction c as [|[k n] c IH]; intros acc Hnot H.
  - now injection H as <-.
  - cbn [NestedBucketStrategy.decodeAll] in H.
    unfold NestedBucketStrategy.decodeField in H.
    destruct (MultiKVStrategy.decodeInto acc k (cursor_value n)) as [a| |]
      eqn:E; try discriminate.
    cbn [bind] in H. cbn [map fst In] in Hnot.
    rewrite (IH a) by tauto. eapply keep; eauto.
Qed.

Lemma decodeAll_sets (c : Bucket) (acc r : UserInfo) (n : node) :
  NoDup (map fst c) -> In (f, n) c ->
  NestedBucketStrategy.decodeAll c acc = Ok r -> P r = dec (cursor_value n).
Proof.
  revert acc. induction c as [|[k m] c IH]; intros acc Hnd Hin H;
    [contradiction|].
  cbn [NestedBucketStrategy.decodeAll] in H.
  unfold NestedBucketStrategy.decodeField in H.
  destruct (MultiKVStrategy.decodeInto acc k (cursor_value m)) as [a| |]
    eqn:E; try discriminate.
  cbn [bind] in H. cbn [map fst] in Hnd. inversion Hnd as [|? ? Hk Hnd']. subst.
  destruct Hin as [Heq|Hin].
  - injection Heq as -> ->.
    rewrite (decodeAll_keeps c a r Hk H). eapply put; eauto.
  - eapply IH; eauto.
Qed.
End FieldProjection.

Ltac named_tests H :=
  repeat match type of H with
         | context [bytes_eqb (str ?a) (str ?b)] =>
             let r := eval vm_compute in (bytes_eqb (str a) (str b)) in
             change (bytes_eqb (str a) (str b)) with r in H
         end;
  cbv iota in H.

Ltac field_kept :=
  let acc := fresh "acc" in let k := fresh "k" in let v := fresh "v" in
  let acc' := fresh "acc'" in let H := fresh "H" in let Hk := fresh "Hk" in
  intros acc k v acc' H Hk;
  unfold MultiKVStrategy.decodeInto, MultiKVStrategy.named in H;
  repeat match type of H with
         | (if bytes_eqb k ?s then _ else _) = _ =>
             let E := fresh "E" in
             destruct (bytes_eqb k s) eqn:E;
             [ try (exfalso; apply Hk; now apply bytes_eqb_eq);
               try (destruct (MultiKVStrategy.Uint _ _); cbn [bind] in H;
                    [|discriminate|discriminate]);
               injection H as <-; reflexivity
             | ]
         end;
  injection H as <-; reflexivity.

Ltac field_put :=
  let acc := fresh "acc" in let v := fresh "v" in
  let acc' := fresh "acc'" in let H := fresh "H" in
  intros acc v acc' H;
  unfold MultiKVStrategy.decodeInto, MultiKVStrategy.named in H;
  named_tests H;
  try (unfold MultiKVStrategy.Uint in H;
       match type of H with
       | context [if ?c then _ else _] => destruct c
       end; cbn [bind] in H; [discriminate|]);
  injection H as <-; reflexivity.

Lemma decodeInto_unknown (acc : UserInfo) (k v : bytes) :
  MultiKVStrategy.known k = false -> MultiKVStrategy.decodeInto acc k v = Ok acc.
Proof.
  unfold MultiKVStrategy.known. cbn [existsb]. intros H.
  repeat (apply orb_false_elim in H as [?E H]).
  unfold MultiKVStrategy.decodeInto.
  repeat match goal with
         | E : MultiKVStrategy.named k _ = false |- _ => rewrite E; clear E
         end.
  reflexivity.
Qed.

Lemma known_name (k : bytes) :
  MultiKVStrategy.known k = true -> In k (map str fieldNames).
Proof.
  unfold MultiKVStrategy.known, MultiKVStrategy.named. cbn [existsb].
  intros H.
  repeat (apply orb_true_elim in H as [H|H];
          [apply bytes_eqb_eq in H; subst k; cbn; tauto|]).
  discriminate.
Qed.

Ltac project P f dec :=
  let n := fresh "n" in let Hin := fresh "Hin" in
  intros n Hin;
  eapply (decodeAll_sets _ P f dec);
  [field_kept | field_put | eassumption | eassumption | eassumption].

Lemma decodeAll_projections (c : Bucket) (acc r : UserInfo) :
  NoDup (map fst c) ->
  NestedBucketStrategy.decodeAll c acc = Ok r ->
  (forall n, In (str "id", n) c ->
     ID r = fst (strconv.ParseInt (cursor_value n) 64))
  /\ (forall n, In (str "username", n) c -> Username r = cursor_value n)
  /\ (forall n, In (str "email", n) c -> Email r = cursor_value n)
  /\ (forall n, In (str "first_name", n) c -> FirstName r = cursor_value n)
  /\ (forall n, In (str "last_name", n) c -> LastName r = cursor_value n)
  /\ (forall n, In (str "age", n) c ->
        Age r = int32 (fst (strconv.ParseInt (cursor_value n) 32)))
  /\ (forall n, In (str "height", n) c ->
        Height r = F32.of_int (le_get (firstn 4 (cursor_value n))))
  /\ (forall n, In (str "weight", n) c ->
        Weight r = F32.of_int (le_get (firstn 4 (cursor_value n))))
  /\ (forall n, In (str "balance", n) c ->
        Balance r = F64.of_int (le_get (firstn 8 (cursor_value n))))
  /\ (forall n, In (str "is_active", n) c ->
        IsActive r = bytes_eqb (cursor_value n) (str "true"))
  /\ (forall n, In (str "created_at", n) c ->
        CreatedAt r = fst (strconv.ParseInt (cursor_value n) 64))
  /\ (forall n, In (str "updated_at", n) c ->
        UpdatedAt r = fst (strconv.ParseInt (cursor_value n) 64))
  /\ (forall n, In (str "login_count", n) c ->
        LoginCount r = int32 (fst (strconv.ParseInt (cursor_value n) 32)))
  /\ (forall n, In (str "score", n) c ->
        Score r = F64.of_int (le_get (firstn 8 (cursor_value n))))
  /\ (forall n, In (str "description", n) c -> Description r = cursor_value n).
Proof.
  intros Hnd Hr. repeat split.
  - project ID (str "id") (fun v => fst (strconv.ParseInt v 64)).
  - project Username (str "username") (fun v : bytes => v).
  - project Email (str "email") (fun v : bytes => v).
  - project FirstName (str "first_name") (fun v : bytes => v).
  - project LastName (str "last_name") (fun v : bytes => v).
  - project Age (str "age") (fun v => int32 (fst (strconv.ParseInt v 32))).
  - project Height (str "height") (fun v => F32.of_int (le_get (firstn 4 v))).
  - project Weight (str "weight") (fun v => F32.of_int (le_get (firstn 4 v))).
  - project Balance (str "balance") (fun v => F64.of_int (le_get (firstn 8 v))).
  - project IsActive (str "is_active") (fun v => bytes_eqb v (str "true")).
  - project CreatedAt (str "created_at") (fun v => fst (strconv.ParseInt v 64)).
  - project UpdatedAt (str "updated_at") (fun v => fst (strconv.ParseInt v 64)).
  - project LoginCount (str "login_count")
      (fun v => int32 (fst (strconv.ParseInt v 32))).
  - project Score (str "score") (fun v => F64.of_int (le_get (firstn 8 v))).
  - project Description (str "description") (fun v : bytes => v).
Qed.

Lemma int32_in_range (z : Z) : in_int 32 z -> int32 z = z.
Proof.
  unfold in_int, int32, sint. change (2 ^ (32 - 1)) with 2147483648.
  change (2 ^ 32) with 4294967296. intros H.
  destruct (Z.ltb_spec z 0) as [Hneg|Hpos].
  - replace (z mod 4294967296) with (z + 4294967296)
      by (apply Z.mod_unique with (q := -1); lia).
    destruct (Z.ltb_spec (z + 4294967296) 2147483648); lia.
  - rewrite Z.mod_small by lia.
    destruct (Z.ltb_spec z 2147483648); lia.
Qed.

Lemma firstn_le_put (n : nat) (z : Z) : firstn n (le_put n z) = le_put n z.
Proof. apply firstn_all2. now rewrite length_le_put. Qed.

Lemma to_uint32_range (f : float32) : 0 <= F32.to_uint32 f < 2 ^ 32.
Proof.
  unfold F32.to_uint32, Float.to_uint32, uint. apply Z.mod_pos_bound. lia.
Qed.

Lemma to_uint64_range (f : float64) : 0 <= F64.to_uint64 f < 2 ^ 64.
Proof.
  unfold F64.to_uint64, Float.to_uint64, uint.
  destruct (Float.trunc 52 11 f) as [n|]; [|lia].
  destruct (Z.ltb_spec n (2 ^ 63)); [apply Z.mod_pos_bound; lia|].
  destruct (Z.ltb_spec n (2 ^ 64)); lia.
Qed.

Lemma Uint32_written (f : float32) :
  le_get (firstn 4 (le_put 4 (F32.to_uint32 f))) = F32.to_uint32 f.
Proof.
  rewrite firstn_le_put, le_get_le_put. apply Z.mod_small.
  change (256 ^ Z.of_nat 4) with (2 ^ 32). apply to_uint32_range.
Qed.

Lemma Uint64_written (f : float64) :
  le_get (firstn 8 (le_put 8 (F64.to_uint64 f))) = F64.to_uint64 f.
Proof.
  rewrite firstn_le_put, le_get_le_put. apply Z.mod_small.
  change (256 ^ Z.of_nat 8) with (2 ^ 64). apply to_uint64_range.
Qed.

Lemma written_decodes (u : UserInfo) :
  Forall (fun kv => forall a, exists a',
            MultiKVStrategy.decodeInto a (fst kv) (snd kv) = Ok a')
    (NestedBucketStrategy.userFields u).
Proof.
  unfold NestedBucketStrategy.userFields.
  repeat (apply Forall_cons; [intros a; eexists; reflexivity|]).
  apply Forall_nil.
Qed.

Lemma decodeAll_total (c : Bucket) :
  Forall (fun e => forall a, exists a',
            MultiKVStrategy.decodeInto a (fst e) (cursor_value (snd e)) = Ok a')
    c ->
  forall acc, exists r, NestedBucketStrategy.decodeAll c acc = Ok r.
Proof.
  induction 1 as [|[k n] c He _ IH]; intros acc; [now exists acc|].
  cbn [NestedBucketStrategy.decodeAll]. unfold NestedBucketStrategy.decodeField.
  destruct (He acc) as [a Ha]. cbn [fst snd] in Ha. rewrite Ha. cbn [bind].
  apply IH.
Qed.

Ltac written c Hin Hi k v :=
  let HH := fresh "W" in
  assert (In (k, Leaf v) c) as HH by (apply Hin; auto 20);
  apply Hi in HH; cbn [cursor_value] in HH; clear Hi; rename HH into Hi.

(** A bucket that holds, under the fifteen field names, the values
    [writeUserFields] gives them decodes to the record with its floats
    passed through an unsigned integer. *)
Lemma decodeAll_fieldwise (c : Bucket) (u : UserInfo) :
  sorted c ->
  (forall k v, In (k, v) (NestedBucketStrategy.userFields u) ->
               lookup c k = Some (Leaf v)) ->
  wf_user u ->
  NestedBucketStrategy.decodeAll c zeroUser = Ok (fieldwise u).
Proof.
  intros Hs Hw Hwf.
  assert (exists r, NestedBucketStrategy.decodeAll c zeroUser = Ok r)
    as [r Hr].
  { apply decodeAll_total. apply Forall_forall. intros [k n] Hin a.
    cbn [fst snd]. destruct (MultiKVStrategy.known k) eqn:E.
    - apply known_name in E.
      change (map str fieldNames)
        with (map fst (NestedBucketStrategy.userFields u)) in E.
      apply in_map_iff in E as [[k' v] [Ek Hkv]]. cbn [fst] in Ek. subst k'.
      pose proof (Hw k v Hkv) as Hl.
      rewrite (sorted_lookup c k n Hs Hin) in Hl. injection Hl as ->.
      pose proof (written_decodes u) as Hd. rewrite Forall_forall in Hd.
      apply (Hd (k, v) Hkv a).
    - exists a. now apply decodeInto_unknown. }
  rewrite Hr. f_equal.
  pose proof (decodeAll_projections c zeroUser r (sorted_NoDup c Hs) Hr)
    as (H1 & H2 & H3 & H4 & H5 & H6 & H7 & H8 & H9 & H10 & H11 & H12 & H13
        & H14 & H15).
  assert (forall k v, In (k, v) (NestedBucketStrategy.userFields u) ->
                      In (k, Leaf v) c) as Hin
    by (intros k v H; apply lookup_In; now apply Hw).
  unfold NestedBucketStrategy.userFields in Hin. cbn [In] in Hin.
  written c Hin H1 (str "id") (strconv.FormatInt (ID u)).
  written c Hin H2 (str "username") (Username u).
  written c Hin H3 (str "email") (Email u).
  written c Hin H4 (str "first_name") (FirstName u).
  written c Hin H5 (str "last_name") (LastName u).
  written c Hin H6 (str "age") (strconv.FormatInt (Age u)).
  written c Hin H7 (str "height") (le_put 4 (F32.to_uint32 (Height u))).
  written c Hin H8 (str "weight") (le_put 4 (F32.to_uint32 (Weight u))).
  written c Hin H9 (str "balance") (le_put 8 (F64.to_uint64 (Balance u))).
  written c Hin H10 (str "is_active")
    (if IsActive u then str "true" else str "false").
  written c Hin H11 (str "created_at") (strconv.FormatInt (CreatedAt u)).
  written c Hin H12 (str "updated_at") (strconv.FormatInt (UpdatedAt u)).
  written c Hin H13 (str "login_count") (strconv.FormatInt (LoginCount u)).
  written c Hin H14 (str "score") (le_put 8 (F64.to_uint64 (Score u))).
  written c Hin H15 (str "description") (Description u).
  destruct Hwf.
  rewrite ParseInt_FormatInt in H1, H11, H12 by (auto; lia).
  rewrite ParseInt_FormatInt in H6, H13 by (auto; lia).
  rewrite int32_in_range in H6, H13 by assumption.
  rewrite Uint32_written in H7, H8. rewrite Uint64_written in H9, H14.
  assert (bytes_eqb (if IsActive u then str "true" else str "false")
            (str "true") = IsActive u) as Hb by now destruct (IsActive u).
  rewrite Hb in H10. cbn [fst] in *.
  destruct r. cbn [ID Username Email FirstName LastName Age Height Weight
                     Balance IsActive CreatedAt UpdatedAt LoginCount Score
                     Description] in *.
  subst. reflexivity.
Qed.

Lemma fold_put_putEach (kvs : list (bytes * bytes)) (b : Bucket) :
  flat b ->
  Forall (fun kv => 0 < len (fst kv) <= MaxKeySize) kvs ->
  valuesFit kvs = true ->
  fold_left NestedBucketStrategy.put_ kvs b = putEach b kvs.
Proof.
  revert b. induction kvs as [|[k v] r IH]; intros b Hflat Hk Hv;
    [reflexivity|].
  inversion Hk as [|? ? Hk1 Hk2]. subst.
  cbn [valuesFit forallb snd] in Hv. apply andb_true_iff in Hv as [Hv1 Hv2].
  apply Z.leb_le in Hv1.
  cbn [fold_left]. rewrite putEach_cons. unfold NestedBucketStrategy.put_ at 2.
  cbn [fst snd] in *. rewrite Put_ok by assumption.
  apply IH; auto using flat_insert.
Qed.

Lemma Nested_key_sizes (u : UserInfo) :
  Forall (fun kv => 0 < len (fst kv) <= MaxKeySize)
    (NestedBucketStrategy.userFields u).
Proof.
  unfold NestedBucketStrategy.userFields.
  repeat (apply Forall_cons;
          [vm_compute; split; [reflexivity|discriminate]|]).
  apply Forall_nil.
Qed.

Lemma Nested_keys_NoDup (u : UserInfo) :
  NoDup (map fst (NestedBucketStrategy.userFields u)).
Proof. apply nodupb_NoDup. vm_compute. reflexivity. Qed.

Lemma flat_nil : flat [].
Proof. intros k s. discriminate. Qed.

Lemma sorted_nil : sorted [].
Proof. constructor. Qed.

Lemma Nested_Read_stored (db root ub : Bucket) (id : Z) :
  GetBucket db NestedBucketStrategy.bucketName = Some root ->
  GetBucket root (idKey id) = Some ub ->
  NestedBucketStrategy.Read db id =
    match NestedBucketStrategy.decodeAll ub zeroUser with
    | Ok user => Return (Some user, None)
    | Fail e => Return (Some zeroUser, Some e)
    | Panic p => Crash p
    end.
Proof.
  intros Hr Hu. unfold NestedBucketStrategy.Read, View, First.
  now rewrite Hr, Hu.
Qed.

Lemma Nested_Write_stored (db root : Bucket) (u : UserInfo) :
  GetBucket db NestedBucketStrategy.bucketName = Some root ->
  (lookup root (idKey (ID u)) = None
   \/ exists s, lookup root (idKey (ID u)) = Some (Sub s) /\ flat s /\ sorted s) ->
  valuesFit (NestedBucketStrategy.userFields u) = true ->
  exists root' ub,
    NestedBucketStrategy.Write db u =
      (SetBucket db NestedBucketStrategy.bucketName root', Return None)
    /\ GetBucket root' (idKey (ID u)) = Some ub
    /\ sorted ub
    /\ (forall k v, In (k, v) (NestedBucketStrategy.userFields u) ->
                    lookup ub k = Some (Leaf v)).
Proof.
  intros Hroot Hsub Hfit.
  unfold NestedBucketStrategy.Write, Update,
    NestedBucketStrategy.writeUserFields, CreateBucketIfNotExists.
  rewrite Hroot. cbn [deref bind]. rewrite len_idKey.
  change (8 =? 0) with false. cbv iota.
  destruct Hsub as [Hnone|(s & Hs & Hflat & Hsorted)].
  - rewrite Hnone. cbn [bind].
    rewrite fold_put_putEach
      by auto using flat_nil, Nested_key_sizes.
    eexists _, _. split; [reflexivity|]. split; [|split].
    + apply (GetBucket_SetBucket _ _ []). unfold GetBucket.
      now rewrite lookup_insert_same.
    + apply sorted_putEach, sorted_nil.
    + intros k v Hin. now apply lookup_putEach_in, Hin; apply Nested_keys_NoDup.
  - rewrite Hs. cbn [bind].
    rewrite fold_put_putEach by auto using Nested_key_sizes.
    eexists _, _. split; [reflexivity|]. split; [|split].
    + apply (GetBucket_SetBucket _ _ s). unfold GetBucket. now rewrite Hs.
    + now apply sorted_putEach.
    + intros k v Hin. now apply lookup_putEach_in, Hin; apply Nested_keys_NoDup.
Qed.

(** X18.  NestedBucket write then read.  On a set-up store, for a record
    that is new or whose bucket holds values only, [Write] returns nil and
    the following [Read] of its id returns the record with every integer,
    text and boolean field as written and each of the four floats passed
    through an unsigned integer: [float32(uint32(f))] for height and weight,
    [float64(uint64(f))] for balance and score. *)
Theorem NestedBucket_Write_then_Read (db root : Bucket) (u : UserInfo) :
  GetBucket db NestedBucketStrategy.bucketName = Some root ->
  (lookup root (idKey (ID u)) = None
   \/ exists s, lookup root (idKey (ID u)) = Some (Sub s) /\ flat s /\ sorted s) ->
  wf_user u ->
  valuesFit (NestedBucketStrategy.userFields u) = true ->
  snd (NestedBucketStrategy.Write db u) = Return None
  /\ NestedBucketStrategy.Read (fst (NestedBucketStrategy.Write db u)) (ID u) =
       Return (Some (fieldwise u), None).
Proof.
  intros Hroot Hsub Hwf Hfit.
  destruct (Nested_Write_stored db root u Hroot Hsub Hfit)
    as (root' & ub & -> & Hub & Hsorted & Hw).
  cbn [fst snd]. split; [reflexivity|].
  rewrite (Nested_Read_stored _ root' ub)
    by eauto using GetBucket_SetBucket.
  now rewrite (decodeAll_fieldwise ub u).
Qed.

Lemma NestedBucket_Write_then_Read_witness :
  let u := sample 1 (F64.of_scaled 21 (-1)) "one" in
  NestedBucketStrategy.Read
    (fst (NestedBucketStrategy.Write (fresh NestedBucket) u)) 1 =
    Return (Some (set_Score (set_Balance u (F64.of_int 10)) (F64.of_int 99)),
            None).
Proof.
  intros u.
  destruct (NestedBucket_Write_then_Read (fresh NestedBucket) [] u) as [_ H].
  - reflexivity.
  - left. reflexivity.
  - apply wf_sample; vm_compute; split; solve [discriminate | reflexivity].
  - vm_compute. reflexivity.
  - exact H.
Defined.

(* ================================================================== *)
(** * The keys of one record in a MultiKV bucket *)

Lemma HasPrefix_not_Lt (k p : bytes) :
  HasPrefix k p = true -> compare_bytes k p <> Lt.
Proof.
  revert k. induction p as [|y p IH]; intros [|x k]; simpl; try discriminate.
  intros H. apply andb_true_iff in H as [Hx Hk].
  apply Byte.byte_dec_bl in Hx. subst y. rewrite Z.compare_refl. now apply IH.
Qed.

Lemma prefix_interval (p k k' : bytes) :
  HasPrefix k' p = true -> compare_bytes k p <> Lt ->
  compare_bytes k k' = Lt -> HasPrefix k p = true.
Proof.
  revert k k'. induction p as [|y p IH]; intros k k' Hp Hge Hlt.
  - now destruct k.
  - destruct k' as [|z k']; [discriminate|]. simpl in Hp.
    apply andb_true_iff in Hp as [Hz Hk']. apply Byte.byte_dec_bl in Hz.
    subst z. destruct k as [|x k]; [now elim Hge|].
    simpl in *.
    destruct (Z.compare_spec (Z_of_byte x) (Z_of_byte y)) as [E|L|G];
      try discriminate; try (now elim Hge).
    apply Z_of_byte_inj in E. subst x.
    destruct (Byte.eqb y y) eqn:Ey; [|apply Byte.eqb_false in Ey; congruence].
    simpl. eapply IH; eauto.
Qed.

Lemma compare_bytes_app (p a b : bytes) :
  compare_bytes (p ++ a) (p ++ b) = compare_bytes a b.
Proof.
  induction p as [|x p IH]; [reflexivity|]. simpl.
  now rewrite Z.compare_refl.
Qed.

Lemma HasPrefix_split (k p : bytes) :
  HasPrefix k p = true -> k = p ++ skipn (List.length p) k.
Proof.
  revert k. induction p as [|y p IH]; intros [|x k]; simpl; try discriminate;
    try reflexivity.
  intros H. apply andb_true_iff in H as [Hx Hk].
  apply Byte.byte_dec_bl in Hx. subst y. f_equal. now apply IH.
Qed.

Lemma Seek_ge (b : Bucket) (p : bytes) :
  Forall (fun e => compare_bytes (fst e) p <> Lt) b -> Seek b p = b.
Proof.
  destruct 1 as [|[k n] r Hk Hr]; [reflexivity|]. simpl. unfold bytes_ltb.
  cbn [fst] in Hk. now destruct (compare_bytes k p).
Qed.

Lemma fieldsOf_none (b : Bucket) (p k : bytes) :
  compare_bytes k p <> Lt -> HasPrefix k p = false ->
  Forall (fun e => compare_bytes k (fst e) = Lt) b ->
  fieldsOf p b = [].
Proof.
  intros Hge Hno Hall. unfold fieldsOf.
  replace (filter (fun e => HasPrefix (fst e) p) b) with (@nil (bytes * node));
    [reflexivity|].
  symmetry. induction Hall as [|[k' n] r Hk' _ IH]; [reflexivity|].
  simpl. cbn [fst] in Hk'.
  destruct (HasPrefix k' p) eqn:E; [|exact IH].
  rewrite (prefix_interval p k k' E Hge Hk') in Hno. discriminate.
Qed.

Lemma read_loop_fields (b : Bucket) (p : bytes) :
  sorted b ->
  forall acc, MultiKVStrategy.read_loop (Seek b p) p acc =
              NestedBucketStrategy.decodeAll (fieldsOf p b) acc.
Proof.
  induction b as [|[k n] r IH]; intros Hs acc; [reflexivity|].
  pose proof (sorted_head _ _ Hs) as Hh. pose proof (sorted_tail _ _ Hs) as Ht.
  cbn [fst] in Hh.
  cbn [Seek]. unfold bytes_ltb. destruct (compare_bytes k p) eqn:E.
  - (* the key is the prefix itself *)
    apply compare_bytes_eq in E. subst k.
    assert (Seek r p = r) as Hr.
    { apply Seek_ge. eapply Forall_impl; [|exact Hh].
      intros e He. rewrite compare_bytes_antisym, He. discriminate. }
    specialize (IH Ht). rewrite Hr in IH.
    cbn [MultiKVStrategy.read_loop]. unfold fieldsOf. cbn [filter fst].
    assert (HasPrefix p p = true) as Hpp
      by (rewrite <- (app_nil_r p) at 1; apply HasPrefix_app).
    rewrite Hpp. cbn [map NestedBucketStrategy.decodeAll fst snd].
    unfold NestedBucketStrategy.decodeField.
    destruct (MultiKVStrategy.decodeInto acc (skipn 8 p) (cursor_value n));
      cbn [bind]; try reflexivity. apply IH.
  - (* below the prefix: skipped by Seek, and not under the prefix *)
    rewrite (IH Ht). unfold fieldsOf. cbn [filter fst].
    destruct (HasPrefix k p) eqn:Hp; [|reflexivity].
    now apply HasPrefix_not_Lt in Hp.
  - (* above the prefix *)
    assert (compare_bytes k p <> Lt) as Hge by (rewrite E; discriminate).
    assert (Seek r p = r) as Hr.
    { apply Seek_ge. eapply Forall_impl; [|exact Hh].
      intros e He Hlt. apply compare_bytes_Gt in E.
      pose proof (compare_bytes_trans _ _ _ E He) as Hpe.
      rewrite compare_bytes_antisym, Hpe in Hlt. discriminate. }
    specialize (IH Ht). rewrite Hr in IH.
    cbn [MultiKVStrategy.read_loop].
    destruct (HasPrefix k p) eqn:Hp.
    + unfold fieldsOf. cbn [filter fst]. rewrite Hp.
      cbn [map NestedBucketStrategy.decodeAll fst snd].
      unfold NestedBucketStrategy.decodeField.
      destruct (MultiKVStrategy.decodeInto acc (skipn 8 k) (cursor_value n));
        cbn [bind]; try reflexivity. apply IH.
    + unfold fieldsOf at 1. cbn [filter fst]. rewrite Hp.
      fold (fieldsOf p r). now rewrite (fieldsOf_none r p k Hge Hp Hh).
Qed.

Lemma In_fieldsOf_inv (b : Bucket) (p : bytes) (e : bytes * node) :
  List.length p = 8%nat -> In e (fieldsOf p b) ->
  In (p ++ fst e, snd e) b.
Proof.
  intros Hp Hin. unfold fieldsOf in Hin.
  apply in_map_iff in Hin as [[k n] [<- Hin]].
  apply filter_In in Hin as [Hin Hpre]. cbn [fst snd] in *.
  rewrite <- Hp. now rewrite <- (HasPrefix_split k p Hpre).
Qed.

Lemma In_fieldsOf (b : Bucket) (p f : bytes) (n : node) :
  List.length p = 8%nat -> In (p ++ f, n) b -> In (f, n) (fieldsOf p b).
Proof.
  intros Hp Hin. unfold fieldsOf. apply in_map_iff.
  exists (p ++ f, n). cbn [fst snd]. split.
  - rewrite <- Hp. now rewrite skipn_length_app.
  - apply filter_In. split; [exact Hin|apply HasPrefix_app].
Qed.

Lemma sorted_fieldsOf (b : Bucket) (p : bytes) :
  List.length p = 8%nat -> sorted b -> sorted (fieldsOf p b).
Proof.
  intros Hp. induction b as [|[k n] r IH]; intros Hs; [constructor|].
  pose proof (sorted_head _ _ Hs) as Hh. pose proof (sorted_tail _ _ Hs) as Ht.
  cbn [fst] in Hh. unfold fieldsOf. cbn [filter fst].
  destruct (HasPrefix k p) eqn:Hk; [|now apply IH].
  cbn [map fst snd]. constructor; [now apply IH|].
  apply Forall_forall. intros e He. cbn [fst].
  apply (In_fieldsOf_inv r p e Hp) in He.
  rewrite Forall_forall in Hh. apply Hh in He. cbn [fst] in He.
  rewrite (HasPrefix_split k p Hk), Hp in He.
  now rewrite compare_bytes_app in He.
Qed.

Lemma MultiKV_fields_prefixed (u : UserInfo) :
  MultiKVStrategy.userFields u =
    map (fun kv => (be_put 8 (uint64 (ID u)) ++ fst kv, snd kv))
      (NestedBucketStrategy.userFields u).
Proof. reflexivity. Qed.

Lemma MultiKV_Write_stores_pairs (db : DB) (b : Bucket) (u : UserInfo) :
  GetBucket db MultiKVStrategy.bucketName = Some b ->
  flat b ->
  valuesFit (MultiKVStrategy.userFields u) = true ->
  MultiKVStrategy.Write db u =
    (SetBucket db MultiKVStrategy.bucketName
       (putEach b (MultiKVStrategy.userFields u)), Return None)
  /\ (forall k v, In (k, v) (MultiKVStrategy.userFields u) ->
        lookup (putEach b (MultiKVStrategy.userFields u)) k = Some (Leaf v)).
Proof.
  intros Hb Hflat Hfit. split.
  - unfold MultiKVStrategy.Write, Update, MultiKVStrategy.writeUserFields.
    rewrite Hb. cbn [deref bind].
    rewrite putAll_ok by auto using userFields_key_sizes. reflexivity.
  - intros k v Hin. now apply lookup_putEach_in, Hin; apply userFields_NoDup.
Qed.

(** X19.  MultiKV write then read.  On a set-up store whose bucket holds
    values only, [Write] returns nil and the following [Read] of the
    record's id returns the record with every integer, text and boolean
    field as written and each of the four floats passed through an unsigned
    integer; keys of other records, and other keys under the same id, do
    not disturb it. *)
Theorem MultiKV_Write_then_Read (db : DB) (b : Bucket) (u : UserInfo) :
  GetBucket db MultiKVStrategy.bucketName = Some b ->
  flat b -> sorted b -> wf_user u ->
  valuesFit (MultiKVStrategy.userFields u) = true ->
  snd (MultiKVStrategy.Write db u) = Return None
  /\ MultiKVStrategy.Read (fst (MultiKVStrategy.Write db u)) (ID u) =
       Return (Some (fieldwise u), None).
Proof.
  intros Hb Hflat Hsorted Hwf Hfit.
  destruct (MultiKV_Write_stores_pairs db b u Hb Hflat Hfit) as [-> Hin].
  cbn [fst snd]. split; [reflexivity|].
  unfold MultiKVStrategy.Read, View.
  rewrite (GetBucket_SetBucket _ _ _ _ Hb).
  set (p := be_put 8 (uint64 (ID u))).
  assert (List.length p = 8%nat) as Hp by apply length_be_put.
  rewrite read_loop_fields by now apply sorted_putEach.
  rewrite (decodeAll_fieldwise _ u); [reflexivity| | |exact Hwf].
  - apply sorted_fieldsOf; [exact Hp|now apply sorted_putEach].
  - intros k v Hkv. apply sorted_lookup.
    + apply sorted_fieldsOf; [exact Hp|now apply sorted_putEach].
    + apply In_fieldsOf; [exact Hp|]. apply lookup_In, Hin.
      rewrite MultiKV_fields_prefixed. apply in_map_iff.
      now exists (k, v).
Qed.

Lemma MultiKV_Write_then_Read_witness :
  let u := sample 2 (F64.of_scaled 21 (-1)) "two" in
  let db := populated MultiKV false [sample 1 (F64.of_int 10) "one"] in
  MultiKVStrategy.Read (fst (MultiKVStrategy.Write db u)) 2 =
    Return (Some (set_Score (set_Balance u (F64.of_int 10)) (F64.of_int 99)),
            None).
Proof.
  intros u db.
  assert (wf_user u) as Hwf
    by (apply wf_sample; vm_compute; split; solve [discriminate | reflexivity]).
  destruct (GetBucket db MultiKVStrategy.bucketName) as [b|] eqn:Hb;
    [|vm_compute in Hb; discriminate].
  assert (b = putEach [] (MultiKVStrategy.userFields
                            (sample 1 (F64.of_int 10) "one"))) as Eb
    by (vm_compute in Hb; injection Hb as <-; vm_compute; reflexivity).
  destruct (MultiKV_Write_then_Read db b u Hb) as [_ H].
  - rewrite Eb. apply flat_putEach, flat_nil.
  - rewrite Eb. apply sorted_putEach, sorted_nil.
  - exact Hwf.
  - vm_compute. reflexivity.
  - exact H.
Defined.

Lemma MultiKV_Read_holds (db : DB) (b : Bucket) (u : UserInfo) :
  GetBucket db MultiKVStrategy.bucketName = Some b ->
  sorted b -> holdsFields b u -> wf_user u ->
  MultiKVStrategy.Read db (ID u) = Return (Some (fieldwise u), None).
Proof.
  intros Hb Hsorted Hin Hwf. unfold MultiKVStrategy.Read, View. rewrite Hb.
  set (p := be_put 8 (uint64 (ID u))).
  assert (List.length p = 8%nat) as Hp by apply length_be_put.
  rewrite read_loop_fields by assumption.
  rewrite (decodeAll_fieldwise _ u); [reflexivity| | |exact Hwf].
  - now apply sorted_fieldsOf.
  - intros k v Hkv. apply sorted_lookup; [now apply sorted_fieldsOf|].
    apply In_fieldsOf; [exact Hp|]. apply lookup_In, Hin.
    rewrite MultiKV_fields_prefixed. apply in_map_iff. now exists (k, v).
Qed.

Lemma holds_after_put (b : Bucket) (u u' : UserInfo) (key val : bytes) :
  holdsFields b u ->
  (forall k v, In (k, v) (MultiKVStrategy.userFields u') ->
     (k = key /\ v = val)
     \/ (k <> key /\ In (k, v) (MultiKVStrategy.userFields u))) ->
  holdsFields (insert b key (Leaf val)) u'.
Proof.
  intros Hold Hnew k v Hin.
  destruct (Hnew k v Hin) as [[-> ->]|[Hk Hu]].
  - apply lookup_insert_same.
  - rewrite lookup_insert_other by congruence. now apply Hold.
Qed.

Ltac other_fields :=
  let k := fresh "k" in let v := fresh "v" in let Hin := fresh "Hin" in
  intros k v Hin;
  unfold MultiKVStrategy.userFields in Hin; cbn [In ID] in Hin;
  unfold MultiKVStrategy.userFields; cbn [In];
  repeat (destruct Hin as [Hin|Hin];
          [injection Hin as <- <-;
           first [ left; split; reflexivity
                 | right; split;
                   [ let E := fresh "E" in
                     intros E; apply app_inv_head in E; discriminate E
                   | auto 20 ] ]
          |]);
  contradiction.

Lemma makeKey_size (id : Z) (f : string) :
  len (str f) <= 32760 ->
  0 < len (MultiKVStrategy.makeKey id f) <= MaxKeySize.
Proof.
  intros Hf. unfold MultiKVStrategy.makeKey. rewrite len_app.
  unfold len at 1 3. rewrite length_be_put. unfold MaxKeySize.
  unfold len in *. lia.
Qed.

Lemma MultiKV_Read_after_put (db : DB) (b : Bucket) (u u' : UserInfo)
    (f : string) (val : bytes) :
  GetBucket db MultiKVStrategy.bucketName = Some b ->
  sorted b -> holdsFields b u -> wf_user u' -> ID u' = ID u ->
  (forall k v, In (k, v) (MultiKVStrategy.userFields u') ->
     (k = MultiKVStrategy.makeKey (ID u) f /\ v = val)
     \/ (k <> MultiKVStrategy.makeKey (ID u) f
         /\ In (k, v) (MultiKVStrategy.userFields u))) ->
  MultiKVStrategy.Read
    (SetBucket db MultiKVStrategy.bucketName
       (insert b (MultiKVStrategy.makeKey (ID u) f) (Leaf val))) (ID u') =
    Return (Some (fieldwise u'), None).
Proof.
  intros Hb Hsorted Hold Hwf Hid Hnew.
  apply (MultiKV_Read_holds _
           (insert b (MultiKVStrategy.makeKey (ID u) f) (Leaf val))).
  - now apply (GetBucket_SetBucket _ _ b).
  - now apply sorted_insert.
  - now apply (holds_after_put b u).
  - exact Hwf.
Qed.

(** X20.  MultiKV update then read.  On a bucket that holds a record,
    [UpdateField] with "balance" or "score" and a float64, or "login_count"
    and an int32, returns nil, and the following [Read] returns the record
    with that field replaced, its floats passed through an unsigned integer
    as after a write. *)
Theorem MultiKV_UpdateField_then_Read (db : DB) (b : Bucket) (u : UserInfo)
    (v : float64) (n : Z) :
  GetBucket db MultiKVStrategy.bucketName = Some b ->
  flat b -> sorted b -> holdsFields b u -> wf_user u ->
  in_uint 64 v -> in_int 32 n ->
  len (strconv.FormatInt n) <= MaxValueSize ->
  let after f value :=
    let r := MultiKVStrategy.UpdateField db (ID u) f value in
    (snd r, MultiKVStrategy.Read (fst r) (ID u)) in
  after (str "balance") (VFloat64 v) =
    (Return None, Return (Some (fieldwise (set_Balance u v)), None))
  /\ after (str "login_count") (VInt32 n) =
       (Return None, Return (Some (fieldwise (set_LoginCount u n)), None))
  /\ after (str "score") (VFloat64 v) =
       (Return None, Return (Some (fieldwise (set_Score u v)), None)).
Proof.
  intros Hb Hflat Hsorted Hold Hwf Hv Hn Hlen after. subst after.
  cbv beta zeta.
  assert (forall x : Z, len (le_put 8 x) <= MaxValueSize) as H8
    by (intros x; rewrite len_le_put; unfold MaxValueSize; lia).
  split; [|split]; unfold MultiKVStrategy.UpdateField, Update,
    MultiKVStrategy.named;
    repeat match goal with
           | |- context [bytes_eqb (str ?a) (str ?b)] =>
               let r := eval vm_compute in (bytes_eqb (str a) (str b)) in
               change (bytes_eqb (str a) (str b)) with r
           end;
    cbv iota; cbn [assert_type as_float64 as_int32 bind]; rewrite Hb;
    cbn [deref bind];
    rewrite Put_ok
      by (auto; apply makeKey_size; vm_compute; discriminate);
    cbn [bind fst snd]; f_equal.
  - apply (MultiKV_Read_after_put db b u (set_Balance u v)); auto.
    + destruct Hwf. split; assumption.
    + other_fields.
  - apply (MultiKV_Read_after_put db b u (set_LoginCount u n)); auto.
    + destruct Hwf. split; assumption.
    + other_fields.
  - apply (MultiKV_Read_after_put db b u (set_Score u v)); auto.
    + destruct Hwf. split; assumption.
    + other_fields.
Qed.

Lemma MultiKV_UpdateField_then_Read_witness :
  let u := sample 1 (F64.of_int 10) "one" in
  let db := populated MultiKV false [u] in
  let r := MultiKVStrategy.UpdateField db 1 (str "balance")
             (VFloat64 (F64.of_scaled 51 (-1))) in
  (snd r, MultiKVStrategy.Read (fst r) 1) =
    (Return None,
     Return (Some (set_Score (set_Balance u (F64.of_int 25)) (F64.of_int 99)),
             None)).
Proof.
  intros u db r.
  assert (wf_user u) as Hwf
    by (apply wf_sample; vm_compute; split; solve [discriminate | reflexivity]).
  assert (in_uint 64 (F64.of_scaled 51 (-1))) as Hv
    by (vm_compute; split; solve [discriminate | reflexivity]).
  assert (in_int 32 0) as Hn
    by (vm_compute; split; solve [discriminate | reflexivity]).
  assert (len (strconv.FormatInt 0) <= MaxValueSize) as Hlen
    by (vm_compute; discriminate).
  assert (GetBucket db MultiKVStrategy.bucketName =
          Some (putEach [] (MultiKVStrategy.userFields u))) as Hb
    by (vm_compute; reflexivity).
  destruct (MultiKV_UpdateField_then_Read db _ u (F64.of_scaled 51 (-1)) 0 Hb)
    as [H _]; [| | |exact Hwf|exact Hv|exact Hn|exact Hlen|exact H].
  - apply flat_putEach, flat_nil.
  - apply sorted_putEach, sorted_nil.
  - intros k v Hin. now apply lookup_putEach_in, Hin; apply userFields_NoDup.
Defined.

(* ================================================================== *)
(** * Dropped errors of the nested layout *)

Lemma lookup_put_ (b : Bucket) (kv : bytes * bytes) (k : bytes) :
  (fst kv = k -> MaxValueSize < len (snd kv)) ->
  lookup (NestedBucketStrategy.put_ b kv) k = lookup b k.
Proof.
  intros H. unfold NestedBucketStrategy.put_, Put.
  destruct (len (fst kv) =? 0); [reflexivity|].
  destruct (MaxKeySize <? len (fst kv)); [reflexivity|].
  destruct (Z.ltb_spec MaxValueSize (len (snd kv))) as [Hbig|Hfit];
    [reflexivity|].
  destruct (lookup b (fst kv)) as [[v|s]|] eqn:E; try reflexivity;
    apply lookup_insert_other; intros Ek; apply H in Ek; lia.
Qed.

Lemma lookup_fold_put_ (kvs : list (bytes * bytes)) (b : Bucket) (k : bytes) :
  (forall kv, In kv kvs -> fst kv = k -> MaxValueSize < len (snd kv)) ->
  lookup (fold_left NestedBucketStrategy.put_ kvs b) k = lookup b k.
Proof.
  revert b. induction kvs as [|kv r IH]; intros b H; [reflexivity|].
  cbn [fold_left]. rewrite IH by (intros; apply H; simpl; auto).
  apply lookup_put_. apply H. now left.
Qed.

(** X21.  [NestedBucketStrategy.writeUserFields] drops the error of every
    [userBucket.Put].  For a new record whose description is longer than
    the store takes as one value, [Write] still returns nil, and the bucket
    it created for the record has no "description" key: the field is lost
    without a report. *)
Theorem NestedBucket_Write_hides_put_errors (db root : Bucket)
    (u : UserInfo) :
  GetBucket db NestedBucketStrategy.bucketName = Some root ->
  lookup root (idKey (ID u)) = None ->
  MaxValueSize < len (Description u) ->
  snd (NestedBucketStrategy.Write db u) = Return None
  /\ exists root' ub,
       GetBucket (fst (NestedBucketStrategy.Write db u))
         NestedBucketStrategy.bucketName = Some root'
       /\ GetBucket root' (idKey (ID u)) = Some ub
       /\ Get ub (str "description") = None.
Proof.
  intros Hroot Hnone Hbig.
  unfold NestedBucketStrategy.Write, Update,
    NestedBucketStrategy.writeUserFields, CreateBucketIfNotExists.
  rewrite Hroot. cbn [deref bind]. rewrite len_idKey.
  change (8 =? 0) with false. cbv iota. rewrite Hnone. cbn [bind fst snd].
  split; [reflexivity|]. eexists _, _. split; [|split].
  - now apply (GetBucket_SetBucket _ _ root).
  - apply (GetBucket_SetBucket _ _ []). unfold GetBucket.
    now rewrite lookup_insert_same.
  - unfold Get. rewrite lookup_fold_put_; [reflexivity|].
    intros kv Hin Hk. unfold NestedBucketStrategy.userFields in Hin.
    cbn [In] in Hin.
    repeat (destruct Hin as [Hin|Hin];
            [subst kv; cbn [fst snd] in *; first [discriminate Hk|exact Hbig]|]).
    contradiction.
Qed.

Lemma NestedBucket_Write_hides_put_errors_witness :
  snd (NestedBucketStrategy.Write (fresh NestedBucket) hugeUser) = Return None.
Proof.
  destruct (NestedBucket_Write_hides_put_errors (fresh NestedBucket) []
              hugeUser) as [H _].
  - reflexivity.
  - reflexivity.
  - unfold hugeUser. rewrite Description_set, len_hugeText.
    unfold MaxValueSize. lia.
  - exact H.
Defined.

(* ================================================================== *)
(** * Sums over a field that cannot be summed *)

Lemma Binary_readFieldSum_other (users : list UserInfo) (fieldName : bytes)
    (count processed : Z) (sum : float64) :
  Forall wf_user users -> Forall textFits users ->
  ~ In fieldName [str "balance"; str "score"; str "login_count"] ->
  BinaryStrategy.readFieldSum_loop (map BinaryEntry users) fieldName
    count processed sum = Return (sum, None).
Proof.
  intros Hwf Hfit Hf.
  assert (forall f, In (str f) [str "balance"; str "score"; str "login_count"]
                    -> bytes_eqb fieldName (str f) = false) as Hne.
  { intros f Hin. apply bytes_eqb_neq. intros ->. contradiction. }
  revert processed. induction users as [|u users IH]; intros processed;
    [reflexivity|].
  inversion Hwf. inversion Hfit. subst.
  cbn [map BinaryEntry BinaryStrategy.readFieldSum_loop cursor_value].
  destruct (processed <? count); [|reflexivity].
  rewrite decodeBinary_encodeBinary by assumption.
  rewrite !Hne by (simpl; auto). now apply IH.
Qed.

(** X22.  Summing a field that is not "balance", "score" or "login_count".
    [BinaryStrategy.ReadFieldSum] has no default case: on a populated store
    it visits the records and returns 0 with a nil error.
    [BinaryWithNamesStrategy.ReadFieldSum] refuses at the first record it
    decodes, with the error "cannot sum field". *)
Theorem ReadFieldSum_of_another_field (fieldName : bytes) (mode : bool)
    (users : list UserInfo) (db : DB) (k : bytes) (n : node) (rest : Bucket)
    (user : UserInfo) (count : Z) :
  ~ In fieldName [str "balance"; str "score"; str "login_count"] ->
  (storable users ->
   BinaryStrategy.ReadFieldSum (populated Binary mode users) fieldName count =
     Return (F64.zero, None))
  /\ (GetBucket db BinaryWithNamesStrategy.bucketName = Some ((k, n) :: rest) ->
      BinaryWithNamesStrategy.decodeBinaryWithNames (cursor_value n) = Ok user ->
      0 < count ->
      BinaryWithNamesStrategy.ReadFieldSum db fieldName count =
        Return (F64.zero, Some (CannotSum fieldName))
      /\ kind (CannotSum fieldName) = UnsupportedField).
Proof.
  intros Hf. split.
  - intros Hs. unfold BinaryStrategy.ReadFieldSum, View, First.
    rewrite (populated_Binary mode users Hs).
    apply Binary_readFieldSum_other; auto; apply Hs.
  - intros Hb Hdec Hc. split; [|reflexivity].
    assert (forall f, In (str f) [str "balance"; str "score"; str "login_count"]
                      -> BinaryWithNamesStrategy.named fieldName f = false)
      as Hne.
    { intros f Hin. apply bytes_eqb_neq. intros ->. contradiction. }
    unfold BinaryWithNamesStrategy.ReadFieldSum, View, First. rewrite Hb.
    cbn [BinaryWithNamesStrategy.readFieldSum_loop].
    replace (0 <? count) with true by (symmetry; apply Z.ltb_lt; lia).
    rewrite Hdec. now rewrite !Hne by (simpl; auto).
Qed.

Lemma ReadFieldSum_of_another_field_witness :
  BinaryStrategy.ReadFieldSum (populated Binary true fiveUsers) (str "age") 5 =
    Return (F64.zero, None)
  /\ BinaryWithNamesStrategy.ReadFieldSum
       (populated BinaryWithNames true fiveUsers) (str "age") 5 =
       Return (F64.zero, Some (CannotSum (str "age"))).
Proof.
  assert (~ In (str "age") [str "balance"; str "score"; str "login_count"])
    as Hf by (vm_compute; intros [H|[H|[H|[]]]]; discriminate).
  set (db := populated BinaryWithNames true fiveUsers).
  destruct (GetBucket db BinaryWithNamesStrategy.bucketName) as [[|[k n] rest]|]
    eqn:Hb; [vm_compute in Hb; discriminate| |vm_compute in Hb; discriminate].
  assert (BinaryWithNamesStrategy.decodeBinaryWithNames (cursor_value n) =
          Ok (sample 0 (F64.of_scaled 21 (-1)) "first")) as Hdec
    by (vm_compute in Hb; injection Hb as <- <- _; vm_compute; reflexivity).
  destruct (ReadFieldSum_of_another_field (str "age") true fiveUsers db k n
              rest (sample 0 (F64.of_scaled 21 (-1)) "first") 5 Hf)
    as [H1 H2].
  split; [exact (H1 storable_fiveUsers)|].
  apply (H2 Hb Hdec). lia.
Defined.

(* ================================================================== *)
(** * The strategies over a library codec *)

Ltac each_codec H :=
  cbn [codecBuckets In] in H;
  repeat (destruct H as [H|H]; [injection H as <- <-|]); [..|contradiction].

Lemma codec_Read_stored (c : Codec) (s : StorageStrategy) (name : bytes)
    (db : DB) (b : Bucket) (id : Z) (data : bytes) :
  In (s, name) (codecBuckets c) ->
  GetBucket db name = Some b -> Get b (idKey id) = Some data ->
  Read s db id =
    Return (Some (fst (Unmarshal c data zeroUser)),
            snd (Unmarshal c data zeroUser)).
Proof.
  intros Hin Hb Hk.
  each_codec Hin; cbn [Read JSON GOB];
    unfold JSONStrategy.Read, GOBStrategy.Read, View; rewrite Hb, Hk;
    now destruct (Unmarshal c data zeroUser).
Qed.

Lemma codec_Write_stored (c : Codec) (s : StorageStrategy) (name : bytes)
    (db : DB) (b : Bucket) (u : UserInfo) (data : bytes) :
  In (s, name) (codecBuckets c) ->
  GetBucket db name = Some b -> flat b ->
  Marshal c u = Ok data -> len data <= MaxValueSize ->
  Write s db u =
    (SetBucket db name (insert b (idKey (ID u)) (Leaf data)), Return None).
Proof.
  intros Hin Hb Hflat Hm Hlen.
  each_codec Hin; cbn [Write JSON GOB];
    unfold JSONStrategy.Write, GOBStrategy.Write, Update; rewrite Hb, Hm;
    cbn [deref bind]; now rewrite Put_ok by auto using idKey_size.
Qed.

(** X23.  [JSONStrategy] and [GOBStrategy] over any codec, for a record the
    codec encodes to [data] and decodes back from it: on a set-up store
    [Write] returns nil and stores [data] under the record's key, the
    following [Read] returns the record, and reads of ids with other 64
    bits are as before. *)
Theorem codec_Write_then_Read (c : Codec) (s : StorageStrategy)
    (name : bytes) (db : DB) (b : Bucket) (u : UserInfo) (data : bytes) :
  In (s, name) (codecBuckets c) ->
  GetBucket db name = Some b -> flat b ->
  Marshal c u = Ok data -> len data <= MaxValueSize ->
  Unmarshal c data zeroUser = (u, None) ->
  Write s db u =
    (SetBucket db name (insert b (idKey (ID u)) (Leaf data)), Return None)
  /\ Read s (fst (Write s db u)) (ID u) = Return (Some u, None)
  /\ (forall id, uint64 id <> uint64 (ID u) ->
        Read s (fst (Write s db u)) id = Read s db id).
Proof.
  intros Hin Hb Hflat Hm Hlen Hu.
  rewrite (codec_Write_stored c s name db b u data) by assumption.
  cbn [fst]. split; [reflexivity|]. split.
  - rewrite (codec_Read_stored c s name _
               (insert b (idKey (ID u)) (Leaf data)) (ID u) data)
      by (eauto using GetBucket_SetBucket, Get_insert_same).
    now rewrite Hu.
  - intros id Hid.
    assert (Get (insert b (idKey (ID u)) (Leaf data)) (idKey id) =
            Get b (idKey id)) as Hg.
    { apply Get_insert_other. intros E. apply idKey_inj in E. congruence. }
    pose proof (GetBucket_SetBucket db name b
                  (insert b (idKey (ID u)) (Leaf data)) Hb) as Hb'.
    each_codec Hin; cbn [Read JSON GOB];
      unfold JSONStrategy.Read, GOBStrategy.Read, View;
      now rewrite Hb', Hb, Hg.
Qed.

Lemma codec_Write_then_Read_witness :
  let u := sample 1 (F64.of_scaled 21 (-1)) "one" in
  Read (GOB binaryCodec) (fst (Write (GOB binaryCodec)
                                 (fresh (GOB binaryCodec)) u)) 1 =
    Return (Some u, None).
Proof.
  intros u.
  destruct (codec_Write_then_Read binaryCodec (GOB binaryCodec)
              GOBStrategy.bucketName (fresh (GOB binaryCodec)) [] u
              (BinaryStrategy.encodeBinary u)) as (_ & H & _).
  - cbn [codecBuckets In]. auto.
  - reflexivity.
  - apply flat_nil.
  - reflexivity.
  - vm_compute. discriminate.
  - vm_compute. reflexivity.
  - exact H.
Defined.

Lemma codec_readMany_stops (c : Codec) (good : Bucket)
    (users : list UserInfo) (k : bytes) (n : node) (rest : Bucket)
    (part : UserInfo) (e : error) (count : Z) :
  Forall2 (fun en u => Unmarshal c (cursor_value (snd en)) zeroUser = (u, None))
    good users ->
  Unmarshal c (cursor_value n) zeroUser = (part, Some e) ->
  forall retrieved acc,
    retrieved + Z.of_nat (List.length users) < count ->
    JSONStrategy.readMany_loop c (good ++ (k, n) :: rest) count retrieved acc =
      (acc ++ users, Some e).
Proof.
  intros Hgood Hbad.
  induction Hgood as [|[k' n'] u good users Hu _ IH]; intros retrieved acc Hc.
  - cbn [app JSONStrategy.readMany_loop List.length Z.of_nat] in *.
    replace (retrieved <? count) with true by (symmetry; apply Z.ltb_lt; lia).
    rewrite Hbad. now rewrite app_nil_r.
  - cbn [app JSONStrategy.readMany_loop]. cbn [List.length] in Hc.
    replace (retrieved <? count) with true by (symmetry; apply Z.ltb_lt; lia).
    cbn [snd] in Hu. rewrite Hu. rewrite IH by lia.
    now rewrite <- app_assoc.
Qed.

(** X24.  Errors of the library codec in [JSONStrategy] and [GOBStrategy].
    An encoding error is what [Write] returns, the store unchanged.  A
    decoding error on the stored value is what [Read] returns, next to the
    record as far as the decoder filled it, and what [UpdateField] returns,
    the store unchanged.  [ReadMany] that meets a value it cannot decode
    before reaching [count] returns the error together with the records
    decoded before it. *)
Theorem codec_errors_are_returned (c : Codec) (s : StorageStrategy)
    (name : bytes) (db : DB) (b : Bucket) :
  In (s, name) (codecBuckets c) ->
  GetBucket db name = Some b ->
  (forall u e, Marshal c u = Fail e -> Write s db u = (db, Return (Some e)))
  /\ (forall id data part e,
        Get b (idKey id) = Some data ->
        Unmarshal c data zeroUser = (part, Some e) ->
        Read s db id = Return (Some part, Some e)
        /\ forall f v, UpdateField s db id f v = (db, Return (Some e)))
  /\ (forall startId count good users k n rest part e,
        Seek b (idKey startId) = good ++ (k, n) :: rest ->
        Forall2 (fun en u =>
                   Unmarshal c (cursor_value (snd en)) zeroUser = (u, None))
          good users ->
        Unmarshal c (cursor_value n) zeroUser = (part, Some e) ->
        Z.of_nat (List.length users) < count ->
        ReadMany s db startId count = Return (users, Some e)).
Proof.
  intros Hin Hb. split; [|split].
  - intros u e Hm.
    each_codec Hin; cbn [Write JSON GOB];
      unfold JSONStrategy.Write, GOBStrategy.Write, Update; now rewrite Hm.
  - intros id data part e Hk Hu. split.
    + rewrite (codec_Read_stored c s name db b id data) by assumption.
      now rewrite Hu.
    + intros f v.
      each_codec Hin; cbn [UpdateField JSON GOB];
        unfold JSONStrategy.UpdateField, GOBStrategy.UpdateField, Update;
        rewrite Hb; cbn [deref bind]; now rewrite Hk, Hu.
  - intros startId count good users k n rest part e Hseek Hgood Hbad Hc.
    each_codec Hin; cbn [ReadMany JSON GOB];
      unfold JSONStrategy.ReadMany, GOBStrategy.ReadMany, View;
      rewrite Hb, Hseek;
      now rewrite (codec_readMany_stops c good users k n rest part e count).
Qed.

Lemma codec_errors_are_returned_witness :
  Write (JSON noCodec) (fresh (JSON noCodec)) zeroUser =
    (fresh (JSON noCodec), Return (Some CodecError)).
Proof.
  destruct (codec_errors_are_returned noCodec (JSON noCodec)
              JSONStrategy.bucketName (fresh (JSON noCodec)) [])
    as (H & _).
  - cbn [codecBuckets In]. auto.
  - reflexivity.
  - now apply H.
Defined.

(* ================================================================== *)
(** * Updates of a field the layout does not handle *)

(** C7.  [UpdateField] with a field name that is not "balance",
    "login_count" or "score", on a record that exists.  The [switch] of
    [BinaryStrategy.UpdateField], [JSONStrategy.UpdateField] and
    [GOBStrategy.UpdateField] has no default case: the record is decoded,
    left as it is, encoded and put back, and the call returns nil.
    [MultiKVStrategy.UpdateField] and [NestedBucketStrategy.UpdateField]
    have no branch after their three tests: nothing is written and the
    call returns nil.  None of the five returns an error; only the tagged
    layout does ([BinaryWithNames_UpdateField_unsupported]). *)
Theorem UpdateField_unknown_field_returns_nil (db : DB) (b : Bucket)
    (id : Z) (fieldName : bytes) (value : any) :
  ~ In fieldName [str "balance"; str "login_count"; str "score"] ->
  (forall data user,
     GetBucket db BinaryStrategy.bucketName = Some b -> flat b ->
     Get b (idKey id) = Some data ->
     BinaryStrategy.decodeBinary data = Ok user ->
     len (BinaryStrategy.encodeBinary user) <= MaxValueSize ->
     BinaryStrategy.UpdateField db id fieldName value =
       (SetBucket db BinaryStrategy.bucketName
          (insert b (idKey id) (Leaf (BinaryStrategy.encodeBinary user))),
        Return None))
  /\ (forall c s name data user newData,
        In (s, name) (codecBuckets c) ->
        GetBucket db name = Some b -> flat b ->
        Get b (idKey id) = Some data ->
        Unmarshal c data zeroUser = (user, None) ->
        Marshal c user = Ok newData -> len newData <= MaxValueSize ->
        UpdateField s db id fieldName value =
          (SetBucket db name (insert b (idKey id) (Leaf newData)),
           Return None))
  /\ MultiKVStrategy.UpdateField db id fieldName value = (db, Return None)
  /\ (forall userBucket,
        GetBucket db NestedBucketStrategy.bucketName = Some b ->
        GetBucket b (idKey id) = Some userBucket ->
        NestedBucketStrategy.UpdateField db id fieldName value =
          (db, Return None)).
Proof.
  intros Hf.
  assert (forall f, In (str f) [str "balance"; str "login_count"; str "score"]
                    -> bytes_eqb fieldName (str f) = false) as Hne.
  { intros f Hin. apply bytes_eqb_neq. intros ->. contradiction. }
  assert (bytes_eqb fieldName (str "balance") = false) as H1
      by (apply Hne; simpl; auto).
  assert (bytes_eqb fieldName (str "login_count") = false) as H2
      by (apply Hne; simpl; auto).
  assert (bytes_eqb fieldName (str "score") = false) as H3
      by (apply Hne; simpl; auto).
  split; [|split; [|split]].
  - intros data user Hb Hflat Hk Hdec Hlen.
    unfold BinaryStrategy.UpdateField, Update. rewrite Hb.
    cbn [deref bind]. rewrite Hk, Hdec. cbn [bind].
    rewrite H1, H2, H3. cbn [bind].
    now rewrite Put_ok by auto using idKey_size.
  - intros c s name data user newData Hin Hb Hflat Hk Hdec Henc Hlen.
    each_codec Hin; cbn [UpdateField JSON GOB];
      unfold JSONStrategy.UpdateField, GOBStrategy.UpdateField, Update;
      rewrite Hb; cbn [deref bind]; rewrite Hk, Hdec, H1, H2, H3;
      cbn [bind]; rewrite Henc; cbn [bind];
      now rewrite Put_ok by auto using idKey_size.
  - unfold MultiKVStrategy.UpdateField, Update, MultiKVStrategy.named.
    now rewrite H1, H2, H3.
  - intros userBucket Hb Hu.
    unfold NestedBucketStrategy.UpdateField, Update,
      NestedBucketStrategy.named, MultiKVStrategy.named.
    rewrite Hb. cbn [deref bind]. rewrite Hu. now rewrite H1, H2, H3.
Qed.

Lemma UpdateField_unknown_field_returns_nil_witness :
  let u := sample 1 (F64.of_int 10) "one" in
  let f := str "nickname" in
  let v := VString (str "bob") in
  (let db := populated Binary false [u] in
   BinaryStrategy.UpdateField db 1 f v = (db, Return None))
  /\ (let db := populated (JSON binaryCodec) false [u] in
      UpdateField (JSON binaryCodec) db 1 f v = (db, Return None))
  /\ (let db := populated MultiKV false [u] in
      MultiKVStrategy.UpdateField db 1 f v = (db, Return None))
  /\ (let db := populated NestedBucket false [u] in
      NestedBucketStrategy.UpdateField db 1 f v = (db, Return None))
  /\ (let db := populated BinaryWithNames false [u] in
      BinaryWithNamesStrategy.UpdateField db 1 f v =
        (db, Return (Some (NotUpdatable f)))).
Proof.
  intros u f v.
  assert (~ In f [str "balance"; str "login_count"; str "score"]) as Hf
      by (vm_compute; intros [H|[H|[H|[]]]]; discriminate).
  split; [|split; [|split; [|split]]].
  - intros db.
    destruct (UpdateField_unknown_field_returns_nil db
                [BinaryEntry u] 1 f v Hf) as (H & _).
    rewrite (H (BinaryStrategy.encodeBinary u) u).
    + vm_compute. reflexivity.
    + vm_compute. reflexivity.
    + apply flatb_flat. reflexivity.
    + vm_compute. reflexivity.
    + vm_compute. reflexivity.
    + vm_compute. discriminate.
  - intros db.
    destruct (UpdateField_unknown_field_returns_nil db
                [BinaryEntry u] 1 f v Hf) as (_ & H & _).
    rewrite (H binaryCodec (JSON binaryCodec) JSONStrategy.bucketName
               (BinaryStrategy.encodeBinary u) u
               (BinaryStrategy.encodeBinary u)).
    + vm_compute. reflexivity.
    + cbn [codecBuckets In]. auto.
    + vm_compute. reflexivity.
    + apply flatb_flat. reflexivity.
    + vm_compute. reflexivity.
    + vm_compute. reflexivity.
    + reflexivity.
    + vm_compute. discriminate.
  - intros db.
    exact (proj1 (proj2 (proj2 (UpdateField_unknown_field_returns_nil db
                                  [] 1 f v Hf)))).
  - intros db.
    destruct (GetBucket db NestedBucketStrategy.bucketName) as [root|] eqn:Hb;
      [|vm_compute in Hb; discriminate].
    destruct (GetBucket root (idKey 1)) as [ub|] eqn:Hu;
      [|vm_compute in Hb; injection Hb as <-; vm_compute in Hu; discriminate].
    exact (proj2 (proj2 (proj2 (UpdateField_unknown_field_returns_nil db
                                  root 1 f v Hf))) ub Hb Hu).
  - vm_compute. reflexivity.
Defined.

(* ================================================================== *)
(** * Sums of balances over a populated store *)

Lemma Forall_Forall2 {A B} (R : A -> B -> Prop) (l : list A) :
  Forall (fun a => exists b, R a b) l -> exists l', Forall2 R l l'.
Proof.
  induction 1 as [|a l [b Hb] _ [l' IH]].
  - exists []. constructor.
  - exists (b :: l'). now constructor.
Qed.

Lemma ascending_tail (u : UserInfo) (users : list UserInfo) :
  ascending (u :: users) ->
  ascending users /\ 0 <= ID u < 2 ^ 63
  /\ Forall (fun u' => compare_bytes (idKey (ID u)) (idKey (ID u')) = Lt) users.
Proof.
  intros [Ha Hr]. simpl in Ha.
  inversion Ha as [|? ? Ha' Hlt]; inversion Hr as [|? ? Hu Hr']; subst.
  split; [now split|]. split; [exact Hu|].
  rewrite Forall_map in Hlt. rewrite Forall_forall in *.
  intros u' Hin. rewrite compare_idKey by auto.
  apply Z.compare_lt_iff. now apply Hlt.
Qed.

(** Inserting records with ascending ids appends their entries, whatever
    the encoding. *)
Lemma blob_stepAll_ascending (enc : UserInfo -> res bytes)
    (users : list UserInfo) (entries b : Bucket) :
  Forall2 (storedAs enc) users entries ->
  ascending users -> flat b ->
  Forall (fun e => Forall (fun u => compare_bytes (fst e) (idKey (ID u)) = Lt)
                     users) b ->
  stepAll (blobStep enc) b users = Ok (b ++ entries).
Proof.
  intros H. revert b.
  induction H as [|u e users entries (data & Henc & Hlen & ->) _ IH];
    intros b Hasc Hflat Hlt.
  - simpl. now rewrite app_nil_r.
  - destruct (ascending_tail _ _ Hasc) as (Hasc' & Hu & Hnext).
    assert (Forall (fun e => compare_bytes (fst e) (idKey (ID u)) = Lt) b)
      as Hb.
    { eapply Forall_impl; [|exact Hlt]. intros e He. now inversion He. }
    cbn [stepAll]. unfold blobStep at 1. rewrite Henc. cbn [bind].
    rewrite Put_ok by auto using idKey_size. cbn [bind].
    rewrite insert_last by assumption.
    rewrite IH; [now rewrite <- app_assoc|exact Hasc'| |].
    + rewrite <- insert_last by assumption. now apply flat_insert.
    + apply Forall_app. split.
      * eapply Forall_impl; [|exact Hlt]. intros e He. now inversion He.
      * constructor; [exact Hnext|constructor].
Qed.

Section Populated.
Variables (s : StorageStrategy) (name : bytes)
  (step : Bucket -> UserInfo -> res Bucket).
Hypothesis Hsteps : Stepwise s name step.
Hypothesis Hwrite : forall db b u,
  GetBucket db name = Some b -> Write s db u = committed db name (step b u).
Hypothesis Hfresh : GetBucket (fresh s) name = Some [].

Lemma writeEach_stepAll (users : list UserInfo) (db : DB) (b b' : Bucket) :
  GetBucket db name = Some b ->
  stepAll step b users = Ok b' ->
  StrategyVariant.writeEach s db users = (SetBucket db name b', Return None).
Proof.
  revert db b. induction users as [|u r IH]; intros db b Hb Hst.
  - simpl in Hst. injection Hst as <-.
    simpl. now rewrite (SetBucket_same _ _ _ Hb).
  - cbn [stepAll] in Hst.
    destruct (step b u) as [b1| |] eqn:Hstep; try discriminate.
    cbn [bind] in Hst. cbn [StrategyVariant.writeEach].
    rewrite (Hwrite _ _ _ Hb), Hstep. cbn [committed].
    rewrite (IH _ b1 (GetBucket_SetBucket _ _ _ _ Hb) Hst).
    now rewrite SetBucket_SetBucket.
Qed.

(** The bucket of the strategy after inserting into a fresh store, in
    either mode. *)
Lemma populated_stepAll (mode : bool) (users : list UserInfo) (b' : Bucket) :
  stepAll step [] users = Ok b' ->
  GetBucket (populated s mode users) name = Some b'.
Proof.
  intros Hst. unfold populated, StrategyVariant.WriteAll.
  cbn [StrategyVariant.Bulk StrategyVariant.Strategy]. destruct mode.
  - rewrite (WriteMany_steps _ _ _ Hsteps _ _ _ Hfresh), Hst.
    cbn [committed fst]. apply (GetBucket_SetBucket _ _ _ _ Hfresh).
  - rewrite (writeEach_stepAll _ _ _ _ Hfresh Hst).
    cbn [fst]. apply (GetBucket_SetBucket _ _ _ _ Hfresh).
Qed.
End Populated.

Lemma BinaryWithNames_Write_step (db : DB) (b : Bucket) (user : UserInfo) :
  GetBucket db BinaryWithNamesStrategy.bucketName = Some b ->
  BinaryWithNamesStrategy.Write db user =
    committed db BinaryWithNamesStrategy.bucketName
      (BinaryWithNamesStep b user).
Proof.
  intros Hb.
  unfold BinaryWithNamesStrategy.Write, Update, BinaryWithNamesStep.
  rewrite Hb.
  destruct (BinaryWithNamesStrategy.encodeBinaryWithNames user) as [data| |];
    cbn [bind]; try reflexivity.
  destruct (Put b (idKey (ID user)) data); reflexivity.
Qed.

Lemma codec_Write_step (c : Codec) (s : StorageStrategy) (name : bytes)
    (db : DB) (b : Bucket) (user : UserInfo) :
  In (s, name) (codecBuckets c) ->
  GetBucket db name = Some b ->
  Write s db user = committed db name (CodecStep c b user).
Proof.
  intros Hin Hb.
  each_codec Hin; cbn [Write JSON GOB];
    unfold JSONStrategy.Write, GOBStrategy.Write, Update, CodecStep;
    rewrite Hb;
    (destruct (Marshal c user) as [data| |]; cbn [bind deref];
     try reflexivity);
    destruct (Put b (idKey (ID user)) data); reflexivity.
Qed.

Lemma codec_Stepwise (c : Codec) (s : StorageStrategy) (name : bytes) :
  In (s, name) (codecBuckets c) -> Stepwise s name (CodecStep c).
Proof.
  intros Hin. each_codec Hin; [apply JSON_Stepwise|apply GOB_Stepwise].
Qed.

(** The sum loops over entries that decode to the records. *)
Lemma Binary_sum_entries (users : list UserInfo) (entries : Bucket) :
  Forall2 (fun u e =>
             BinaryStrategy.decodeBinary (cursor_value (snd e)) = Ok u)
    users entries ->
  forall count processed sum,
    BinaryStrategy.readFieldSum_loop entries (str "balance") count processed
      sum =
    Return (fold_left F64.add
              (map Balance (firstn (Z.to_nat (count - processed)) users)) sum,
            None).
Proof.
  induction 1 as [|u [k n] users entries Hu _ IH]; intros count processed sum.
  - simpl. now rewrite firstn_nil.
  - cbn [BinaryStrategy.readFieldSum_loop]. cbn [snd] in Hu.
    destruct (Z.ltb_spec processed count) as [Hlt|Hge].
    + rewrite Hu.
      change (bytes_eqb (str "balance") (str "balance")) with true.
      cbv iota. rewrite IH.
      replace (Z.to_nat (count - processed))
        with (S (Z.to_nat (count - (processed + 1)))) by lia.
      reflexivity.
    + replace (Z.to_nat (count - processed)) with O by lia. reflexivity.
Qed.

Lemma BinaryWithNames_sum_entries (users : list UserInfo) (entries : Bucket) :
  Forall2 (fun u e =>
             BinaryWithNamesStrategy.decodeBinaryWithNames
               (cursor_value (snd e)) = Ok u)
    users entries ->
  forall count processed sum,
    BinaryWithNamesStrategy.readFieldSum_loop entries (str "balance") count
      processed sum =
    Return (fold_left F64.add
              (map Balance (firstn (Z.to_nat (count - processed)) users)) sum,
            None).
Proof.
  induction 1 as [|u [k n] users entries Hu _ IH]; intros count processed sum.
  - simpl. now rewrite firstn_nil.
  - cbn [BinaryWithNamesStrategy.readFieldSum_loop]. cbn [snd] in Hu.
    destruct (Z.ltb_spec processed count) as [Hlt|Hge].
    + rewrite Hu.
      change (BinaryWithNamesStrategy.named (str "balance") "balance")
        with true.
      cbv iota. rewrite IH.
      replace (Z.to_nat (count - processed))
        with (S (Z.to_nat (count - (processed + 1)))) by lia.
      reflexivity.
    + replace (Z.to_nat (count - processed)) with O by lia. reflexivity.
Qed.

Lemma codec_sum_entries (c : Codec) (users : list UserInfo)
    (entries : Bucket) :
  Forall2 (fun u e => Unmarshal c (cursor_value (snd e)) zeroUser = (u, None))
    users entries ->
  forall count processed sum,
    JSONStrategy.readFieldSum_loop c entries (str "balance") count processed
      sum =
    (fold_left F64.add
       (map Balance (firstn (Z.to_nat (count - processed)) users)) sum,
     None).
Proof.
  induction 1 as [|u [k n] users entries Hu _ IH]; intros count processed sum.
  - simpl. now rewrite firstn_nil.
  - cbn [JSONStrategy.readFieldSum_loop]. cbn [snd] in Hu.
    destruct (Z.ltb_spec processed count) as [Hlt|Hge].
    + rewrite Hu.
      change (bytes_eqb (str "balance") (str "balance")) with true.
      cbv iota. rewrite IH.
      replace (Z.to_nat (count - processed))
        with (S (Z.to_nat (count - (processed + 1)))) by lia.
      reflexivity.
    + replace (Z.to_nat (count - processed)) with O by lia. reflexivity.
Qed.

Lemma sum_of_all (users : list UserInfo) :
  fold_left F64.add
    (map Balance
       (firstn (Z.to_nat (Z.of_nat (List.length users) - 0)) users))
    F64.zero = sumOf (map Balance users).
Proof. now rewrite Z.sub_0_r, Nat2Z.id, firstn_all. Qed.

Lemma Forall2_conj {A B} (R1 R2 : A -> B -> Prop) (l : list A)
    (l' : list B) :
  Forall2 (fun a b => R1 a b /\ R2 a b) l l' ->
  Forall2 R1 l l' /\ Forall2 R2 l l'.
Proof.
  induction 1 as [|a b l l' [H1 H2] _ [IH1 IH2]]; split; now constructor.
Qed.

Ltac split_entries H He Hd :=
  apply Forall_Forall2 in H; destruct H as [entries H];
  apply Forall2_conj in H; destruct H as [He Hd].

(** C4 as stated fails: the five balances add up to 125, not 124, and 125
    is what the Binary layout returns. *)
Lemma Binary_ReadFieldSum_five_is_not_124 :
  map Balance fiveUsers = fiveBalances
  /\ BinaryStrategy.ReadFieldSum (populated Binary true fiveUsers)
       (str "balance") 5 = Return (F64.of_int 125, None)
  /\ F64.of_int 125 <> F64.of_int 124
  /\ BinaryStrategy.ReadFieldSum (populated Binary true fiveUsers)
       (str "balance") 5 <> Return (F64.of_int 124, None).
Proof.
  vm_compute. repeat split; try reflexivity; discriminate.
Qed.

(** C4, as the code has it.  Records with strictly ascending ids that are
    not negative are inserted into a fresh store, in either mode, and
    [ReadFieldSum] is asked for the balance of all of them.  On four
    layouts it returns, with a nil error, the float64 sum of the balances,
    added from zero in the order of the ids: on Binary for records whose
    fields are within their types; on Binary+Names for such records with a
    description that is not empty; on JSON and GOB for every codec that
    encodes each record and decodes it back; the encoded values being
    within the value limit of the store.  For the balances 10.5, 20.25, 0,
    -5.75, 100 this sum is 125, which is not 124. *)
Theorem ReadFieldSum_balance (mode : bool) (users : list UserInfo) :
  ascending users ->
  let count := Z.of_nat (List.length users) in
  let total := Return (sumOf (map Balance users), @None error) in
  (Forall binaryKeeps users ->
   BinaryStrategy.ReadFieldSum (populated Binary mode users)
     (str "balance") count = total)
  /\ (Forall taggedKeeps users ->
      BinaryWithNamesStrategy.ReadFieldSum
        (populated BinaryWithNames mode users) (str "balance") count = total)
  /\ (forall c s name,
        In (s, name) (codecBuckets c) -> Forall (codecKeeps c) users ->
        ReadFieldSum s (populated s mode users) (str "balance") count = total)
  /\ (map Balance users = fiveBalances ->
      sumOf (map Balance users) = F64.of_int 125)
  /\ F64.of_int 125 <> F64.of_int 124.
Proof.
  intros Hasc count total. subst count total.
  split; [|split; [|split; [|split]]].
  - intros Hk.
    assert (Forall (fun u => exists e,
              storedAs (fun u => Ok (BinaryStrategy.encodeBinary u)) u e
              /\ BinaryStrategy.decodeBinary (cursor_value (snd e)) = Ok u)
              users) as H.
    { eapply Forall_impl; [|exact Hk]. intros u (Hwf & Hfit & Hlen).
      exists (BinaryEntry u). split.
      - exists (BinaryStrategy.encodeBinary u). now repeat split.
      - now apply decodeBinary_encodeBinary. }
    split_entries H He Hd.
    unfold BinaryStrategy.ReadFieldSum, View, First.
    rewrite (populated_stepAll Binary BinaryStrategy.bucketName BinaryStep
               Binary_Stepwise Binary_Write_step fresh_Binary_bucket mode
               users entries).
    + rewrite (Binary_sum_entries users entries Hd).
      now rewrite sum_of_all.
    + apply (blob_stepAll_ascending _ users entries [] He Hasc);
        [intros k s'; discriminate|constructor].
  - intros Hk.
    assert (Forall (fun u => exists e,
              storedAs BinaryWithNamesStrategy.encodeBinaryWithNames u e
              /\ BinaryWithNamesStrategy.decodeBinaryWithNames
                   (cursor_value (snd e)) = Ok u) users) as H.
    { eapply Forall_impl; [|exact Hk].
      intros u (Hwf & Hfit & Hd & data & Henc & Hlen).
      exists (idKey (ID u), Leaf data). split.
      - exists data. now repeat split.
      - rewrite encodeBinaryWithNames_bytes in Henc. injection Henc as <-.
        now apply decodeBinaryWithNames_taggedBytes. }
    split_entries H He Hd.
    unfold BinaryWithNamesStrategy.ReadFieldSum, View, First.
    rewrite (populated_stepAll BinaryWithNames
               BinaryWithNamesStrategy.bucketName BinaryWithNamesStep
               BinaryWithNames_Stepwise BinaryWithNames_Write_step
               eq_refl mode users entries).
    + rewrite (BinaryWithNames_sum_entries users entries Hd).
      now rewrite sum_of_all.
    + apply (blob_stepAll_ascending _ users entries [] He Hasc);
        [intros k s'; discriminate|constructor].
  - intros c s name Hin Hk.
    assert (Forall (fun u => exists e,
              storedAs (Marshal c) u e
              /\ Unmarshal c (cursor_value (snd e)) zeroUser = (u, None))
              users) as H.
    { eapply Forall_impl; [|exact Hk]. intros u (data & Henc & Hlen & Hdec).
      exists (idKey (ID u), Leaf data). split; [|exact Hdec].
      exists data. now repeat split. }
    split_entries H He Hd.
    assert (GetBucket (populated s mode users) name = Some entries) as Hb.
    { apply (populated_stepAll s name (CodecStep c)
               (codec_Stepwise c s name Hin)
               (fun db b u => codec_Write_step c s name db b u Hin)).
      - clear - Hin. each_codec Hin; reflexivity.
      - apply (blob_stepAll_ascending _ users entries [] He Hasc);
          [intros k s'; discriminate|constructor]. }
    pose proof (codec_sum_entries c users entries Hd
                  (Z.of_nat (List.length users)) 0 F64.zero) as Hsum.
    rewrite sum_of_all in Hsum.
    each_codec Hin; cbn [ReadFieldSum JSON GOB];
      unfold JSONStrategy.ReadFieldSum, GOBStrategy.ReadFieldSum, View, First;
      now rewrite Hb, Hsum.
  - intros ->. vm_compute. reflexivity.
  - vm_compute. discriminate.
Qed.

Lemma keeps_fiveUsers :
  ascending fiveUsers /\ Forall binaryKeeps fiveUsers
  /\ Forall taggedKeeps fiveUsers
  /\ Forall (codecKeeps binaryCodec) fiveUsers.
Proof.
  destruct storable_fiveUsers as [Ha Hr Hw Hf Hv].
  assert (Forall binaryKeeps fiveUsers) as Hb.
  { rewrite Forall_forall in *. intros u Hin.
    exact (conj (Hw u Hin) (conj (Hf u Hin) (Hv u Hin))). }
  assert (Forall (fun u => Description u <> []
            /\ exists data,
                 BinaryWithNamesStrategy.encodeBinaryWithNames u = Ok data
                 /\ len data <= MaxValueSize) fiveUsers) as Ht.
  { each_user ltac:(split; [discriminate|]; eexists;
                    split; [apply encodeBinaryWithNames_bytes|];
                    vm_compute; discriminate). }
  split; [now split|]. split; [exact Hb|]. split.
  - rewrite Forall_forall in *. intros u Hin.
    destruct (Hb u Hin) as (Hwf & Hfit & _). destruct (Ht u Hin) as (Hd & He).
    exact (conj Hwf (conj Hfit (conj Hd He))).
  - eapply Forall_impl; [|exact Hb]. intros u (Hwf & Hfit & Hlen).
    exists (BinaryStrategy.encodeBinary u).
    split; [reflexivity|]. split; [exact Hlen|].
    cbn [Unmarshal binaryCodec].
    now rewrite decodeBinary_encodeBinary.
Qed.

Lemma ReadFieldSum_balance_witness :
  BinaryStrategy.ReadFieldSum (populated Binary false fiveUsers)
    (str "balance") 5 = Return (F64.of_int 125, None)
  /\ BinaryWithNamesStrategy.ReadFieldSum
       (populated BinaryWithNames true fiveUsers) (str "balance") 5
     = Return (F64.of_int 125, None)
  /\ ReadFieldSum (GOB binaryCodec)
       (populated (GOB binaryCodec) false fiveUsers) (str "balance") 5
     = Return (F64.of_int 125, None).
Proof.
  destruct keeps_fiveUsers as (Hasc & Hb & Ht & Hc).
  destruct (ReadFieldSum_balance false fiveUsers Hasc)
    as (H1 & _ & H3 & Hsum & _).
  destruct (ReadFieldSum_balance true fiveUsers Hasc) as (_ & H2 & _).
  specialize (H1 Hb). specialize (H2 Ht).
  specialize (H3 binaryCodec (GOB binaryCodec) GOBStrategy.bucketName).
  rewrite (Hsum eq_refl) in H1, H2, H3.
  split; [exact H1|]. split; [exact H2|].
  apply H3; [|exact Hc]. cbn [codecBuckets In]. auto.
Defined.

(** What the theorem leaves out.  The MultiKV and the nested bucket layout
    store [uint64(balance)] (see [roundtrip_failures]): on the five records
    they return 2^64, the converted -5.75 swamping the rest.  The tagged
    layout cannot decode a record with an empty description, and returns
    the decoding error with a sum of zero. *)
Lemma ReadFieldSum_balance_elsewhere :
  MultiKVStrategy.ReadFieldSum (populated MultiKV true fiveUsers)
    (str "balance") 5 = Return (F64.of_scaled 1 64, None)
  /\ NestedBucketStrategy.ReadFieldSum (populated NestedBucket true fiveUsers)
       (str "balance") 5 = Return (F64.of_scaled 1 64, None)
  /\ BinaryWithNamesStrategy.ReadFieldSum
       (populated BinaryWithNames true
          (map (fun u => set_Description u []) fiveUsers))
       (str "balance") 5
     = Return (F64.zero, Some (ReadFailed ReadStr (str "description") EOF)).
Proof. vm_compute. repeat split; reflexivity. Qed.

(* ================================================================== *)
(** * The order of the printed table and the averages *)

Lemma bytes_ltb_irrefl (a : bytes) : bytes_ltb a a = false.
Proof. unfold bytes_ltb. now rewrite compare_bytes_refl. Qed.

Lemma bytes_ltb_asym (a b : bytes) :
  bytes_ltb a b = true -> bytes_ltb b a = false.
Proof.
  unfold bytes_ltb. rewrite (compare_bytes_antisym a b).
  now destruct (compare_bytes a b).
Qed.

Lemma bytes_ltb_trans (a b c : bytes) :
  bytes_ltb a b = true -> bytes_ltb b c = true -> bytes_ltb a c = true.
Proof.
  unfold bytes_ltb.
  destruct (compare_bytes a b) eqn:E1; try discriminate.
  destruct (compare_bytes b c) eqn:E2; try discriminate.
  now rewrite (compare_bytes_trans a b c E1 E2).
Qed.

Lemma bytes_ltb_total (a b : bytes) :
  bytes_ltb a b = false -> bytes_ltb b a = false -> a = b.
Proof.
  unfold bytes_ltb. rewrite (compare_bytes_antisym a b).
  destruct (compare_bytes a b) eqn:E; try discriminate.
  intros _ _. now apply compare_bytes_eq.
Qed.

Ltac split_tests :=
  repeat match goal with
         | |- context [?x =? ?y] =>
             destruct (Z.eqb_spec x y); [subst|]; cbn [negb]
         | |- context [bytes_eqb ?x ?y] =>
             let E := fresh "E" in
             destruct (bytes_eqb x y) eqn:E;
             [apply bytes_eqb_eq in E; subst|apply bytes_eqb_neq in E];
             cbn [negb]
         | H : context [?x =? ?y] |- _ =>
             destruct (Z.eqb_spec x y); [subst|]; cbn [negb] in *
         | H : context [bytes_eqb ?x ?y] |- _ =>
             let E := fresh "E" in
             destruct (bytes_eqb x y) eqn:E;
             [apply bytes_eqb_eq in E; subst|apply bytes_eqb_neq in E];
             cbn [negb] in *
         end.

(** X25.  The less function by which [printResults] sorts is a strict order
    on the results, as [sort.Slice] needs: no result is less than itself,
    it is asymmetric and transitive, and two results neither of which is
    less than the other agree on record count, strategy, insertion mode and
    operation.  Record count comes first, then the strategy name in byte
    order, then single before bulk, then the operation name. *)
Theorem less_is_a_strict_order (a b c : Main.BenchmarkResult) :
  Main.less a a = false
  /\ (Main.less a b = true -> Main.less b a = false)
  /\ (Main.less a b = true -> Main.less b c = true -> Main.less a c = true)
  /\ (Main.less a b = false -> Main.less b a = false ->
      Main.keyOf a = Main.keyOf b).
Proof.
  destruct a as [s1 b1 o1 d1 y1 c1], b as [s2 b2 o2 d2 y2 c2],
    c as [s3 b3 o3 d3 y3 c3].
  unfold Main.less, Main.keyOf.
  cbn [Main.Strategy Main.Bulk Main.Operation Main.RecordCount].
  split; [|split; [|split]].
  - rewrite Z.eqb_refl, bytes_eqb_refl, Bool.eqb_reflx. cbn [negb].
    apply bytes_ltb_irrefl.
  - intros H. split_tests; try lia;
      try (apply Z.ltb_lt in H; apply Z.ltb_ge; lia);
      try (now apply bytes_ltb_asym);
      try congruence.
    destruct b1, b2; cbn in *; try discriminate; try reflexivity;
      now apply bytes_ltb_asym.
  - intros H1 H2. split_tests; try lia; try congruence;
      try (apply Z.ltb_lt in H1; apply Z.ltb_lt in H2; apply Z.ltb_lt; lia);
      try (apply Z.ltb_lt in H1; apply Z.ltb_lt; lia);
      try (apply Z.ltb_lt in H2; apply Z.ltb_lt; lia);
      try (eapply bytes_ltb_trans; eassumption);
      try (exfalso; apply bytes_ltb_asym in H1; congruence);
      try (destruct b1, b2, b3; cbn in *; try discriminate; try reflexivity;
           try congruence; eapply bytes_ltb_trans; eassumption).
  - intros H1 H2. split_tests; try lia;
      try (apply Z.ltb_ge in H1; apply Z.ltb_ge in H2; lia);
      try (exfalso; match goal with
                    | E : _ <> _ |- _ => apply E; now apply bytes_ltb_total
                    end).
    destruct b1, b2; cbn in *; try discriminate;
      now rewrite (bytes_ltb_total o1 o2).
Qed.

Lemma key_eqb_eq (a b : Main.key) : Main.key_eqb a b = true <-> a = b.
Proof.
  destruct a as [[[s1 b1] o1] c1], b as [[[s2 b2] o2] c2]. unfold Main.key_eqb.
  rewrite !andb_true_iff, !bytes_eqb_eq, Bool.eqb_true_iff, Z.eqb_eq.
  split; [intros [[[-> ->] ->] ->]; reflexivity|].
  intros E. injection E as -> -> -> ->. auto.
Qed.

Lemma key_eqb_refl (a : Main.key) : Main.key_eqb a a = true.
Proof. now apply key_eqb_eq. Qed.

Lemma key_eqb_neq (a b : Main.key) : Main.key_eqb a b = false <-> a <> b.
Proof.
  destruct (Main.key_eqb a b) eqn:E.
  - apply key_eqb_eq in E. split; [discriminate|congruence].
  - split; [|reflexivity]. intros _ H. apply key_eqb_eq in H. congruence.
Qed.

Lemma keyOf_average (k : Main.key) (slice : list Main.BenchmarkResult) :
  Main.keyOf (Main.average (k, slice)) = k.
Proof. now destruct k as [[[s b] o] c]. Qed.

Lemma sliceOf_append (g : list (Main.key * list Main.BenchmarkResult))
    (k k' : Main.key) (r : Main.BenchmarkResult) :
  sliceOf (Main.append g k r) k' =
    if Main.key_eqb k k' then
      Some (match sliceOf g k with Some s => s ++ [r] | None => [r] end)
    else sliceOf g k'.
Proof.
  unfold sliceOf. induction g as [|[k0 s0] g IH]; cbn [Main.append find fst].
  - destruct (Main.key_eqb k k'); reflexivity.
  - destruct (Main.key_eqb k0 k) eqn:E; cbn [find fst].
    + apply key_eqb_eq in E. subst k0.
      destruct (Main.key_eqb k k'); reflexivity.
    + destruct (Main.key_eqb k0 k') eqn:E'.
      * apply key_eqb_eq in E'. subst k0. cbn [option_map snd].
        now rewrite (proj2 (key_eqb_neq k k'))
          by (apply key_eqb_neq in E; congruence).
      * exact IH.
Qed.

Lemma sliceOf_None (g : list (Main.key * list Main.BenchmarkResult))
    (k : Main.key) :
  sliceOf g k = None -> ~ In k (map fst g).
Proof.
  unfold sliceOf. induction g as [|[k0 s0] g IH]; cbn [find fst map In];
    [tauto|].
  destruct (Main.key_eqb k0 k) eqn:E; [discriminate|].
  apply key_eqb_neq in E. intros H [H'|H']; [congruence|]. now apply IH.
Qed.

Lemma keys_append (g : list (Main.key * list Main.BenchmarkResult))
    (k : Main.key) (r : Main.BenchmarkResult) :
  map fst (Main.append g k r) =
    match sliceOf g k with
    | Some _ => map fst g
    | None => map fst g ++ [k]
    end.
Proof.
  unfold sliceOf. induction g as [|[k0 s0] g IH]; cbn [Main.append find fst];
    [reflexivity|].
  destruct (Main.key_eqb k0 k) eqn:E; cbn [map fst option_map];
    [reflexivity|].
  rewrite IH. now destruct (find _ g).
Qed.

Lemma sliceOf_In (g : list (Main.key * list Main.BenchmarkResult))
    (k : Main.key) (s : list Main.BenchmarkResult) :
  NoDup (map fst g) -> (In (k, s) g <-> sliceOf g k = Some s).
Proof.
  unfold sliceOf. induction g as [|[k0 s0] g IH]; cbn [find fst map In];
    intros Hnd.
  - split; [tauto|discriminate].
  - inversion Hnd as [|? ? Hk Hnd']. subst.
    destruct (Main.key_eqb k0 k) eqn:E; cbn [option_map snd].
    + apply key_eqb_eq in E. subst k0. split.
      * intros [H|H]; [now injection H as ->|].
        elim Hk. apply in_map_iff. now exists (k, s).
      * intros H. injection H as ->. now left.
    + apply key_eqb_neq in E. rewrite <- (IH Hnd'). split.
      * intros [H|H]; [injection H as -> _; congruence|exact H].
      * now right.
Qed.

Lemma group_invariant (results done : list Main.BenchmarkResult)
    (g : list (Main.key * list Main.BenchmarkResult)) :
  NoDup (map fst g) ->
  (forall k, sliceOf g k =
             match resultsOf k done with [] => None | rs => Some rs end) ->
  let g' := fold_left (fun grouped r => Main.append grouped (Main.keyOf r) r)
              results g in
  NoDup (map fst g')
  /\ (forall k, sliceOf g' k =
                match resultsOf k (done ++ results) with
                | [] => None
                | rs => Some rs
                end).
Proof.
  revert done g. induction results as [|r results IH]; intros done g Hnd Hg.
  - cbn [fold_left]. now rewrite app_nil_r.
  - cbn [fold_left].
    replace (done ++ r :: results) with ((done ++ [r]) ++ results)
      by now rewrite <- app_assoc.
    apply IH.
    + rewrite keys_append. destruct (sliceOf g (Main.keyOf r)) eqn:E;
        [exact Hnd|].
      apply NoDup_app; [exact Hnd|repeat constructor; tauto|].
      intros x Hx [<-|[]]. now apply sliceOf_None in E.
    + intros k. rewrite sliceOf_append. unfold resultsOf in *.
      rewrite filter_app. cbn [filter].
      destruct (Main.key_eqb (Main.keyOf r) k) eqn:E.
      * apply key_eqb_eq in E. subst k. rewrite Hg.
        destruct (filter _ done); reflexivity.
      * rewrite app_nil_r. apply Hg.
Qed.

Lemma group_slices (results : list Main.BenchmarkResult) :
  NoDup (map fst (Main.group results))
  /\ (forall k s, In (k, s) (Main.group results) <->
                  s = resultsOf k results /\ s <> []).
Proof.
  destruct (group_invariant results [] []) as [Hnd Hs].
  - constructor.
  - reflexivity.
  - cbn [app] in Hs. fold (Main.group results) in Hnd, Hs.
    split; [exact Hnd|]. intros k s.
    rewrite (sliceOf_In _ k s Hnd), Hs.
    destruct (resultsOf k results) as [|x rs]; split.
    + discriminate.
    + intros [-> H]. now elim H.
    + intros H. injection H as <-. split; [reflexivity|discriminate].
    + intros [-> _]. reflexivity.
Qed.

(** X26.  [calculateAverages] returns, in an order that is not determined,
    exactly one row for each combination of strategy, insertion mode,
    operation and record count that occurs among the results.  The row
    carries that combination, and its duration and storage size are the
    sums over the results of the combination, in the order they came and
    with the wrap-around of int64, divided by their number with truncation
    toward zero. *)
Theorem calculateAverages_groups (results out : list Main.BenchmarkResult) :
  Main.calculateAverages results out ->
  NoDup (map Main.keyOf out)
  /\ (forall a, In a out ->
        resultsOf (Main.keyOf a) results <> []
        /\ a = Main.average (Main.keyOf a,
                             resultsOf (Main.keyOf a) results))
  /\ (forall r, In r results ->
        exists a, In a out /\ Main.keyOf a = Main.keyOf r).
Proof.
  unfold Main.calculateAverages. intros Hperm.
  destruct (group_slices results) as [Hnd Hs].
  assert (map Main.keyOf (map Main.average (Main.group results)) =
          map fst (Main.group results)) as Hkeys.
  { rewrite map_map. apply map_ext. intros [k s]. apply keyOf_average. }
  split; [|split].
  - apply (Permutation_NoDup (l := map Main.keyOf
                                     (map Main.average (Main.group results)))).
    + apply Permutation_map. now apply Permutation_sym.
    + now rewrite Hkeys.
  - intros a Ha. apply (Permutation_in _ Hperm) in Ha.
    apply in_map_iff in Ha as [[k s] [<- Hin]].
    rewrite keyOf_average. apply Hs in Hin as [-> Hne]. now split.
  - intros r Hr.
    assert (resultsOf (Main.keyOf r) results <> []) as Hne.
    { intros E. assert (In r (resultsOf (Main.keyOf r) results)) as Hin.
      { apply filter_In. split; [exact Hr|apply key_eqb_refl]. }
      rewrite E in Hin. contradiction. }
    exists (Main.average (Main.keyOf r, resultsOf (Main.keyOf r) results)).
    split; [|apply keyOf_average].
    apply (Permutation_in _ (Permutation_sym Hperm)).
    apply in_map_iff. eexists. split; [reflexivity|]. apply Hs. now split.
Qed.

Lemma less_order_total (a b : Main.BenchmarkResult) :
  Main.less a b = false -> Main.less b a = false ->
  Main.keyOf a = Main.keyOf b.
Proof.
  destruct a as [s1 b1 o1 d1 y1 c1], b as [s2 b2 o2 d2 y2 c2].
  unfold Main.less, Main.keyOf.
  cbn [Main.Strategy Main.Bulk Main.Operation Main.RecordCount].
  intros H1 H2. split_tests; try lia;
    try (apply Z.ltb_ge in H1; apply Z.ltb_ge in H2; lia);
    try (exfalso; match goal with
                  | E : _ <> _ |- _ => apply E; now apply bytes_ltb_total
                  end).
  destruct b1, b2; cbn in *; try discriminate;
    now rewrite (bytes_ltb_total o1 o2).
Qed.

Lemma averages_NoDup (results out : list Main.BenchmarkResult) :
  Main.calculateAverages results out -> NoDup (map Main.keyOf out).
Proof.
  unfold Main.calculateAverages. intros Hperm.
  destruct (group_slices results) as [Hnd _].
  apply (Permutation_NoDup (l := map Main.keyOf
                                   (map Main.average (Main.group results)))).
  - apply Permutation_map. now apply Permutation_sym.
  - rewrite map_map.
    replace (map (fun e => Main.keyOf (Main.average e)) (Main.group results))
      with (map fst (Main.group results)); [exact Hnd|].
    apply map_ext. intros [k sl]. symmetry. apply keyOf_average.
Qed.

Lemma calculateAverages_groups_witness :
  NoDup (map Main.keyOf [twoRunsAverage])
  /\ twoRunsAverage =
       Main.average (Main.keyOf twoRunsAverage,
                     resultsOf (Main.keyOf twoRunsAverage) twoRuns).
Proof.
  destruct (calculateAverages_groups twoRuns [twoRunsAverage]) as (H1 & H2 & _).
  - apply Permutation_refl.
  - split; [exact H1|]. apply H2. now left.
Defined.

Lemma ordered_unique (l1 l2 : list Main.BenchmarkResult) :
  Permutation l1 l2 -> NoDup (map Main.keyOf l1) ->
  ordered l1 -> ordered l2 -> l1 = l2.
Proof.
  revert l2. induction l1 as [|a l1 IH]; intros l2 Hp Hnd H1 H2.
  - now apply Permutation_nil in Hp.
  - destruct l2 as [|b l2];
      [apply Permutation_sym, Permutation_nil in Hp; discriminate|].
    assert (a = b) as ->.
    { assert (In b (a :: l1)) as Hb
        by (apply (Permutation_in _ (Permutation_sym Hp)); now left).
      assert (In a (b :: l2)) as Ha by (apply (Permutation_in _ Hp); now left).
      destruct Hb as [Hb|Hb]; [exact Hb|].
      destruct Ha as [Ha|Ha]; [now symmetry|].
      inversion H1 as [|? ? _ Hall1]. inversion H2 as [|? ? _ Hall2]. subst.
      rewrite Forall_forall in Hall1, Hall2.
      pose proof (Hall1 b Hb) as Hba. pose proof (Hall2 a Ha) as Hab.
      pose proof (less_order_total a b Hab Hba) as Hkey.
      cbn [map] in Hnd. inversion Hnd as [|? ? Hnot _]. subst.
      elim Hnot. apply in_map_iff. exists b. split; [now symmetry|exact Hb]. }
    f_equal. apply IH.
    + now apply Permutation_cons_inv in Hp.
    + cbn [map] in Hnd. now inversion Hnd.
    + now inversion H1.
    + now inversion H2.
Qed.

(** X27.  The table [printResults] prints does not depend on the order in
    which [calculateAverages] ranged over its map: two results of
    [calculateAverages] on the same measurements, each sorted by the less
    function of [printResults], are the same list. *)
Theorem printed_order_is_determined
    (results out1 out2 sorted1 sorted2 : list Main.BenchmarkResult) :
  Main.calculateAverages results out1 ->
  Main.calculateAverages results out2 ->
  Permutation sorted1 out1 -> ordered sorted1 ->
  Permutation sorted2 out2 -> ordered sorted2 ->
  sorted1 = sorted2.
Proof.
  intros Ho1 Ho2 Hp1 Hs1 Hp2 Hs2.
  apply ordered_unique; try assumption.
  - unfold Main.calculateAverages in *.
    eapply Permutation_trans; [exact Hp1|].
    eapply Permutation_trans; [exact Ho1|].
    apply Permutation_sym. eapply Permutation_trans; [exact Hp2|exact Ho2].
  - apply (Permutation_NoDup (l := map Main.keyOf out1)).
    + apply Permutation_map. now apply Permutation_sym.
    + now apply (averages_NoDup results).
Qed.

Lemma printed_order_is_determined_witness :
  let w := Main.mkResult (str "Binary") false (str "Write") 7 4096 100 in
  [twoRunsAverage; w] = [twoRunsAverage; w].
Proof.
  intros w.
  assert (ordered [twoRunsAverage; w]) as Ho.
  { repeat constructor. }
  apply (printed_order_is_determined (twoRuns ++ [w]) [twoRunsAverage; w]
           [w; twoRunsAverage]).
  - apply Permutation_refl.
  - apply perm_swap.
  - apply Permutation_refl.
  - exact Ho.
  - apply perm_swap.
  - exact Ho.
Defined.
